(** * Leave & Productivity Analyzer: the calculation engine

    A shallow embedding of [src/lib/calculations.ts] and the properties of
    its time parser, calendar rule, monthly gap filler and productivity
    aggregator.

    The callers of the engine are embedded after it: the dashboard page
    ([calculateMonthlyExpectedHours], [getData], [parseMonthParam]), the
    month selector that writes the month in the URL, and the upload route
    ([validateFileExtension], [parseExcelDate], [normalizeTimeString] and
    the grouping of the rows by employee in [POST]).  What comes from the
    database is a parameter of these functions.

    Conventions of the embedding.
    - A JavaScript [number] is a rational ([Q]), the exact value of a
      double; [NaN] and the infinities are outside the model, and equality
      of numbers is [Qeq] ([==]).  Where the program computes on numbers
      that it is given (the worked hours of records and of rows, the
      fraction of a day of a cell), an operation returns the double nearest
      to its exact result: [double], with a significand of 53 bits, ties to
      the even significand and no bound on the exponent.  This is how
      [calculateProductivity], the sums of worked hours and the products
      that [calculateAggregateProductivity], [getData] and the numeric
      branch of [normalizeTimeString] give to [Math.round] are written.
      Written without rounding are: the time of day [hours + minutes / 60]
      and the duration of [calculateWorkedHours], which come from strings
      and are whole numbers of minutes, far from the ties of the rounding
      to hundredths ([calculateWorkedHours_in_double_precision] proves that
      the same hundredths come out of the operations on doubles); the sums
      of expected hours, multiples of 0.5 that an addition returns as they
      are ([double_half_multiple]); the arithmetic of dates, on integers,
      and the milliseconds of a serial date in [parseExcelDate], of which
      the day alone is used; and the quotient of a [Math.round] by 10 or
      100, written as the decimal that the double returned prints as.  That the exponent has no
      bound changes no result: what underflows is rounded to 0 by
      [Math.round], and what overflows is an infinity.
    - A JavaScript string is a [string]: a sequence of code units, of which
      the 8-bit ones are represented.
    - A thrown exception is the [Throw] result of a small error monad; the
      three error classes of the module are the constructors of [Error].
    - A [Date] is either the invalid date (time value [NaN]) or a time value
      in milliseconds.  The date-fns helpers work in local time; the model
      fixes the local zone to UTC, which is what timezone-naive means. *)

From Stdlib Require Import ZArith QArith Qround Lqa List String Ascii Bool Lia.
From Stdlib Require Import DecimalString Qabs Qpower Permutation.
Import ListNotations.

Local Open Scope Z_scope.

(** ** Errors and results *)

(** The message of a [CalculationError], with the value it interpolates. *)
Inductive CalculationMessage : Type :=
| WorkedHoursOutOfRange (workedHours : Q)
| InvalidActualHours (actualHours : Q)
| InvalidExpectedHours (expectedHours : Q)
| RecordsMustBeNonEmpty.

(** What an [InvalidDateError] complains about. *)
Inductive InvalidDateMessage : Type :=
| InvalidYear (year : Z)
| InvalidMonth (month : Z)
| InvalidDateProvided.

Inductive Error : Type :=
| InvalidTimeFormatError (timeString : string) (details : string)
| InvalidDateError (message : InvalidDateMessage)
| CalculationError (message : CalculationMessage) (context : string).

Inductive result (A : Type) : Type :=
| Ok (a : A)
| Throw (e : Error).

Arguments Ok {A} a.
Arguments Throw {A} e.

Definition bind {A B : Type} (r : result A) (k : A -> result B) : result B :=
  match r with
  | Ok a => k a
  | Throw e => Throw e
  end.

Notation "x <- r ;; k" := (bind r (fun x => k))
  (at level 61, r at next level, right associativity).

(** [Array.prototype.map] with a callback that may throw: the first
    exception, in index order, aborts the whole map. *)
Fixpoint mapM {A B : Type} (f : A -> result B) (l : list A) : result (list B) :=
  match l with
  | [] => Ok []
  | a :: l' => b <- f a ;; bs <- mapM f l' ;; Ok (b :: bs)
  end.

(** ** Strings *)

Definition code (c : ascii) : N := N_of_ascii c.

(** WhiteSpace and LineTerminator code units below 256: TAB, LF, VT, FF, CR,
    SP and NBSP. *)
Definition isWhiteSpace (c : ascii) : bool :=
  let n := code c in
  ((9 <=? n) && (n <=? 13) || (n =? 32) || (n =? 160))%N.

Fixpoint trimStart (s : list ascii) : list ascii :=
  match s with
  | c :: s' => if isWhiteSpace c then trimStart s' else s
  | [] => []
  end.

Definition trimEnd (s : list ascii) : list ascii := rev (trimStart (rev s)).

(** [String.prototype.trim] *)
Definition trim (s : string) : string :=
  string_of_list_ascii (trimEnd (trimStart (list_ascii_of_string s))).

(** ** Regular expressions

    The fragment of the pattern language that [TIME_24HR_REGEX] uses:
    character classes, concatenation, ordered alternation, the greedy
    optional and capturing groups. *)
Inductive regex : Type :=
| Class (lo hi : ascii)
| Cat (r1 r2 : regex)
| Alt (r1 r2 : regex)
| Opt (r : regex)
| Group (i : nat) (r : regex).

Definition Lit (c : ascii) : regex := Class c c.

Definition inClass (lo hi c : ascii) : bool :=
  ((code lo <=? code c) && (code c <=? code hi))%N.

(** Captures, most recent first. *)
Definition captures : Type := list (nat * list ascii).

Fixpoint capture (i : nat) (caps : captures) : option (list ascii) :=
  match caps with
  | [] => None
  | (j, s) :: caps' => if Nat.eqb i j then Some s else capture i caps'
  end.

(** The backtracking matcher, in continuation-passing style: [k] is the rest
    of the pattern.  Alternatives are tried left to right and the optional
    first tries to match. *)
Fixpoint run (r : regex) (s : list ascii) (caps : captures)
    (k : list ascii -> captures -> option captures) : option captures :=
  match r with
  | Class lo hi =>
      match s with
      | c :: s' => if inClass lo hi c then k s' caps else None
      | [] => None
      end
  | Cat r1 r2 => run r1 s caps (fun s1 c1 => run r2 s1 c1 k)
  | Alt r1 r2 =>
      match run r1 s caps k with
      | Some c => Some c
      | None => run r2 s caps k
      end
  | Opt r1 =>
      match run r1 s caps k with
      | Some c => Some c
      | None => k s caps
      end
  | Group i r1 =>
      run r1 s caps
        (fun s1 c1 => k s1 ((i, firstn (List.length s - List.length s1) s) :: c1))
  end.

(** The end anchor [$]. *)
Definition atEnd (s : list ascii) (caps : captures) : option captures :=
  match s with
  | [] => Some caps
  | _ :: _ => None
  end.

(** [str.match(/^r$/)]: the pattern is anchored on both sides, so the only
    start position is 0. *)
Definition regexMatch (r : regex) (s : string) : option captures :=
  run r (list_ascii_of_string s) [] atEnd.

(** [/^r$/.test(str)] *)
Definition regexTest (r : regex) (s : string) : bool :=
  match regexMatch r s with
  | Some _ => true
  | None => false
  end.

(** The language of a pattern, independently of any matching strategy. *)
Inductive Matches : regex -> list ascii -> Prop :=
| MClass lo hi c : inClass lo hi c = true -> Matches (Class lo hi) [c]
| MCat r1 r2 s1 s2 :
    Matches r1 s1 -> Matches r2 s2 -> Matches (Cat r1 r2) (s1 ++ s2)
| MAltL r1 r2 s : Matches r1 s -> Matches (Alt r1 r2) s
| MAltR r1 r2 s : Matches r2 s -> Matches (Alt r1 r2) s
| MOptSome r s : Matches r s -> Matches (Opt r) s
| MOptNone r : Matches (Opt r) []
| MGroup i r s : Matches r s -> Matches (Group i r) s.

(** ** Time parsing *)

(** [/^([0-1]?[0-9]|2[0-3]):([0-5][0-9])$/] *)
Definition TIME_24HR_REGEX : regex :=
  Cat (Group 1 (Alt (Cat (Opt (Class "0" "1")) (Class "0" "9"))
                    (Cat (Lit "2") (Class "0" "3"))))
      (Cat (Lit ":")
           (Group 2 (Cat (Class "0" "5") (Class "0" "9")))).

Definition isValidTimeFormat (timeStr : string) : bool :=
  regexTest TIME_24HR_REGEX timeStr.

Definition isDigit (c : ascii) : bool := inClass "0" "9" c.

Definition digitValue (c : ascii) : Z := Z.of_N (code c) - 48.

Fixpoint parseDigits (acc : Z) (s : list ascii) : Z :=
  match s with
  | c :: s' => if isDigit c then parseDigits (10 * acc + digitValue c) s' else acc
  | [] => acc
  end.

(** [parseInt(str, 10)]: leading white space and a sign are skipped, then
    the longest run of digits is read; [None] is [NaN] (no digit). *)
Definition parseInt (s : list ascii) : option Z :=
  let s := trimStart s in
  let (sign, s) :=
    match s with
    | c :: s' =>
        if Ascii.eqb c "-" then (-1, s')
        else if Ascii.eqb c "+" then (1, s') else (1, s)
    | [] => (1, s)
    end in
  match s with
  | c :: _ => if isDigit c then Some (sign * parseDigits 0 s) else None
  | [] => None
  end.

Definition Qltb (x y : Q) : bool := negb (Qle_bool y x).

(** [parseTime].  The [typeof] test is settled by the type.  After the
    format test has passed, the match cannot fail and the captures are runs
    of digits; the model sends both of these dead ends (a null match, a
    [NaN] component) to the "unexpectedly" throw. *)
Definition parseTime (timeStr : string) : result Q :=
  if (String.length (trim timeStr) =? 0)%nat then
    Throw (InvalidTimeFormatError timeStr "Time must be a non-empty string.")
  else
    let trimmedTime := trim timeStr in
    if negb (isValidTimeFormat trimmedTime) then
      Throw (InvalidTimeFormatError trimmedTime
               "Use 24-hour format: HH:MM (e.g., 09:30, 14:45).")
    else
      let unexpected :=
        Throw (InvalidTimeFormatError trimmedTime
                 "Regex match failed unexpectedly.") in
      match regexMatch TIME_24HR_REGEX trimmedTime with
      | None => unexpected
      | Some m =>
          match option_map parseInt (capture 1 m),
                option_map parseInt (capture 2 m) with
          | Some (Some hours), Some (Some minutes) =>
              if (hours <? 0) || (hours >? 23) then
                Throw (InvalidTimeFormatError trimmedTime
                         "Hours must be between 00 and 23.")
              else if (minutes <? 0) || (minutes >? 59) then
                Throw (InvalidTimeFormatError trimmedTime
                         "Minutes must be between 00 and 59.")
              else
                Ok (inject_Z hours + inject_Z minutes / 60)%Q
          | _, _ => unexpected
          end
      end.

(** [Math.round]: the nearest integer, a tie going up. *)
Definition Math_round (x : Q) : Z := Qfloor (x + (1 # 2))%Q.

(** The duration before rounding and range check. *)
Definition elapsed (inHours outHours : Q) : Q :=
  if Qle_bool inHours outHours then (outHours - inHours)%Q
  else (24 - inHours + outHours)%Q.

Definition calculateWorkedHours (inTime outTime : string) : result Q :=
  inHours <- parseTime inTime ;;
  outHours <- parseTime outTime ;;
  let workedHours := elapsed inHours outHours in
  if Qltb workedHours 0 || Qltb 24 workedHours then
    Throw (CalculationError (WorkedHoursOutOfRange workedHours)
             ("inTime: " ++ inTime ++ ", outTime: " ++ outTime)%string)
  else
    Ok (inject_Z (Math_round (workedHours * 100)) / 100)%Q.

(** ** Dates

    Time values and the calendar functions of the language standard
    ([Day], [DayFromYear], [YearFromTime], [MonthFromTime], [DateFromTime],
    [WeekDay], [MakeDay], [TimeClip]), here on day numbers where the
    standard composes with [Day]. *)

Inductive Date : Type :=
| InvalidDate
| DateAt (t : Z).

Definition msPerDay : Z := 86400000.

Definition Day (t : Z) : Z := t / msPerDay.

Definition TimeWithinDay (t : Z) : Z := t mod msPerDay.

Definition DaysInYear (y : Z) : Z :=
  if negb (y mod 4 =? 0) then 365
  else if negb (y mod 100 =? 0) then 366
  else if negb (y mod 400 =? 0) then 365
  else 366.

Definition DayFromYear (y : Z) : Z :=
  365 * (y - 1970) + (y - 1969) / 4 - (y - 1901) / 100 + (y - 1601) / 400.

(** The largest year that starts on or before day [d]: the mean-year
    estimate is off by at most one. *)
Definition YearFromDay (d : Z) : Z :=
  let y := 1970 + 400 * d / 146097 in
  if d <? DayFromYear y then y - 1
  else if DayFromYear (y + 1) <=? d then y + 1
  else y.

Definition InLeapYear (d : Z) : Z :=
  if DaysInYear (YearFromDay d) =? 366 then 1 else 0.

Definition DayWithinYear (d : Z) : Z := d - DayFromYear (YearFromDay d).

Definition MonthFromDay (d : Z) : Z :=
  let n := DayWithinYear d in
  let leap := InLeapYear d in
  if n <? 31 then 0
  else if n <? 59 + leap then 1
  else if n <? 90 + leap then 2
  else if n <? 120 + leap then 3
  else if n <? 151 + leap then 4
  else if n <? 181 + leap then 5
  else if n <? 212 + leap then 6
  else if n <? 243 + leap then 7
  else if n <? 273 + leap then 8
  else if n <? 304 + leap then 9
  else if n <? 334 + leap then 10
  else 11.

Definition DateFromDay (d : Z) : Z :=
  let n := DayWithinYear d in
  let leap := InLeapYear d in
  match MonthFromDay d with
  | 0 => n + 1
  | 1 => n - 30
  | 2 => n - 58 - leap
  | 3 => n - 89 - leap
  | 4 => n - 119 - leap
  | 5 => n - 150 - leap
  | 6 => n - 180 - leap
  | 7 => n - 211 - leap
  | 8 => n - 242 - leap
  | 9 => n - 272 - leap
  | 10 => n - 303 - leap
  | _ => n - 333 - leap
  end.

Definition WeekDay (d : Z) : Z := (d + 4) mod 7.

(** Days of the year before month [mn] (0-based). *)
Definition daysBeforeMonth (leap mn : Z) : Z :=
  match mn with
  | 0 => 0
  | 1 => 31
  | 2 => 59 + leap
  | 3 => 90 + leap
  | 4 => 120 + leap
  | 5 => 151 + leap
  | 6 => 181 + leap
  | 7 => 212 + leap
  | 8 => 243 + leap
  | 9 => 273 + leap
  | 10 => 304 + leap
  | _ => 334 + leap
  end.

Definition MakeDay (year month date : Z) : Z :=
  let ym := year + month / 12 in
  let mn := month mod 12 in
  let leap := if DaysInYear ym =? 366 then 1 else 0 in
  DayFromYear ym + daysBeforeMonth leap mn + date - 1.

Definition MakeDate (day time : Z) : Z := day * msPerDay + time.

Definition TimeClip (t : Z) : Date :=
  if Z.abs t <=? 8640000000000000 then DateAt t else InvalidDate.

(** *** The [Date] object *)

(** [new Date(year, monthIndex, day)]; a year from 0 to 99 means 19xx. *)
Definition newDate (year monthIndex day : Z) : Date :=
  let yr := if (0 <=? year) && (year <=? 99) then 1900 + year else year in
  TimeClip (MakeDate (MakeDay yr monthIndex day) 0).

(** [getTime()]; [None] is [NaN]. *)
Definition getTime (d : Date) : option Z :=
  match d with
  | DateAt t => Some t
  | InvalidDate => None
  end.

Definition getFullYear (d : Date) : option Z := option_map (fun t => YearFromDay (Day t)) (getTime d).
Definition getMonth (d : Date) : option Z := option_map (fun t => MonthFromDay (Day t)) (getTime d).
Definition getDate (d : Date) : option Z := option_map (fun t => DateFromDay (Day t)) (getTime d).
Definition getDay (d : Date) : option Z := option_map (fun t => WeekDay (Day t)) (getTime d).

(** [d.setHours(0, 0, 0, 0)] *)
Definition setHours0 (d : Date) : Date :=
  match d with
  | DateAt t => TimeClip (MakeDate (Day t) 0)
  | InvalidDate => InvalidDate
  end.

(** [d.setDate(dayOfMonth)] *)
Definition Date_setDate (d : Date) (dayOfMonth : Z) : Date :=
  match d with
  | DateAt t =>
      TimeClip (MakeDate (MakeDay (YearFromDay (Day t)) (MonthFromDay (Day t)) dayOfMonth)
                         (TimeWithinDay t))
  | InvalidDate => InvalidDate
  end.

(** [d.setFullYear(year, monthIndex, day)], with [NaN] arguments as [None];
    an invalid receiver counts as time 0. *)
Definition Date_setFullYear (d : Date) (year monthIndex : option Z) (day : Z) : Date :=
  match year, monthIndex with
  | Some y, Some m =>
      let t := match d with DateAt t => t | InvalidDate => 0 end in
      TimeClip (MakeDate (MakeDay y m day) (TimeWithinDay t))
  | _, _ => InvalidDate
  end.

(** Strict equality of two numbers, [NaN] being equal to nothing. *)
Definition strictEq (a b : option Z) : bool :=
  match a, b with
  | Some x, Some y => x =? y
  | _, _ => false
  end.

(** *** date-fns *)

Definition startOfDay (date : Date) : Date := setHours0 date.

Definition startOfMonth (date : Date) : Date := setHours0 (Date_setDate date 1).

Definition setDate (date : Date) (dayOfMonth : Z) : Date := Date_setDate date dayOfMonth.

Definition getDaysInMonth (date : Date) : option Z :=
  let year := getFullYear date in
  let monthIndex := getMonth date in
  let lastDayOfMonth :=
    Date_setFullYear (DateAt 0) year (option_map (fun m => m + 1) monthIndex) 0 in
  getDate (setHours0 lastDayOfMonth).

Definition isSunday (date : Date) : bool := strictEq (getDay date) (Some 0).

Definition isSaturday (date : Date) : bool := strictEq (getDay date) (Some 6).

(** ** Records *)

Record RawAttendanceInput : Type := {
  raw_employeeId : string;
  raw_date : Date;
  raw_inTime : string;
  raw_outTime : string
}.

Inductive Status : Type := PRESENT | ABSENT | WEEKEND | HOLIDAY.

Record ProcessedAttendanceRecord : Type := {
  employeeId : string;
  date : Date;
  inTime : option string;
  outTime : option string;
  workedHours : Q;
  status : Status
}.

Record ProductivityMetrics : Type := {
  actualHours : Q;
  expectedHours : Q;
  productivityPercentage : Q
}.

(** ** Expected hours *)

Module EXPECTED_HOURS.
(** Monday through Friday *)
Definition WEEKDAY : Q := 8.5.
(** Saturday *)
Definition SATURDAY : Q := 4.0.
(** Sunday (weekend) *)
Definition SUNDAY : Q := 0.0.
End EXPECTED_HOURS.

Definition getExpectedHours (date : Date) : result Q :=
  match getTime date with
  | None => Throw (InvalidDateError InvalidDateProvided)
  | Some _ =>
      if isSunday date then Ok EXPECTED_HOURS.SUNDAY
      else if isSaturday date then Ok EXPECTED_HOURS.SATURDAY
      else Ok EXPECTED_HOURS.WEEKDAY
  end.

(** ** Attendance processing *)

Definition normalizeDate (date : Date) : Date := startOfDay date.

(** The values of [day] in [for (day = 1; day <= daysInMonth; day++)]; the
    loop does not run when the bound is [NaN]. *)
Definition dayRange (daysInMonth : option Z) : list Z :=
  match daysInMonth with
  | Some n => map Z.of_nat (seq 1 (Z.to_nat n))
  | None => []
  end.

(** [generateMonthDates]; [Number.isInteger] is settled by the type. *)
Definition generateMonthDates (year month : Z) : result (list Date) :=
  if (year <? 1900) || (year >? 2100) then
    Throw (InvalidDateError (InvalidYear year))
  else if (month <? 1) || (month >? 12) then
    Throw (InvalidDateError (InvalidMonth month))
  else
    let firstDay := startOfMonth (newDate year (month - 1) 1) in
    let daysInMonth := getDaysInMonth firstDay in
    Ok (map (fun day => normalizeDate (setDate firstDay day)) (dayRange daysInMonth)).

Definition findRecordForDate (targetDate : Date) (rawRecords : list RawAttendanceInput)
    : option RawAttendanceInput :=
  let targetTime := getTime targetDate in
  find (fun record =>
          let normalizedRecordDate := normalizeDate (raw_date record) in
          strictEq (getTime normalizedRecordDate) targetTime)
       rawRecords.

(** [a || b] on strings: the empty string is the only falsy one. *)
Definition orString (a b : string) : string :=
  match a with
  | EmptyString => b
  | _ => a
  end.

(** [normalizedRawRecords[0]?.employeeId || ''] *)
Definition firstEmployeeId (normalizedRawRecords : list RawAttendanceInput) : string :=
  match normalizedRawRecords with
  | r :: _ => orString (raw_employeeId r) ""
  | [] => ""
  end.

(** The callback of the [map] over the dates of the month.  The [catch]
    logs and rethrows, so it leaves the result as it is. *)
Definition processDate (normalizedRawRecords : list RawAttendanceInput) (date : Date)
    : result ProcessedAttendanceRecord :=
  match findRecordForDate date normalizedRawRecords with
  | Some rawRecord =>
      workedHours <- calculateWorkedHours (raw_inTime rawRecord) (raw_outTime rawRecord) ;;
      Ok {| employeeId := raw_employeeId rawRecord;
            date := date;
            inTime := Some (raw_inTime rawRecord);
            outTime := Some (raw_outTime rawRecord);
            workedHours := workedHours;
            status := PRESENT |}
  | None =>
      if isSunday date then
        Ok {| employeeId := firstEmployeeId normalizedRawRecords;
              date := date;
              inTime := None;
              outTime := None;
              workedHours := 0;
              status := WEEKEND |}
      else
        Ok {| employeeId := firstEmployeeId normalizedRawRecords;
              date := date;
              inTime := None;
              outTime := None;
              workedHours := 0;
              status := ABSENT |}
  end.

(** [{ ...record, date: normalizeDate(record.date) }] *)
Definition normalizeRecord (record : RawAttendanceInput) : RawAttendanceInput :=
  {| raw_employeeId := raw_employeeId record;
     raw_date := normalizeDate (raw_date record);
     raw_inTime := raw_inTime record;
     raw_outTime := raw_outTime record |}.

Definition normalizeRecords (rawRecords : list RawAttendanceInput) : list RawAttendanceInput :=
  map normalizeRecord rawRecords.

(** [processMonthlyAttendance]; [Array.isArray] is settled by the type. *)
Definition processMonthlyAttendance (year month : Z) (rawRecords : list RawAttendanceInput)
    : result (list ProcessedAttendanceRecord) :=
  let normalizedRawRecords := normalizeRecords rawRecords in
  allDatesInMonth <- generateMonthDates year month ;;
  mapM (processDate normalizedRawRecords) allDatesInMonth.

(** ** Double precision *)

(** The power of two of an integer exponent. *)
Definition pow2 (k : Z) : Q := (2 ^ k)%Q.

(** The binade of a positive number: the [k] with [2^k <= x < 2^(k+1)]. *)
Definition binade (x : Q) : Z :=
  let k := Z.log2 (Qnum x) - Z.log2 (Z.pos (Qden x)) in
  if Qle_bool (pow2 k) x then k else k - 1.

(** The nearest integer, a tie going to the even one. *)
Definition roundTiesToEven (x : Q) : Z :=
  let f := Qfloor x in
  match (x - inject_Z f ?= 1 # 2)%Q with
  | Lt => f
  | Gt => f + 1
  | Eq => if Z.even f then f else f + 1
  end.

(** The number that an arithmetic operation of exact result [x] returns:
    the nearest number with a significand of 53 bits, a tie going to the
    even significand. *)
Definition double (x : Q) : Q :=
  if Qeq_bool x 0 then 0%Q
  else
    let ulp := pow2 (binade (Qabs x) - 52) in
    (inject_Z (roundTiesToEven (x / ulp)) * ulp)%Q.

(** ** Productivity *)

Definition calculateProductivity (actualHours expectedHours : Q) : result Q :=
  if Qltb actualHours 0 then
    Throw (CalculationError (InvalidActualHours actualHours) "calculateProductivity")
  else if Qltb expectedHours 0 then
    Throw (CalculationError (InvalidExpectedHours expectedHours) "calculateProductivity")
  else if Qeq_bool expectedHours 0 then Ok 100%Q
  else
    let productivity := double (double (actualHours / expectedHours) * 100) in
    Ok (inject_Z (Math_round (double (productivity * 10))) / 10)%Q.

(** The [for ... of] loop over the records, on the two running totals. *)
Fixpoint sumHours (records : list ProcessedAttendanceRecord)
    (totalActualHours totalExpectedHours : Q) : result (Q * Q) :=
  match records with
  | [] => Ok (totalActualHours, totalExpectedHours)
  | record :: records' =>
      expected <- getExpectedHours (date record) ;;
      sumHours records' (double (totalActualHours + workedHours record))
                        (totalExpectedHours + expected)%Q
  end.

Definition calculateAggregateProductivity (records : list ProcessedAttendanceRecord)
    : result ProductivityMetrics :=
  match records with
  | [] => Throw (CalculationError RecordsMustBeNonEmpty "calculateAggregateProductivity")
  | _ :: _ =>
      totals <- sumHours records 0 0 ;;
      let (totalActualHours, totalExpectedHours) := totals in
      productivityPercentage <- calculateProductivity totalActualHours totalExpectedHours ;;
      Ok {| actualHours := inject_Z (Math_round (double (totalActualHours * 100))) / 100;
            expectedHours := inject_Z (Math_round (double (totalExpectedHours * 100))) / 100;
            productivityPercentage := productivityPercentage |}
  end.

(** ** Specification-side notions *)

(** A string the parser accepts: once trimmed it is in the language of the
    time pattern. *)
Definition AcceptedTime (s : string) : Prop :=
  Matches TIME_24HR_REGEX (list_ascii_of_string (trim s)).

Definition digitChar (n : Z) : ascii := ascii_of_N (Z.to_N (48 + n)).

Definition twoDigits (n : Z) : list ascii := [digitChar (n / 10); digitChar (n mod 10)].

(** [l] writes the time [h]:[m]: the hour on two digits, or on one when it
    has one; the minute on two digits. *)
Definition WritesTime (l : list ascii) (h m : Z) : Prop :=
  0 <= h <= 23 /\ 0 <= m <= 59 /\
  (l = twoDigits h ++ ":"%char :: twoDigits m \/
   (h <= 9 /\ l = digitChar h :: ":"%char :: twoDigits m)).

(** Rounding to [decimals] places, a tie going away from zero. *)
Definition roundHalfAwayFromZero (decimals : nat) (x : Q) : Q :=
  let scale := inject_Z (10 ^ Z.of_nat decimals) in
  let y := (x * scale)%Q in
  (inject_Z (if Qle_bool 0 y then Qfloor (y + (1 # 2)) else Qceiling (y - (1 # 2))) / scale)%Q.

(** [y] is [x] rounded to [decimals] places as the program can round it: a
    whole number of units of that place, within half a unit of [x] and the
    error of the operations in double precision, one part in 10^15.  Away
    from the ties of the rounding this leaves one value; at a tie, or within
    that error of one, both neighbours are left. *)
Definition RoundedTo (decimals : nat) (x y : Q) : Prop :=
  let scale := inject_Z (10 ^ Z.of_nat decimals) in
  (exists k : Z, y == inject_Z k / scale)%Q /\
  (Qabs (y - x) <= (1 # 2) / scale + Qabs x * (1 # 1000000000000000))%Q.

(** The days of the week, numbered as [getDay] numbers them. *)
Inductive DayOfWeek : Type :=
| Sunday | Monday | Tuesday | Wednesday | Thursday | Friday | Saturday.

Definition dayOfWeek (d : Date) : option DayOfWeek :=
  match getDay d with
  | Some 0 => Some Sunday
  | Some 1 => Some Monday
  | Some 2 => Some Tuesday
  | Some 3 => Some Wednesday
  | Some 4 => Some Thursday
  | Some 5 => Some Friday
  | Some 6 => Some Saturday
  | _ => None
  end.

Definition nextDay (w : DayOfWeek) : DayOfWeek :=
  match w with
  | Sunday => Monday
  | Monday => Tuesday
  | Tuesday => Wednesday
  | Wednesday => Thursday
  | Thursday => Friday
  | Friday => Saturday
  | Saturday => Sunday
  end.

(** The business rule. *)
Definition expectedHoursOn (w : DayOfWeek) : Q :=
  match w with
  | Sunday => 0.0
  | Saturday => 4.0
  | _ => 8.5
  end.

(** The sum of a list of numbers, from 0 and from the left. *)
Definition total (xs : list Q) : Q := fold_left Qplus xs 0%Q.

(** The same sum as a loop of the program forms it, each addition returning
    a double. *)
Definition runningTotal (xs : list Q) : Q :=
  fold_left (fun sum x => double (sum + x)) xs 0%Q.

(** The number that [calculateProductivity] gives to [Math.round]. *)
Definition scaledRatio (a e : Q) : Q :=
  double (double (double (a / e) * 100) * 10).

(** The arithmetic of [parseTime] and of [calculateWorkedHours] with each
    operation returning a double: the decimal hours of an hour and a minute,
    and the hours worked from one time of day to another, [None] standing
    for the throw of the range check. *)
Definition decimalHours (hours minutes : Z) : Q :=
  double (inject_Z hours + double (inject_Z minutes / 60)).

Definition workedHoursBetween (inHours outHours : Q) : option Q :=
  let workedHours :=
    if Qle_bool inHours outHours then double (outHours - inHours)
    else double (double (24 - inHours) + outHours) in
  if Qltb workedHours 0 || Qltb 24 workedHours then None
  else Some (inject_Z (Math_round (double (workedHours * 100))) / 100)%Q.

(** The calendar, as one states it. *)
Definition isLeapYear (year : Z) : bool :=
  (year mod 4 =? 0) && negb (year mod 100 =? 0) || (year mod 400 =? 0).

Definition lastDayOfMonth (year month : Z) : Z :=
  match month with
  | 2 => if isLeapYear year then 29 else 28
  | 4 | 6 | 9 | 11 => 30
  | _ => 31
  end.

(** [d] falls on the given day of the calendar, at any time of that day. *)
Definition OnCalendarDay (d : Date) (year month day : Z) : Prop :=
  getFullYear d = Some year /\ getMonth d = Some (month - 1) /\ getDate d = Some day.

Definition AtMidnight (d : Date) : Prop :=
  exists t, d = DateAt t /\ TimeWithinDay t = 0.

Definition Earlier (a b : Date) : Prop :=
  exists ta tb, a = DateAt ta /\ b = DateAt tb /\ ta < tb.

(** [e] is the first of the entries dated on the given day. *)
Definition FirstOnDay (rawRecords : list RawAttendanceInput) (year month day : Z)
    (e : RawAttendanceInput) : Prop :=
  exists before after,
    rawRecords = before ++ e :: after /\
    OnCalendarDay (raw_date e) year month day /\
    forall e', In e' before -> ~ OnCalendarDay (raw_date e') year month day.

(** The record of a day of the month in the output. *)
Definition recordOfDay (records : list ProcessedAttendanceRecord) (day : Z)
    : option ProcessedAttendanceRecord :=
  nth_error records (Z.to_nat (day - 1)).

Definition NoneOnDay (rawRecords : list RawAttendanceInput) (year month day : Z) : Prop :=
  forall e, In e rawRecords -> ~ OnCalendarDay (raw_date e) year month day.

(** ** Auxiliary definitions of the proofs *)

(** The integers from [lo], [n] of them. *)
Definition Zrange (lo : Z) (n : nat) : list Z := map (fun i => lo + Z.of_nat i) (seq 0 n).

(** Equality of two fractions, numerator and denominator. *)
Definition Q_eqb (a b : Q) : bool := (Qnum a =? Qnum b) && Pos.eqb (Qden a) (Qden b).

(** [parseTime] after the emptiness test, as a function of the trimmed
    string. *)
Definition parseTrimmed (trimmedTime : string) : result Q :=
  if negb (isValidTimeFormat trimmedTime) then
    Throw (InvalidTimeFormatError trimmedTime
             "Use 24-hour format: HH:MM (e.g., 09:30, 14:45).")
  else
    let unexpected :=
      Throw (InvalidTimeFormatError trimmedTime
               "Regex match failed unexpectedly.") in
    match regexMatch TIME_24HR_REGEX trimmedTime with
    | None => unexpected
    | Some m =>
        match option_map parseInt (capture 1 m),
              option_map parseInt (capture 2 m) with
        | Some (Some hours), Some (Some minutes) =>
            if (hours <? 0) || (hours >? 23) then
              Throw (InvalidTimeFormatError trimmedTime
                       "Hours must be between 00 and 23.")
            else if (minutes <? 0) || (minutes >? 59) then
              Throw (InvalidTimeFormatError trimmedTime
                       "Minutes must be between 00 and 59.")
            else
              Ok (inject_Z hours + inject_Z minutes / 60)%Q
        | _, _ => unexpected
        end
    end.

(** The ways of writing [h]:[m]. *)
Definition writings (h m : Z) : list (list ascii) :=
  (twoDigits h ++ ":"%char :: twoDigits m)
  :: (if h <=? 9 then [digitChar h :: ":"%char :: twoDigits m] else []).

(** What is checked of each writing: [trim] leaves it alone, the format test
    passes, and it parses to the hour plus a sixtieth of the minute. *)
Definition checkWriting (h m : Z) (l : list ascii) : bool :=
  let t := string_of_list_ascii l in
  negb (String.length t =? 0)%nat
  && String.eqb (trim t) t
  && isValidTimeFormat t
  && match parseTrimmed t with
     | Ok v => Q_eqb v (inject_Z h + inject_Z m / 60)
     | Throw _ => false
     end.

(** Midnight of a day of the calendar. *)
Definition midnightOf (year month day : Z) : Date :=
  DateAt (MakeDate (MakeDay year (month - 1) day) 0).

(** The days of a month, from 1 to the last. *)
Definition daysOfMonth (year month : Z) : list Z :=
  dayRange (Some (lastDayOfMonth year month)).

(** The test of [findRecordForDate] against the midnight of a day. *)
Definition matchesDay (year month day : Z) (e : RawAttendanceInput) : bool :=
  strictEq (getTime (normalizeDate (raw_date e))) (getTime (midnightOf year month day)).

(** The entry of the example in the documentation of
    [processMonthlyAttendance]: present on 2 January 2024. *)
Definition jan2 : RawAttendanceInput :=
  {| raw_employeeId := "507f1f77bcf86cd799439011";
     raw_date := newDate 2024 0 2;
     raw_inTime := "09:00";
     raw_outTime := "17:30" |}.

(** The same entry with an hour that does not exist. *)
Definition badJan2 : RawAttendanceInput :=
  {| raw_employeeId := "507f1f77bcf86cd799439011";
     raw_date := newDate 2024 0 2;
     raw_inTime := "25:00";
     raw_outTime := "17:30" |}.

(** [r] is a returned number equal to [v]. *)
Definition Returns (r : result Q) (v : Q) : Prop :=
  exists w, r = Ok w /\ (w == v)%Q.

(** A record of Monday 1 January 2024 whose worked hours carry four
    decimals, as a record that does not come out of
    [processMonthlyAttendance] may. *)
Definition monday : ProcessedAttendanceRecord :=
  {| employeeId := "507f1f77bcf86cd799439011";
     date := newDate 2024 0 1;
     inTime := Some "09:00"%string;
     outTime := Some "17:20"%string;
     workedHours := 8.3345%Q;
     status := PRESENT |}.

(** A record of the same Monday with other worked hours. *)
Definition mondayOf (w : Q) : ProcessedAttendanceRecord :=
  {| employeeId := "507f1f77bcf86cd799439011";
     date := newDate 2024 0 1;
     inTime := Some "09:00"%string;
     outTime := Some "17:20"%string;
     workedHours := w;
     status := PRESENT |}.

(** * The rest of the engine and its callers *)

(** ** Notions for the further properties *)

(** The minutes from minute [a] of a day to minute [b], passing midnight
    when [b] is before [a]. *)
Definition minutesBetween (a b : Z) : Z :=
  if a <=? b then b - a else 1440 - a + b.

(** An entry dated on no day of the month. *)
Definition OutsideMonth (year month : Z) (e : RawAttendanceInput) : Prop :=
  forall day, 1 <= day <= lastDayOfMonth year month ->
              ~ OnCalendarDay (raw_date e) year month day.

(** The expected hours of a day of the week, numbered as [getDay] does. *)
Definition hoursOfWeekDay (w : Z) : Q :=
  if w =? 0 then EXPECTED_HOURS.SUNDAY
  else if w =? 6 then EXPECTED_HOURS.SATURDAY
  else EXPECTED_HOURS.WEEKDAY.

(** The expected hours of [n] days in a row, from day number [d] on. *)
Fixpoint hoursFrom (d : Z) (n : nat) : Q :=
  match n with
  | O => 0%Q
  | S n' => (hoursOfWeekDay (WeekDay d) + hoursFrom (d + 1) n')%Q
  end.

(** ** The dashboard page: the expected hours of a month *)

(** One turn of the loop of date-fns' [eachDayOfInterval], with step 1:
    [date.setDate(date.getDate() + 1); date.setHours(0, 0, 0, 0)]. *)
Definition toNextDay (date : Date) : Date :=
  match getDate date with
  | Some d => setHours0 (Date_setDate date (d + 1))
  | None => InvalidDate
  end.

(** [while (+date <= endTime) { dates.push(date); ... }]; a comparison with
    [NaN] is false. *)
Fixpoint eachDayLoop (fuel : nat) (date : Date) (endTime : Z) : list Date :=
  match fuel with
  | O => []
  | S fuel' =>
      match getTime date with
      | Some t =>
          if t <=? endTime then date :: eachDayLoop fuel' (toNextDay date) endTime
          else []
      | None => []
      end
  end.

(** [eachDayOfInterval({ start, end })].  Each turn of the loop moves the
    date to the next day, so there are no more turns than days from the
    first date to the end. *)
Definition eachDayOfInterval (start end_ : Date) : list Date :=
  match getTime start, getTime end_ with
  | Some s, Some e =>
      let reversed := s >? e in
      let endTime := if reversed then s else e in
      let date := setHours0 (if reversed then end_ else start) in
      let fuel := Z.to_nat (Day endTime - Day (if reversed then e else s) + 1) in
      let dates := eachDayLoop fuel date endTime in
      if reversed then rev dates else dates
  | _, _ => []
  end.

(** [for (const day of allDays) totalExpected += getExpectedHours(day)] *)
Fixpoint sumExpected (allDays : list Date) (totalExpected : Q) : result Q :=
  match allDays with
  | [] => Ok totalExpected
  | day :: allDays' =>
      expected <- getExpectedHours day ;;
      sumExpected allDays' (totalExpected + expected)%Q
  end.

Definition calculateMonthlyExpectedHours (year month : Z) : result Q :=
  let firstDay := newDate year (month - 1) 1 in
  let lastDay := newDate year month 0 in
  let allDays := eachDayOfInterval firstDay lastDay in
  sumExpected allDays 0%Q.

(** ** The dashboard page: the month of the URL *)

(** [/^(\d{4})-(\d{2})$/] *)
Definition MONTH_PARAM_REGEX : regex :=
  Cat (Group 1 (Cat (Class "0" "9") (Cat (Class "0" "9")
                 (Cat (Class "0" "9") (Class "0" "9")))))
      (Cat (Lit "-")
           (Group 2 (Cat (Class "0" "9") (Class "0" "9")))).

(** [parseMonthParam], returning the pair [{ year, month }].  The current
    time [now] is what [new Date()] reads; [None] is an absent parameter,
    and [!monthParam] also holds of the empty string.  The captures of a
    match are runs of digits, so that [parseInt] gives numbers; the model
    sends the case of a [NaN] to the default as well. *)
Definition parseMonthParam (now : Z) (monthParam : option string) : Z * Z :=
  let defaultYear := YearFromDay (Day now) in
  let defaultMonth := MonthFromDay (Day now) + 1 in
  match monthParam with
  | None => (defaultYear, defaultMonth)
  | Some monthParam =>
      if (String.length monthParam =? 0)%nat then (defaultYear, defaultMonth)
      else
        match regexMatch MONTH_PARAM_REGEX monthParam with
        | None => (defaultYear, defaultMonth)
        | Some m =>
            match option_map parseInt (capture 1 m),
                  option_map parseInt (capture 2 m) with
            | Some (Some year), Some (Some month) =>
                if (year <? 2000) || (year >? 2100) || (month <? 1) || (month >? 12)
                then (defaultYear, defaultMonth)
                else (year, month)
            | _, _ => (defaultYear, defaultMonth)
            end
        end
  end.

(** ** The month selector *)

(** [Number.prototype.toString] on an integer. *)
Definition Number_toString (n : Z) : string := NilZero.string_of_int (Z.to_int n).

(** [String.prototype.padStart] with a filler of one character. *)
Definition padStart (s : string) (targetLength : nat) (filler : ascii) : string :=
  (string_of_list_ascii (repeat filler (targetLength - String.length s)) ++ s)%string.

(** date-fns' [addLeadingZeros]. *)
Definition addLeadingZeros (number : Z) (targetLength : nat) : string :=
  let sign := if number <? 0 then "-"%string else ""%string in
  let output := padStart (Number_toString (Z.abs number)) targetLength "0" in
  (sign ++ output)%string.

(** [format(date, 'yyyy-MM')]: the year of the era on four digits or more
    and the month on two; [None] is the [RangeError] on an invalid date. *)
Definition format_yyyy_MM (date : Date) : option string :=
  match getFullYear date, getMonth date with
  | Some signedYear, Some monthIndex =>
      let year := if signedYear >? 0 then signedYear else 1 - signedYear in
      Some (addLeadingZeros year 4 ++ "-" ++ addLeadingZeros (monthIndex + 1) 2)%string
  | _, _ => None
  end.

(** [d.setMonth(monthIndex, day)], a [NaN] month being [None]. *)
Definition Date_setMonth (d : Date) (monthIndex : option Z) (day : Z) : Date :=
  match d, monthIndex with
  | DateAt t, Some m =>
      TimeClip (MakeDate (MakeDay (YearFromDay (Day t)) m day) (TimeWithinDay t))
  | _, _ => InvalidDate
  end.

(** date-fns' [addMonths]: the day of the month is kept unless the month
    aimed at is too short for it. *)
Definition addMonths (date : Date) (amount : Z) : Date :=
  if amount =? 0 then date
  else
    let dayOfMonth := getDate date in
    let endOfDesiredMonth :=
      Date_setMonth date (option_map (fun m => m + amount + 1) (getMonth date)) 0 in
    let daysInMonth := getDate endOfDesiredMonth in
    match dayOfMonth with
    | Some d =>
        let tooShort := match daysInMonth with Some n => d >=? n | None => false end in
        if tooShort then endOfDesiredMonth
        else Date_setFullYear date (getFullYear endOfDesiredMonth)
                              (getMonth endOfDesiredMonth) d
    | None => InvalidDate
    end.

Definition subMonths (date : Date) (amount : Z) : Date := addMonths date (- amount).

(** The date of the month on display. *)
Definition currentDate (currentYear currentMonth : Z) : Date :=
  newDate currentYear (currentMonth - 1) 1.

(** The month parameter that the handler puts in the URL. *)
Definition handlePreviousMonth (currentYear currentMonth : Z) : option string :=
  let previousMonth := subMonths (currentDate currentYear currentMonth) 1 in
  format_yyyy_MM previousMonth.

Definition handleNextMonth (currentYear currentMonth : Z) : option string :=
  let nextMonth := addMonths (currentDate currentYear currentMonth) 1 in
  format_yyyy_MM nextMonth.

(** A year on four digits. *)
Definition fourDigits (n : Z) : list ascii :=
  [digitChar (n / 1000); digitChar (n / 100 mod 10);
   digitChar (n / 10 mod 10); digitChar (n mod 10)].

(** The writing [YYYY-MM] of a month. *)
Definition writtenMonth (year month : Z) : string :=
  string_of_list_ascii (fourDigits year ++ "-"%char :: twoDigits month).

(** The month after and the month before. *)
Definition monthAfter (year month : Z) : Z * Z :=
  if month =? 12 then (year + 1, 1) else (year, month + 1).

Definition monthBefore (year month : Z) : Z * Z :=
  if month =? 1 then (year - 1, 12) else (year, month - 1).

Definition writtenAs (r : option string) (ym : Z * Z) : bool :=
  match r with
  | Some s => String.eqb s (writtenMonth (fst ym) (snd ym))
  | None => false
  end.

(** The month selector on one month, run against the writings. *)
Definition checkNavigation (year month : Z) : bool :=
  writtenAs (format_yyyy_MM (currentDate year month)) (year, month)
  && writtenAs (handleNextMonth year month) (monthAfter year month)
  && writtenAs (handlePreviousMonth year month) (monthBefore year month).

(** ** The dashboard page: the data of a month *)

(** A JavaScript [Map] with string keys, in insertion order: [get], and
    [set], which keeps the place of a key already present. *)
Fixpoint Map_get {V : Type} (map : list (string * V)) (key : string) : option V :=
  match map with
  | [] => None
  | (k, v) :: map' => if String.eqb k key then Some v else Map_get map' key
  end.

Fixpoint Map_set {V : Type} (map : list (string * V)) (key : string) (value : V)
    : list (string * V) :=
  match map with
  | [] => [(key, value)]
  | (k, v) :: map' =>
      if String.eqb k key then (k, value) :: map'
      else (k, v) :: Map_set map' key value
  end.

(** A row of the query of [getData]: an attendance record together with the
    name of its employee. *)
Record AttendanceRow : Type := {
  attendance : ProcessedAttendanceRecord;
  employee_name : string
}.

(** An entry of [employeeMap]. *)
Record EmployeeTotals : Type := {
  emp_id : string;
  emp_name : string;
  emp_workedHours : Q;
  emp_leavesTaken : Z
}.

Module Dashboard.
Record EmployeeMetrics : Type := {
  employeeId : string;
  employeeName : string;
  workedHours : Q;
  expectedHours : Q;
  leavesTaken : Z;
  productivityPercentage : Q
}.

Record CompanyMetrics : Type := {
  totalEmployees : Z;
  averageProductivity : Q;
  totalLeavesTaken : Z;
  totalWorkedHours : Q;
  totalExpectedHours : Q
}.

Record DashboardData : Type := {
  year : Z;
  month : Z;
  companyMetrics : CompanyMetrics;
  employeeMetrics : list EmployeeMetrics;
  hasData : bool
}.
End Dashboard.

Definition isABSENT (s : Status) : bool :=
  match s with
  | ABSENT => true
  | _ => false
  end.

(** One turn of [for (const record of records)]: the totals of the employee
    of the record are updated, or entered at the end of the map. *)
Definition addToEmployeeMap (employeeMap : list (string * EmployeeTotals))
    (r : AttendanceRow) : list (string * EmployeeTotals) :=
  let record := attendance r in
  match Map_get employeeMap (employeeId record) with
  | Some existing =>
      Map_set employeeMap (employeeId record)
        {| emp_id := emp_id existing;
           emp_name := emp_name existing;
           emp_workedHours := double (emp_workedHours existing + workedHours record);
           emp_leavesTaken := if isABSENT (status record)
                              then emp_leavesTaken existing + 1
                              else emp_leavesTaken existing |}
  | None =>
      Map_set employeeMap (employeeId record)
        {| emp_id := employeeId record;
           emp_name := employee_name r;
           emp_workedHours := workedHours record;
           emp_leavesTaken := if isABSENT (status record) then 1 else 0 |}
  end.

(** The metrics of one employee, against the expected hours of the month. *)
Definition metricsOfEmployee (monthlyExpectedHours : Q) (emp : EmployeeTotals)
    : result Dashboard.EmployeeMetrics :=
  productivity <- calculateProductivity (emp_workedHours emp) monthlyExpectedHours ;;
  Ok {| Dashboard.employeeId := emp_id emp;
        Dashboard.employeeName := emp_name emp;
        Dashboard.workedHours :=
          inject_Z (Math_round (double (emp_workedHours emp * 100))) / 100;
        Dashboard.expectedHours := monthlyExpectedHours;
        Dashboard.leavesTaken := emp_leavesTaken emp;
        Dashboard.productivityPercentage := productivity |}%Q.

(** The same when [calculateProductivity] returns the rounded ratio. *)
Definition ratioMetrics (monthlyExpectedHours : Q) (emp : EmployeeTotals)
    : Dashboard.EmployeeMetrics :=
  {| Dashboard.employeeId := emp_id emp;
     Dashboard.employeeName := emp_name emp;
     Dashboard.workedHours :=
       inject_Z (Math_round (double (emp_workedHours emp * 100))) / 100;
     Dashboard.expectedHours := monthlyExpectedHours;
     Dashboard.leavesTaken := emp_leavesTaken emp;
     Dashboard.productivityPercentage :=
       inject_Z (Math_round
                   (double (double (double (emp_workedHours emp / monthlyExpectedHours)
                                    * 100) * 10))) / 10 |}%Q.

(** [getData], on the rows that the query of the month returns.  The
    metrics of the employees hold decimals; the sums of the company take
    them as the doubles that the program holds. *)
Definition getData (year month : Z) (records : list AttendanceRow)
    : result Dashboard.DashboardData :=
  match records with
  | [] =>
      Ok {| Dashboard.year := year;
            Dashboard.month := month;
            Dashboard.companyMetrics :=
              {| Dashboard.totalEmployees := 0;
                 Dashboard.averageProductivity := 0;
                 Dashboard.totalLeavesTaken := 0;
                 Dashboard.totalWorkedHours := 0;
                 Dashboard.totalExpectedHours := 0 |};
            Dashboard.employeeMetrics := [];
            Dashboard.hasData := false |}
  | _ :: _ =>
      monthlyExpectedHours <- calculateMonthlyExpectedHours year month ;;
      let employeeMap := fold_left addToEmployeeMap records [] in
      employeeMetrics <-
        mapM (metricsOfEmployee monthlyExpectedHours) (map snd employeeMap) ;;
      let count := inject_Z (Z.of_nat (List.length employeeMetrics)) in
      let totalWorkedHours :=
        fold_left (fun sum emp => double (sum + double (Dashboard.workedHours emp)))
                  employeeMetrics 0%Q in
      let totalLeavesTaken :=
        fold_left (fun sum emp => sum + Dashboard.leavesTaken emp) employeeMetrics 0 in
      let totalExpectedHours := double (monthlyExpectedHours * count) in
      let averageProductivity :=
        if (0 <? List.length employeeMetrics)%nat
        then double (fold_left (fun sum emp =>
                                  double (sum + double (Dashboard.productivityPercentage emp)))
                               employeeMetrics 0%Q / count)
        else 0%Q in
      Ok {| Dashboard.year := year;
            Dashboard.month := month;
            Dashboard.companyMetrics :=
              {| Dashboard.totalEmployees := Z.of_nat (List.length employeeMetrics);
                 Dashboard.averageProductivity :=
                   inject_Z (Math_round (double (averageProductivity * 10))) / 10;
                 Dashboard.totalLeavesTaken := totalLeavesTaken;
                 Dashboard.totalWorkedHours :=
                   inject_Z (Math_round (double (totalWorkedHours * 100))) / 100;
                 Dashboard.totalExpectedHours :=
                   inject_Z (Math_round (double (totalExpectedHours * 100))) / 100 |};
            Dashboard.employeeMetrics := employeeMetrics;
            Dashboard.hasData := true |}
  end.

(** The rows of an employee, and the days of absence among rows. *)
Definition rowsOf (id : string) (records : list AttendanceRow) : list AttendanceRow :=
  filter (fun r => String.eqb (employeeId (attendance r)) id) records.

Definition absences (records : list AttendanceRow) : Z :=
  Z.of_nat (List.length (filter (fun r => isABSENT (status (attendance r))) records)).

(** The hours of rows as the loop of [getData] adds them: those of the first
    row as they are, those of each following row by an addition. *)
Definition hoursOf (records : list AttendanceRow) : Q :=
  match map (fun r => workedHours (attendance r)) records with
  | [] => 0%Q
  | x :: rest => fold_left (fun sum y => double (sum + y)) rest x
  end.


(** [employeeMap] holds the totals of the rows gone through: one entry per
    employee of these rows, with the sum of the hours and the number of
    absences of the rows of that employee. *)
Definition Grouped (employeeMap : list (string * EmployeeTotals))
    (rows : list AttendanceRow) : Prop :=
  NoDup (map fst employeeMap) /\
  (forall k v, In (k, v) employeeMap ->
     emp_id v = k /\
     In k (map (fun r => employeeId (attendance r)) rows) /\
     emp_workedHours v = hoursOf (rowsOf k rows) /\
     emp_leavesTaken v = absences (rowsOf k rows)) /\
  (forall r, In r rows -> In (employeeId (attendance r)) (map fst employeeMap)) /\
  fold_right Z.add 0 (map (fun kv => emp_leavesTaken (snd kv)) employeeMap)
  = absences rows.

(** Rows of two employees, by date: both at work on 2 January 2024, the one
    absent and the other at work on 3 January. *)
Definition rowsOfJanuary : list AttendanceRow :=
  [ {| attendance := {| employeeId := "507f1f77bcf86cd799439011";
                        date := newDate 2024 0 2;
                        inTime := Some "09:00"%string;
                        outTime := Some "17:30"%string;
                        workedHours := 8.5%Q;
                        status := PRESENT |};
       employee_name := "John Doe" |};
    {| attendance := {| employeeId := "507f1f77bcf86cd799439012";
                        date := newDate 2024 0 2;
                        inTime := Some "09:10"%string;
                        outTime := Some "17:30"%string;
                        workedHours := 8.33%Q;
                        status := PRESENT |};
       employee_name := "Jane Roe" |};
    {| attendance := {| employeeId := "507f1f77bcf86cd799439011";
                        date := newDate 2024 0 3;
                        inTime := None;
                        outTime := None;
                        workedHours := 0%Q;
                        status := ABSENT |};
       employee_name := "John Doe" |};
    {| attendance := {| employeeId := "507f1f77bcf86cd799439012";
                        date := newDate 2024 0 3;
                        inTime := Some "08:45"%string;
                        outTime := Some "17:30"%string;
                        workedHours := 8.75%Q;
                        status := PRESENT |};
       employee_name := "Jane Roe" |} ].


(** ** The upload route: what it checks before the engine runs *)

(** The errors of the route, with the text they interpolate. *)
Inductive UploadError : Type :=
| InvalidFileType (filename : string)
| InvalidDateObject
| InvalidSerialDate (excelDate : Q)
| TimeOutOfRange (trimmed : string)
| InvalidTimeFormat (trimmed : string).

(** The first is a [FileValidationError], the others are
    [DataValidationError]s. *)
Inductive outcome (A : Type) : Type :=
| Returned (a : A)
| Thrown (e : UploadError).

Arguments Returned {A} a.
Arguments Thrown {A} e.

(** [String.prototype.toLowerCase], on the 8-bit code units: the letters A
    to Z and the capitals of Latin-1. *)
Definition toLowerChar (c : ascii) : ascii :=
  let n := code c in
  if ((65 <=? n) && (n <=? 90) || (192 <=? n) && (n <=? 222) && negb (n =? 215))%N
  then ascii_of_N (n + 32) else c.

Definition toLowerCase (s : string) : string :=
  string_of_list_ascii (map toLowerChar (list_ascii_of_string s)).

(** [String.prototype.toUpperCase]: the letters a to z and the small
    letters of Latin-1; the sharp s becomes SS.  The capitals of the micro
    sign and of y with diaeresis have no 8-bit code unit and are outside the
    model. *)
Definition toUpperChars (c : ascii) : list ascii :=
  let n := code c in
  if (n =? 223)%N then ["S"; "S"]%char
  else if ((97 <=? n) && (n <=? 122) || (224 <=? n) && (n <=? 254) && negb (n =? 247))%N
       then [ascii_of_N (n - 32)] else [c].

Definition toUpperCase (s : string) : string :=
  string_of_list_ascii (flat_map toUpperChars (list_ascii_of_string s)).

(** [String.prototype.endsWith] *)
Definition endsWith (s searchString : string) : bool :=
  let n := String.length s in
  let k := String.length searchString in
  (k <=? n)%nat
  && String.eqb (string_of_list_ascii (skipn (n - k) (list_ascii_of_string s))) searchString.

Definition ALLOWED_EXTENSIONS : list string := [".xlsx"; ".xls"]%string.

(** The test of the upload form. *)
Definition isValidFileExtension (filename : string) : bool :=
  let lowerFilename := toLowerCase filename in
  existsb (fun ext => endsWith lowerFilename ext) ALLOWED_EXTENSIONS.

(** The test of the route. *)
Definition validateFileExtension (filename : string) : outcome bool :=
  let validExtensions := [".xlsx"; ".xls"]%string in
  let lowerFilename := toLowerCase filename in
  let isValid := existsb (fun ext => endsWith lowerFilename ext) validExtensions in
  if negb isValid then Thrown (InvalidFileType filename) else Returned true.

(** Patterns with the star of a set of characters, for
    [/^(\d{1,2}):(\d{2})\s*(AM|PM)$/i].  Under the flag [i] a letter of the
    pattern stands for the set of its two cases. *)
Inductive pattern : Type :=
| OneOf (set : ascii -> bool)
| Seq (p1 p2 : pattern)
| Or (p1 p2 : pattern)
| Maybe (p : pattern)
| Many (set : ascii -> bool)
| Capture (i : nat) (p : pattern).

(** The backtracking matcher of these patterns, like [run]; the star is
    greedy: it takes a character of the set as long as the rest of the
    pattern then matches, and gives it back otherwise. *)
Fixpoint exec (p : pattern) (s : list ascii) (caps : captures)
    (k : list ascii -> captures -> option captures) : option captures :=
  match p with
  | OneOf set =>
      match s with
      | c :: s' => if set c then k s' caps else None
      | [] => None
      end
  | Seq p1 p2 => exec p1 s caps (fun s1 c1 => exec p2 s1 c1 k)
  | Or p1 p2 =>
      match exec p1 s caps k with
      | Some c => Some c
      | None => exec p2 s caps k
      end
  | Maybe p1 =>
      match exec p1 s caps k with
      | Some c => Some c
      | None => k s caps
      end
  | Many set =>
      (fix many (s : list ascii) : option captures :=
         match s with
         | c :: s' =>
             if set c then
               match many s' with
               | Some r => Some r
               | None => k s caps
               end
             else k s caps
         | [] => k s caps
         end) s
  | Capture i p1 =>
      exec p1 s caps
        (fun s1 c1 => k s1 ((i, firstn (List.length s - List.length s1) s) :: c1))
  end.

(** [str.match(/^p$/)] *)
Definition patternMatch (p : pattern) (s : string) : option captures :=
  exec p (list_ascii_of_string s) [] atEnd.

Definition letter (upper lower : ascii) : pattern :=
  OneOf (fun c => Ascii.eqb c upper || Ascii.eqb c lower).

(** [/^(\d{1,2}):(\d{2})\s*(AM|PM)$/i] *)
Definition AM_PM_REGEX : pattern :=
  Seq (Capture 1 (Seq (OneOf isDigit) (Maybe (OneOf isDigit))))
      (Seq (OneOf (Ascii.eqb ":"))
           (Seq (Capture 2 (Seq (OneOf isDigit) (OneOf isDigit)))
                (Seq (Many isWhiteSpace)
                     (Capture 3 (Or (Seq (letter "A" "a") (letter "M" "m"))
                                    (Seq (letter "P" "p") (letter "M" "m"))))))).

(** [/^(\d{1,2}):(\d{2})$/] *)
Definition HOUR_MINUTE_REGEX : regex :=
  Cat (Group 1 (Cat (Class "0" "9") (Opt (Class "0" "9"))))
      (Cat (Lit ":")
           (Group 2 (Cat (Class "0" "9") (Class "0" "9")))).

(** A cell of the time columns: a string or a number. *)
Inductive TimeValue : Type :=
| TimeString (s : string)
| TimeNumber (x : Q).

(** [normalizeTimeString].  The groups of a match are runs of digits and a
    period, so that the [parseInt]s give numbers; the model writes the [NaN]
    they cannot give. *)
Definition normalizeTimeString (timeValue : TimeValue) : outcome string :=
  match timeValue with
  | TimeString timeValue =>
      let trimmed := trim timeValue in
      match patternMatch AM_PM_REGEX trimmed with
      | Some amPmMatch =>
          match option_map parseInt (capture 1 amPmMatch),
                capture 2 amPmMatch, capture 3 amPmMatch with
          | Some (Some hours), Some minutes, Some period =>
              let period := toUpperCase (string_of_list_ascii period) in
              let hours :=
                if String.eqb period "PM" && negb (hours =? 12) then hours + 12
                else if String.eqb period "AM" && (hours =? 12) then 0
                else hours in
              Returned (padStart (Number_toString hours) 2 "0" ++ ":"
                        ++ string_of_list_ascii minutes)%string
          | _, _, _ => Returned "NaN"%string
          end
      | None =>
          match regexMatch HOUR_MINUTE_REGEX trimmed with
          | Some timeMatch =>
              match option_map parseInt (capture 1 timeMatch),
                    capture 2 timeMatch with
              | Some (Some hours), Some minutes =>
                  match parseInt minutes with
                  | Some minute =>
                      if (hours <? 0) || (hours >? 23) || (minute <? 0) || (minute >? 59)
                      then Thrown (TimeOutOfRange trimmed)
                      else Returned (padStart (Number_toString hours) 2 "0" ++ ":"
                                     ++ string_of_list_ascii minutes)%string
                  | None => Returned "NaN"%string
                  end
              | _, _ => Returned "NaN"%string
              end
          | None => Thrown (InvalidTimeFormat trimmed)
          end
      end
  | TimeNumber timeValue =>
      let totalMinutes := Math_round (double (double (timeValue * 24) * 60)) in
      let hours := totalMinutes / 60 in
      let minutes := Z.rem totalMinutes 60 in
      Returned (padStart (Number_toString hours) 2 "0" ++ ":"
                ++ padStart (Number_toString minutes) 2 "0")%string
  end.

(** What is checked of each writing of a time of day: [normalizeTimeString]
    returns it with the hour on two digits. *)
Definition checkNormalized (h m : Z) (l : list ascii) : bool :=
  match normalizeTimeString (TimeString (string_of_list_ascii l)) with
  | Returned t => String.eqb t (string_of_list_ascii (twoDigits h ++ ":"%char :: twoDigits m))
  | Thrown _ => false
  end.


(** [l] writes a time of the 12-hour clock: the hour on one or two digits,
    a colon, the minute on two digits, any white space, and AM or PM in
    either case. *)
Definition Writes12Hour (l : list ascii) (h m : Z) (pm : bool) : Prop :=
  exists hour ws p1 p2,
    (hour = twoDigits h \/ (h <= 9 /\ hour = [digitChar h])) /\
    Forall (fun c => isWhiteSpace c = true) ws /\
    (if pm then p1 = "P"%char \/ p1 = "p"%char else p1 = "A"%char \/ p1 = "a"%char) /\
    (p2 = "M"%char \/ p2 = "m"%char) /\
    l = hour ++ ":"%char :: twoDigits m ++ ws ++ [p1; p2].

(** The hour of the 24-hour clock that the AM/PM branch computes. *)
Definition to24Hour (h : Z) (pm : bool) : Z :=
  if pm then (if h =? 12 then h else h + 12)
  else (if h =? 12 then 0 else h).

Definition checkPad2 (n : Z) : bool :=
  String.eqb (padStart (Number_toString n) 2 "0") (string_of_list_ascii (twoDigits n)).

Definition checkPad3 (n : Z) : bool :=
  String.eqb (padStart (Number_toString n) 2 "0")
             (string_of_list_ascii
                [digitChar 1; digitChar (n / 10 mod 10); digitChar (n mod 10)]).


(** ** The upload route: from the rows of the file to the records *)

(** A row of the file after [parseExcelFile]; its date has been checked by
    [parseExcelDate] and is given by its time value. *)
Record NormalizedAttendanceRecord : Type := {
  norm_employeeName : string;
  norm_date : Z;
  norm_inTime : string;
  norm_outTime : string
}.

(** One turn of the loop that groups the rows by employee name:
    [existing = recordsByEmployee.get(name) || []; existing.push(record);
    recordsByEmployee.set(name, existing)]. *)
Definition addToRecordsByEmployee
    (recordsByEmployee : list (string * list NormalizedAttendanceRecord))
    (record : NormalizedAttendanceRecord)
    : list (string * list NormalizedAttendanceRecord) :=
  let existing :=
    match Map_get recordsByEmployee (norm_employeeName record) with
    | Some records => records
    | None => []
    end in
  Map_set recordsByEmployee (norm_employeeName record) (existing ++ [record]).

(** The rows of one employee through the engine, under the id that the
    database gave to the name. *)
Definition processEmployee (employeeMap : string -> string) (targetYear targetMonth : Z)
    (entry : string * list NormalizedAttendanceRecord)
    : result (list ProcessedAttendanceRecord) :=
  let (employeeName, records) := entry in
  let employeeId := employeeMap employeeName in
  let rawRecords :=
    map (fun record => {| raw_employeeId := employeeId;
                          raw_date := DateAt (norm_date record);
                          raw_inTime := norm_inTime record;
                          raw_outTime := norm_outTime record |}) records in
  processMonthlyAttendance targetYear targetMonth rawRecords.

(** Steps 3 and 4C of [POST]: the month of the first row is the target, the
    rows are grouped by employee name, and the records of every employee are
    put one after the other.  [employeeMap] is the id of each name, as the
    database gives it. *)
Definition allProcessedRecords (employeeMap : string -> string)
    (firstRecord : NormalizedAttendanceRecord) (others : list NormalizedAttendanceRecord)
    : result (list ProcessedAttendanceRecord) :=
  let normalizedRecords := firstRecord :: others in
  let firstDate := norm_date firstRecord in
  let targetYear := YearFromDay (Day firstDate) in
  let targetMonth := MonthFromDay (Day firstDate) + 1 in
  let recordsByEmployee := fold_left addToRecordsByEmployee normalizedRecords [] in
  processed <- mapM (processEmployee employeeMap targetYear targetMonth) recordsByEmployee ;;
  Ok (List.concat processed).

(** [recordsByEmployee] holds the rows gone through: one entry per name,
    with the rows of that name, which are not none. *)
Definition GroupedByName
    (recordsByEmployee : list (string * list NormalizedAttendanceRecord))
    (rows : list NormalizedAttendanceRecord) : Prop :=
  NoDup (map fst recordsByEmployee) /\
  (forall k v, In (k, v) recordsByEmployee ->
     v <> [] /\ In k (map norm_employeeName rows) /\
     forall r, In r v -> norm_employeeName r = k) /\
  (forall r, In r rows -> In (norm_employeeName r) (map fst recordsByEmployee)).

(** Two rows of two employees, of 2 January and of 2 February 2024. *)
Definition rowOfJohn : NormalizedAttendanceRecord :=
  {| norm_employeeName := "John Doe"; norm_date := 1704153600000;
     norm_inTime := "09:00"; norm_outTime := "17:30" |}.

Definition rowOfJane : NormalizedAttendanceRecord :=
  {| norm_employeeName := "Jane Roe"; norm_date := 1706832000000;
     norm_inTime := "10:00"; norm_outTime := "18:30" |}.


(** ** The upload route: the date of a row *)

(** [new Date(value)] on a number: the time value is clipped and its
    fraction dropped. *)
Definition Date_ofTimeValue (value : Q) : Date :=
  if Qle_bool (Qabs value) 8640000000000000
  then DateAt (if Qle_bool 0 value then Qfloor value else Qceiling value)
  else InvalidDate.

(** A cell of the date column that is a [Date] object or a number. *)
Inductive ExcelDate : Type :=
| ExcelDateObject (d : Date)
| ExcelSerial (serial : Q).

(** [parseExcelDate] on these two kinds of cell.  The third kind, a string,
    goes through the parser of [new Date(string)], which the language leaves
    to the implementation. *)
Definition parseExcelDate (excelDate : ExcelDate) : outcome Date :=
  match excelDate with
  | ExcelDateObject d =>
      match getTime d with
      | None => Thrown InvalidDateObject
      | Some _ => Returned d
      end
  | ExcelSerial serial =>
      let excelEpoch := newDate 1899 11 30 in
      let milliseconds := (serial * 24 * 60 * 60 * 1000)%Q in
      let date :=
        match getTime excelEpoch with
        | Some epoch => Date_ofTimeValue (inject_Z epoch + milliseconds)
        | None => InvalidDate
        end in
      match getTime date with
      | None => Thrown (InvalidSerialDate serial)
      | Some _ => Returned date
      end
  end.

(** * Properties *)

(** ** The error monad *)

Lemma bind_Ok {A B : Type} (r : result A) (k : A -> result B) (b : B) :
  bind r k = Ok b -> exists a, r = Ok a /\ k a = Ok b.
Proof. destruct r as [a|e]; simpl; [eauto | discriminate]. Qed.

Lemma bind_Throw {A B : Type} (r : result A) (k : A -> result B) (e : Error) :
  bind r k = Throw e -> r = Throw e \/ exists a, r = Ok a /\ k a = Throw e.
Proof. destruct r as [a|e']; simpl; [eauto | intros [= ->]; auto]. Qed.

(** ** The matcher against the language of the pattern *)

Lemma run_sound (r : regex) :
  forall s caps k out,
    run r s caps k = Some out ->
    exists s1 s2 caps', s = s1 ++ s2 /\ Matches r s1 /\ k s2 caps' = Some out.
Proof.
  induction r as [lo hi | r1 IH1 r2 IH2 | r1 IH1 r2 IH2 | r IH | i r IH];
    intros s caps k out H; simpl in H.
  - destruct s as [|c s']; [discriminate|].
    destruct (inClass lo hi c) eqn:Hc; [|discriminate].
    exists [c], s', caps. repeat split; auto using MClass.
  - apply IH1 in H as (s1 & s2 & c1 & -> & M1 & H).
    apply IH2 in H as (s3 & s4 & c2 & -> & M2 & H).
    exists (s1 ++ s3), s4, c2. rewrite <- app_assoc. auto using MCat.
  - destruct (run r1 s caps k) eqn:H1.
    + injection H as ->.
      apply IH1 in H1 as (s1 & s2 & c1 & -> & M1 & H).
      exists s1, s2, c1. auto using MAltL.
    + apply IH2 in H as (s1 & s2 & c1 & -> & M1 & H).
      exists s1, s2, c1. auto using MAltR.
  - destruct (run r s caps k) eqn:H1.
    + injection H as ->.
      apply IH in H1 as (s1 & s2 & c1 & -> & M1 & H).
      exists s1, s2, c1. auto using MOptSome.
    + exists [], s, caps. auto using MOptNone.
  - apply IH in H as (s1 & s2 & c1 & -> & M1 & H).
    eexists s1, s2, _. repeat split; eauto using MGroup.
Qed.

Lemma run_complete (r : regex) (s1 : list ascii) :
  Matches r s1 ->
  forall s2 caps k,
    (forall caps', k s2 caps' <> None) -> run r (s1 ++ s2) caps k <> None.
Proof.
  induction 1 as [lo hi c Hc | r1 r2 s1 s3 _ IH1 _ IH2 | r1 r2 s _ IH
                 | r1 r2 s _ IH | r s _ IH | r | i r s _ IH];
    intros s2 caps k Hk; simpl.
  - rewrite Hc. apply Hk.
  - rewrite <- app_assoc. apply IH1. intros c1. apply IH2, Hk.
  - specialize (IH s2 caps k Hk). destruct (run r1 (s ++ s2) caps k); congruence.
  - destruct (run r1 (s ++ s2) caps k); [congruence|]. apply IH, Hk.
  - specialize (IH s2 caps k Hk). destruct (run r (s ++ s2) caps k); congruence.
  - destruct (run r s2 caps k); [congruence|]. apply Hk.
  - apply IH. intros c1. apply Hk.
Qed.

(** The matcher decides the language: [test] answers [true] exactly on the
    strings of the pattern. *)
Lemma regexTest_Matches (r : regex) (s : string) :
  regexTest r s = true <-> Matches r (list_ascii_of_string s).
Proof.
  unfold regexTest, regexMatch. split.
  - destruct (run r _ [] atEnd) as [out|] eqn:H; [intros _|discriminate].
    apply run_sound in H as (s1 & s2 & caps' & E & M & H).
    destruct s2; [|discriminate]. rewrite app_nil_r in E. now rewrite E.
  - intros M.
    pose proof (run_complete r _ M [] [] atEnd) as H. rewrite app_nil_r in H.
    destruct (run r _ [] atEnd); [reflexivity|].
    exfalso. apply H; [discriminate|reflexivity].
Qed.

(** Let [lia] see through [/] and [mod] by a constant. *)
Ltac Zify.zify_post_hook ::= Z.to_euclidean_division_equations.

(** ** Finite ranges, for the facts settled by running the code *)

Lemma In_Zrange (lo : Z) (n : nat) (x : Z) :
  lo <= x < lo + Z.of_nat n -> In x (Zrange lo n).
Proof.
  intros H. unfold Zrange. apply in_map_iff.
  exists (Z.to_nat (x - lo)). split; [lia|]. apply in_seq. lia.
Qed.

Lemma Q_eqb_eq (a b : Q) : Q_eqb a b = true -> a = b.
Proof.
  destruct a as [n d], b as [n' d']. unfold Q_eqb. simpl.
  intros H. apply andb_true_iff in H as [H1 H2].
  apply Z.eqb_eq in H1. apply Pos.eqb_eq in H2. congruence.
Qed.

(** ** The language of the time pattern *)

Lemma inClass_bounds (lo hi c : ascii) :
  inClass lo hi c = true -> (code lo <= code c <= code hi)%N.
Proof.
  unfold inClass. intros H. apply andb_true_iff in H as [H1 H2].
  apply N.leb_le in H1. apply N.leb_le in H2. auto.
Qed.

Lemma digitChar_code (c : ascii) :
  (48 <= code c)%N -> digitChar (Z.of_N (code c) - 48) = c.
Proof.
  intros H. unfold digitChar.
  replace (Z.to_N (48 + (Z.of_N (code c) - 48))) with (code c) by lia.
  apply ascii_N_embedding.
Qed.

Lemma inClass_single (a c : ascii) : inClass a a c = true -> c = a.
Proof.
  intros H. apply inClass_bounds in H.
  rewrite <- (ascii_N_embedding c), <- (ascii_N_embedding a).
  f_equal. unfold code in H. lia.
Qed.

Lemma twoDigits_chars (c1 c2 : ascii) :
  (48 <= code c1)%N -> (48 <= code c2 <= 57)%N ->
  twoDigits (10 * (Z.of_N (code c1) - 48) + (Z.of_N (code c2) - 48)) = [c1; c2].
Proof.
  intros H1 H2. unfold twoDigits.
  replace ((10 * (Z.of_N (code c1) - 48) + (Z.of_N (code c2) - 48)) / 10)
    with (Z.of_N (code c1) - 48) by lia.
  replace ((10 * (Z.of_N (code c1) - 48) + (Z.of_N (code c2) - 48)) mod 10)
    with (Z.of_N (code c2) - 48) by lia.
  now rewrite !digitChar_code by lia.
Qed.

Ltac invert_matches :=
  repeat match goal with
         | H : Matches (Cat _ _) _ |- _ => inversion H; subst; clear H
         | H : Matches (Alt _ _) _ |- _ => inversion H; subst; clear H
         | H : Matches (Opt _) _ |- _ => inversion H; subst; clear H
         | H : Matches (Group _ _) _ |- _ => inversion H; subst; clear H
         | H : Matches (Lit _) _ |- _ => unfold Lit in H
         | H : Matches (Class _ _) _ |- _ => inversion H; subst; clear H
         end.

(** Every string of the pattern writes a time of day. *)
Lemma Matches_WritesTime (l : list ascii) :
  Matches TIME_24HR_REGEX l -> exists h m, WritesTime l h m.
Proof.
  unfold TIME_24HR_REGEX. intros M. invert_matches;
    repeat match goal with
           | H : inClass ?a ?a _ = true |- _ => apply inClass_single in H; subst
           | H : inClass _ _ _ = true |- _ => apply inClass_bounds in H
           end;
    unfold code in *; simpl in *.
  - (* two digits, the first 0 or 1 *)
    match goal with
    | |- context [ [?c1; ?c2; ":"%char; ?c3; ?c4] ] =>
        exists (10 * (Z.of_N (code c1) - 48) + (Z.of_N (code c2) - 48)),
               (10 * (Z.of_N (code c3) - 48) + (Z.of_N (code c4) - 48))
    end.
    unfold WritesTime, code. repeat split; try lia.
    left. rewrite !twoDigits_chars by (unfold code; lia). reflexivity.
  - (* one digit *)
    match goal with
    | |- context [ [?c2; ":"%char; ?c3; ?c4] ] =>
        exists (Z.of_N (code c2) - 48),
               (10 * (Z.of_N (code c3) - 48) + (Z.of_N (code c4) - 48))
    end.
    unfold WritesTime, code. repeat split; try lia.
    right. split; [lia|].
    rewrite twoDigits_chars by (unfold code; lia).
    now rewrite digitChar_code by (unfold code; lia).
  - (* 20 to 23 *)
    match goal with
    | |- context [ ["2"%char; ?c2; ":"%char; ?c3; ?c4] ] =>
        exists (10 * (Z.of_N (code "2"%char) - 48) + (Z.of_N (code c2) - 48)),
               (10 * (Z.of_N (code c3) - 48) + (Z.of_N (code c4) - 48))
    end.
    change (code "2"%char) with 50%N.
    unfold WritesTime, code. repeat split; try lia.
    left. change 50%N with (code "2"%char).
    rewrite !twoDigits_chars by (unfold code; try change (N_of_ascii "2") with 50%N; lia).
    reflexivity.
Qed.

(** ** [parseTime] *)

Lemma parseTime_unfold (s : string) :
  parseTime s =
  if (String.length (trim s) =? 0)%nat then
    Throw (InvalidTimeFormatError s "Time must be a non-empty string.")
  else parseTrimmed (trim s).
Proof. reflexivity. Qed.

Lemma writings_checked :
  forallb (fun h => forallb (fun m => forallb (checkWriting h m) (writings h m))
                            (Zrange 0 60))
          (Zrange 0 24) = true.
Proof. vm_compute. reflexivity. Qed.

Lemma WritesTime_checked (l : list ascii) (h m : Z) :
  WritesTime l h m -> checkWriting h m l = true.
Proof.
  intros (Hh & Hm & Hl).
  pose proof writings_checked as H.
  rewrite forallb_forall in H. specialize (H h (In_Zrange 0 24 h ltac:(lia))).
  rewrite forallb_forall in H. specialize (H m (In_Zrange 0 60 m ltac:(lia))).
  rewrite forallb_forall in H. apply H. unfold writings.
  destruct Hl as [-> | [H9 ->]]; [now left|].
  right. apply Z.leb_le in H9. rewrite H9. now left.
Qed.

(** A written time is not touched by [trim], passes the format test and
    parses to its hour plus a sixtieth of its minute. *)
Lemma WritesTime_parse (t : string) (h m : Z) :
  WritesTime (list_ascii_of_string t) h m ->
  trim t = t /\ isValidTimeFormat t = true /\
  parseTime t = Ok (inject_Z h + inject_Z m / 60)%Q.
Proof.
  intros W. apply WritesTime_checked in W. unfold checkWriting in W.
  rewrite string_of_list_ascii_of_string in W.
  apply andb_true_iff in W as [W Hp]. apply andb_true_iff in W as [W Hv].
  apply andb_true_iff in W as [Hn Ht]. apply String.eqb_eq in Ht.
  repeat split; auto.
  rewrite parseTime_unfold, Ht.
  destruct (String.length t =? 0)%nat; [discriminate|].
  destruct (parseTrimmed t) as [v|e]; [|discriminate].
  now apply Q_eqb_eq in Hp as ->.
Qed.

Lemma WritesTime_Matches (l : list ascii) (h m : Z) :
  WritesTime l h m -> Matches TIME_24HR_REGEX l.
Proof.
  intros W. rewrite <- (list_ascii_of_string_of_list_ascii l) in *.
  apply WritesTime_parse in W as (_ & W & _). now apply regexTest_Matches.
Qed.

(** The language of the pattern is the set of written times: a one- or
    two-digit hour up to 23, a colon, a two-digit minute up to 59. *)
Lemma Matches_TIME_iff (l : list ascii) :
  Matches TIME_24HR_REGEX l <-> exists h m, WritesTime l h m.
Proof.
  split; [apply Matches_WritesTime|]. intros (h & m & W). eapply WritesTime_Matches, W.
Qed.

Lemma trim_trimmed (s : string) :
  Matches TIME_24HR_REGEX (list_ascii_of_string s) -> trim s = s.
Proof.
  intros M. apply Matches_WritesTime in M as (h & m & W).
  now apply WritesTime_parse in W.
Qed.


Lemma parseTime_trim (s : string) (v : Q) :
  parseTime s = Ok v -> parseTime (trim s) = Ok v /\ AcceptedTime s.
Proof.
  rewrite parseTime_unfold. intros H.
  destruct (String.length (trim s) =? 0)%nat eqn:Hn; [discriminate|].
  assert (A : AcceptedTime s).
  { unfold parseTrimmed in H.
    destruct (isValidTimeFormat (trim s)) eqn:Hv; [|discriminate].
    now apply regexTest_Matches. }
  split; [|exact A].
  rewrite parseTime_unfold, (trim_trimmed _ A), Hn. exact H.
Qed.

Lemma AcceptedTime_parseTime (s : string) :
  AcceptedTime s ->
  exists h m, WritesTime (list_ascii_of_string (trim s)) h m /\
              parseTime s = Ok (inject_Z h + inject_Z m / 60)%Q.
Proof.
  intros A. destruct (Matches_WritesTime _ A) as (h & m & W).
  exists h, m. split; [exact W|].
  destruct (WritesTime_parse _ _ _ W) as (Ht & _ & Hp).
  rewrite parseTime_unfold in Hp |- *. rewrite Ht in Hp.
  destruct (String.length (trim s) =? 0)%nat; [discriminate|exact Hp].
Qed.

Lemma parseTime_Throw (s : string) (e : Error) :
  parseTime s = Throw e -> exists timeString details, e = InvalidTimeFormatError timeString details.
Proof.
  unfold parseTime. intros H.
  repeat match type of H with
         | (if ?b then _ else _) = _ => destruct b
         | match ?x with _ => _ end = _ => destruct x
         end;
    try discriminate; injection H as <-; eauto.
Qed.

Lemma AcceptedTime_iff_valid (s : string) :
  AcceptedTime s <-> isValidTimeFormat (trim s) = true.
Proof. unfold AcceptedTime, isValidTimeFormat. symmetry. apply regexTest_Matches. Qed.

(** ** Worked hours *)

Local Open Scope Q_scope.

Lemma Qltb_false (x y : Q) : Qltb x y = false <-> y <= x.
Proof.
  unfold Qltb. rewrite negb_false_iff. apply Qle_bool_iff.
Qed.

Lemma Qltb_true (x y : Q) : Qltb x y = true <-> x < y.
Proof.
  unfold Qltb. rewrite negb_true_iff. split; intros H.
  - apply Qnot_le_lt. intros C. apply Qle_bool_iff in C. congruence.
  - destruct (Qle_bool y x) eqn:E; [|reflexivity].
    apply Qle_bool_iff in E. exfalso. eapply Qlt_not_le; eauto.
Qed.

(** Division by a constant, as the multiplication [lra] understands. *)
Ltac qdiv_const :=
  repeat match goal with
         | |- context [?x / (Zpos ?d # 1)] =>
             change (x / (Zpos d # 1)) with (x * (1 # d)) in *
         | H : context [?x / (Zpos ?d # 1)] |- _ =>
             change (x / (Zpos d # 1)) with (x * (1 # d)) in *
         end.

Lemma time_value_bounds (h m : Z) :
  (0 <= h <= 23)%Z -> (0 <= m <= 59)%Z ->
  0 <= inject_Z h + inject_Z m / 60 /\ inject_Z h + inject_Z m / 60 < 24.
Proof.
  intros [H1 H2] [H3 H4].
  rewrite Zle_Qle in H1, H2, H3, H4.
  change (inject_Z 0) with 0 in *. change (inject_Z 23) with 23 in *.
  change (inject_Z 59) with 59 in *.
  qdiv_const. split; lra.
Qed.

Lemma elapsed_bounds (a b : Q) :
  0 <= a < 24 -> 0 <= b < 24 -> 0 <= elapsed a b <= 24.
Proof.
  intros Ha Hb. unfold elapsed.
  destruct (Qle_bool a b) eqn:E.
  - apply Qle_bool_iff in E. split; lra.
  - assert (b < a).
    { apply Qnot_le_lt. intros C. apply Qle_bool_iff in C. congruence. }
    split; lra.
Qed.

Lemma elapsed_cases (a b : Q) :
  (a <= b -> elapsed a b = b - a) /\ (b < a -> elapsed a b = 24 - a + b).
Proof.
  unfold elapsed. split; intros H.
  - apply Qle_bool_iff in H. now rewrite H.
  - destruct (Qle_bool a b) eqn:E; [|reflexivity].
    apply Qle_bool_iff in E. exfalso. eapply Qlt_not_le; eauto.
Qed.

(** [Math.round] of a value between two integers stays between them. *)
Lemma Math_round_bounds (x : Q) (lo hi : Z) :
  inject_Z lo <= x <= inject_Z hi -> (lo <= Math_round x <= hi)%Z.
Proof.
  intros [H1 H2]. unfold Math_round.
  pose proof (Qfloor_le (x + (1 # 2))) as F1.
  pose proof (Qlt_floor (x + (1 # 2))) as F2.
  rewrite inject_Z_plus in F2. change (inject_Z 1) with 1 in F2.
  split.
  - apply Z.lt_succ_r. rewrite Zlt_Qlt. unfold Z.succ.
    rewrite inject_Z_plus. change (inject_Z 1) with 1. lra.
  - apply Z.lt_succ_r. rewrite Zlt_Qlt. unfold Z.succ.
    rewrite inject_Z_plus. change (inject_Z 1) with 1. lra.
Qed.

Lemma round2_bounds (x : Q) :
  0 <= x <= 24 ->
  0 <= inject_Z (Math_round (x * 100)) / 100 <= 24.
Proof.
  intros H.
  assert (B : (0 <= Math_round (x * 100) <= 2400)%Z).
  { apply Math_round_bounds. change (inject_Z 0) with 0.
    change (inject_Z 2400) with 2400. lra. }
  destruct B as [B1 B2]. rewrite Zle_Qle in B1, B2.
  change (inject_Z 0) with 0 in B1. change (inject_Z 2400) with 2400 in B2.
  qdiv_const. lra.
Qed.

(** For a non-negative value, [Math.round] to [decimals] places is rounding
    with ties away from zero. *)
Lemma Math_round_half_away (decimals : nat) (x : Q) :
  0 <= x ->
  inject_Z (Math_round (x * inject_Z (10 ^ Z.of_nat decimals)))
    / inject_Z (10 ^ Z.of_nat decimals)
  = roundHalfAwayFromZero decimals x.
Proof.
  intros H. unfold roundHalfAwayFromZero, Math_round.
  assert (P : 0 <= x * inject_Z (10 ^ Z.of_nat decimals)).
  { apply Qmult_le_0_compat; [exact H|].
    change 0 with (inject_Z 0). rewrite <- Zle_Qle.
    apply Z.pow_nonneg. lia. }
  apply Qle_bool_iff in P. now rewrite P.
Qed.

(** The result of [calculateWorkedHours] on two accepted strings. *)
Lemma calculateWorkedHours_Ok (i o : string) :
  AcceptedTime i -> AcceptedTime o ->
  exists a b,
    parseTime i = Ok a /\ parseTime o = Ok b /\
    0 <= a < 24 /\ 0 <= b < 24 /\
    calculateWorkedHours i o = Ok (inject_Z (Math_round (elapsed a b * 100)) / 100).
Proof.
  intros Ai Ao.
  destruct (AcceptedTime_parseTime i Ai) as (hi & mi & (Hh & Hm & _) & Pi).
  destruct (AcceptedTime_parseTime o Ao) as (ho & mo & (Hh' & Hm' & _) & Po).
  pose proof (time_value_bounds hi mi Hh Hm) as Ba.
  pose proof (time_value_bounds ho mo Hh' Hm') as Bb.
  eexists _, _. repeat split; try eassumption; try tauto.
  unfold calculateWorkedHours. rewrite Pi, Po. cbn [bind]. cbv beta zeta.
  destruct (elapsed_bounds _ _ Ba Bb) as [E1 E2].
  apply Qltb_false in E1, E2. now rewrite E1, E2.
Qed.

(** [calculateWorkedHours] throws nothing but what [parseTime] throws. *)
Lemma calculateWorkedHours_Throw (i o : string) (e : Error) :
  calculateWorkedHours i o = Throw e ->
  exists timeString details, e = InvalidTimeFormatError timeString details.
Proof.
  unfold calculateWorkedHours. intros H.
  apply bind_Throw in H as [H | (a & Pa & H)]; [eapply parseTime_Throw, H|].
  apply bind_Throw in H as [H | (b & Pb & H)]; [eapply parseTime_Throw, H|].
  exfalso.
  destruct (parseTime_trim _ _ Pa) as [_ Ai].
  destruct (parseTime_trim _ _ Pb) as [_ Ao].
  destruct (calculateWorkedHours_Ok i o Ai Ao) as (a' & b' & Pa' & Pb' & _ & _ & R).
  unfold calculateWorkedHours in R. rewrite Pa, Pb in R.
  cbn [bind] in R. cbv beta zeta in R, H. rewrite H in R. discriminate.
Qed.

(** ** Double precision *)

Lemma pow2_pos (k : Z) : 0 < pow2 k.
Proof. apply Qpower_0_lt. reflexivity. Qed.

Lemma pow2_add (a b : Z) : pow2 (a + b) == pow2 a * pow2 b.
Proof. apply Qpower_plus. discriminate. Qed.

Lemma pow2_le (a b : Z) : (a <= b)%Z -> pow2 a <= pow2 b.
Proof. intros H. apply Qpower_le_compat_l; [exact H | discriminate]. Qed.

Lemma pow2_Z (k : Z) : (0 <= k)%Z -> pow2 k == inject_Z (2 ^ k).
Proof.
  intros H. unfold pow2. now rewrite Zpower_Qpower.
Qed.

Lemma pow2_succ (k : Z) : pow2 (k + 1) == 2 * pow2 k.
Proof. rewrite pow2_add. change (pow2 1) with 2. ring. Qed.

Lemma pow2_sub (a b : Z) : pow2 (a - b) * pow2 b == pow2 a.
Proof. rewrite <- pow2_add. now replace (a - b + b)%Z with a by lia. Qed.

(** The binade of a positive number holds it. *)
Lemma binade_spec (x : Q) :
  0 < x -> pow2 (binade x) <= x < pow2 (binade x + 1).
Proof.
  intros Hx. unfold binade.
  set (n := Qnum x). set (d := Z.pos (Qden x)).
  assert (Hn : (0 < n)%Z).
  { unfold n. destruct x as [xn xd]. unfold Qlt in Hx. simpl in *. lia. }
  assert (Hd : (0 < d)%Z) by reflexivity.
  destruct (Z.log2_spec n Hn) as [N1 N2]. destruct (Z.log2_spec d Hd) as [D1 D2].
  set (ln := Z.log2 n) in *. set (ld := Z.log2 d) in *.
  assert (Ln : (0 <= ln)%Z) by apply Z.log2_nonneg.
  assert (Ld : (0 <= ld)%Z) by apply Z.log2_nonneg.
  assert (X : x * inject_Z d == inject_Z n).
  { unfold n, d. destruct x as [xn xd]. unfold Qeq, Qmult, inject_Z. simpl. lia. }
  rewrite Zle_Qle, <- pow2_Z in N1, D1 by assumption.
  rewrite Zlt_Qlt in N2, D2. rewrite Z.pow_succ_r, inject_Z_mult, <- pow2_Z in N2, D2 by assumption.
  change (inject_Z 2) with 2 in N2, D2.
  pose proof (pow2_sub ln ld) as K. set (k := (ln - ld)%Z) in *.
  pose proof (pow2_pos k) as Pk. pose proof (pow2_pos ld) as Pd.
  assert (U : x < 2 * pow2 k).
  { apply Qnot_le_lt. intros C.
    pose proof (Qmult_le_compat_r _ _ (pow2 ld) C (Qlt_le_weak _ _ Pd)) as C1.
    pose proof (Qmult_le_l (pow2 ld) (inject_Z d) x Hx) as [_ C2].
    specialize (C2 D1). lra. }
  assert (L : pow2 k < 2 * x).
  { apply Qnot_le_lt. intros C.
    pose proof (Qmult_le_compat_r _ _ (pow2 ld) C (Qlt_le_weak _ _ Pd)) as C1.
    pose proof (Qmult_lt_l (inject_Z d) (2 * pow2 ld) x Hx) as [_ C2].
    specialize (C2 D2). lra. }
  destruct (Qle_bool (pow2 k) x) eqn:E.
  - apply Qle_bool_iff in E. rewrite pow2_succ. split; [exact E | exact U].
  - assert (x < pow2 k).
    { apply Qnot_le_lt. intros C. apply Qle_bool_iff in C. congruence. }
    replace (k - 1 + 1)%Z with k by lia.
    pose proof (pow2_succ (k - 1)) as S. replace (k - 1 + 1)%Z with k in S by lia.
    split; lra.
Qed.

Lemma binade_unique (x : Q) (k : Z) :
  pow2 k <= x < pow2 (k + 1) -> binade x = k.
Proof.
  intros [H1 H2].
  assert (Hx : 0 < x) by (pose proof (pow2_pos k); lra).
  destruct (binade_spec x Hx) as [B1 B2].
  destruct (Z.lt_trichotomy (binade x) k) as [C | [C | C]]; [|exact C|].
  - pose proof (pow2_le (binade x + 1) k ltac:(lia)). lra.
  - pose proof (pow2_le (k + 1) (binade x) ltac:(lia)). lra.
Qed.

Lemma binade_compat (x y : Q) : 0 < x -> x == y -> binade x = binade y.
Proof.
  intros Hx E. symmetry. apply binade_unique. rewrite <- E. now apply binade_spec.
Qed.

Lemma binade_le (x y : Q) : 0 < x -> x <= y -> (binade x <= binade y)%Z.
Proof.
  intros Hx H. destruct (binade_spec x Hx) as [X1 X2].
  destruct (binade_spec y ltac:(lra)) as [Y1 Y2].
  destruct (Z_le_gt_dec (binade x) (binade y)) as [L | G]; [exact L|].
  pose proof (pow2_le (binade y + 1) (binade x) ltac:(lia)). lra.
Qed.

(** ** Rounding to the nearest integer *)

Lemma roundTiesToEven_cases (x : Q) :
  let f := Qfloor x in
  (x - inject_Z f < 1 # 2 /\ roundTiesToEven x = f) \/
  (1 # 2 < x - inject_Z f /\ roundTiesToEven x = (f + 1)%Z) \/
  (x - inject_Z f == 1 # 2 /\ (roundTiesToEven x = f \/ roundTiesToEven x = (f + 1)%Z)).
Proof.
  intros f. unfold roundTiesToEven. fold f.
  destruct (x - inject_Z f ?= 1 # 2) eqn:C.
  - right. right. split; [now apply Qeq_alt|]. destruct (Z.even f); auto.
  - left. split; [now apply Qlt_alt | reflexivity].
  - right. left. split; [now apply Qgt_alt in C | reflexivity].
Qed.

Lemma roundTiesToEven_near (x : Q) :
  x - (1 # 2) <= inject_Z (roundTiesToEven x) <= x + (1 # 2).
Proof.
  pose proof (Qfloor_le x) as F1. pose proof (Qlt_floor x) as F2.
  rewrite inject_Z_plus in F2. change (inject_Z 1) with 1 in F2.
  destruct (roundTiesToEven_cases x) as [[C ->] | [[C ->] | [C [-> | ->]]]];
    rewrite ?inject_Z_plus; change (inject_Z 1) with 1; split; lra.
Qed.

Lemma roundTiesToEven_compat (x y : Q) : x == y -> roundTiesToEven x = roundTiesToEven y.
Proof.
  intros E. unfold roundTiesToEven. rewrite (Qfloor_comp _ _ E).
  assert (C : (x - inject_Z (Qfloor y) ?= 1 # 2) = (y - inject_Z (Qfloor y) ?= 1 # 2)).
  { apply Qcompare_comp; [now rewrite E | reflexivity]. }
  now rewrite C.
Qed.

Lemma roundTiesToEven_Z (n : Z) : roundTiesToEven (inject_Z n) = n.
Proof.
  unfold roundTiesToEven. rewrite Qfloor_Z.
  destruct (inject_Z n - inject_Z n ?= 1 # 2) eqn:C; [|reflexivity|].
  - exfalso. apply Qeq_alt in C. lra.
  - exfalso. apply Qgt_alt in C. lra.
Qed.

Lemma roundTiesToEven_mono (x y : Q) :
  x <= y -> (roundTiesToEven x <= roundTiesToEven y)%Z.
Proof.
  intros H. pose proof (roundTiesToEven_near x) as [X1 X2].
  pose proof (roundTiesToEven_near y) as [Y1 Y2].
  destruct (Z_le_gt_dec (roundTiesToEven x) (roundTiesToEven y)) as [L | G]; [exact L|].
  exfalso.
  assert (G' : (roundTiesToEven y + 1 <= roundTiesToEven x)%Z) by lia.
  rewrite Zle_Qle, inject_Z_plus in G'. change (inject_Z 1) with 1 in G'.
  assert (E : x == y) by lra.
  apply roundTiesToEven_compat in E. lia.
Qed.

(** ** The rounding of the arithmetic operations *)

Lemma double_nonzero (x : Q) :
  ~ x == 0 ->
  double x = inject_Z (roundTiesToEven (x / pow2 (binade (Qabs x) - 52)))
             * pow2 (binade (Qabs x) - 52).
Proof.
  intros H. unfold double. destruct (Qeq_bool x 0) eqn:E; [|reflexivity].
  apply Qeq_bool_iff in E. contradiction.
Qed.

Lemma double_zero (x : Q) : x == 0 -> double x = 0.
Proof.
  intros H. unfold double. apply Qeq_bool_iff in H. now rewrite H.
Qed.

Lemma Qabs_pos_lt (x : Q) : ~ x == 0 -> 0 < Qabs x.
Proof.
  intros H. destruct (Qlt_le_dec 0 (Qabs x)) as [L | L]; [exact L|].
  exfalso. apply H. pose proof (Qabs_nonneg x). pose proof (Qle_Qabs x).
  pose proof (Qle_Qabs (- x)) as N. rewrite Qabs_opp in N. lra.
Qed.

Lemma double_compat (x y : Q) : x == y -> double x == double y.
Proof.
  intros E. destruct (Qeq_dec x 0) as [Z | N].
  - rewrite (double_zero x Z), (double_zero y); [reflexivity | now rewrite <- E].
  - assert (N' : ~ y == 0) by now rewrite <- E.
    rewrite (double_nonzero x N), (double_nonzero y N').
    assert (B : binade (Qabs x) = binade (Qabs y)).
    { apply binade_compat; [now apply Qabs_pos_lt | now rewrite E]. }
    rewrite B.
    assert (R : x / pow2 (binade (Qabs y) - 52) == y / pow2 (binade (Qabs y) - 52))
      by now rewrite E.
    now rewrite (roundTiesToEven_compat _ _ R).
Qed.

(** The relative error of an operation is at most 2^-53. *)
Lemma double_near (x : Q) :
  Qabs (double x - x) <= Qabs x * (1 # 9007199254740992).
Proof.
  destruct (Qeq_dec x 0) as [Z | N].
  - rewrite (double_zero x Z). rewrite Z. vm_compute. discriminate.
  - rewrite (double_nonzero x N).
    pose proof (Qabs_pos_lt x N) as A.
    destruct (binade_spec _ A) as [B1 _].
    set (b := binade (Qabs x)) in *.
    pose proof (pow2_pos (b - 52)) as U. set (u := pow2 (b - 52)) in *.
    pose proof (pow2_sub b 52) as P. fold u in P.
    assert (P52 : pow2 52 == 4503599627370496) by reflexivity.
    rewrite P52 in P.
    destruct (roundTiesToEven_near (x / u)) as [R1 R2].
    set (m := inject_Z (roundTiesToEven (x / u))) in *.
    assert (X : x / u * u == x) by (field; lra).
    assert (M1 : (x / u - (1 # 2)) * u <= m * u)
      by (apply Qmult_le_compat_r; lra).
    assert (M2 : m * u <= (x / u + (1 # 2)) * u)
      by (apply Qmult_le_compat_r; lra).
    apply Qabs_Qle_condition. set (a := Qabs x) in *.
    split; lra.
Qed.

Lemma double_binade (x : Q) :
  0 < x -> pow2 (binade x) <= double x <= pow2 (binade x + 1).
Proof.
  intros Hx. assert (N : ~ x == 0) by lra.
  rewrite (double_nonzero x N).
  assert (B : binade (Qabs x) = binade x).
  { symmetry. apply binade_compat; [exact Hx|]. symmetry. apply Qabs_pos. lra. }
  rewrite B. destruct (binade_spec x Hx) as [B1 B2].
  set (b := binade x) in *.
  pose proof (pow2_pos (b - 52)) as U. set (u := pow2 (b - 52)) in *.
  pose proof (pow2_sub b 52) as P. fold u in P.
  pose proof (pow2_sub (b + 1) 53) as P'.
  replace (b + 1 - 53)%Z with (b - 52)%Z in P' by lia. fold u in P'.
  assert (P52 : pow2 52 == inject_Z 4503599627370496) by reflexivity.
  assert (P53 : pow2 53 == inject_Z 9007199254740992) by reflexivity.
  rewrite P52 in P. rewrite P53 in P'.
  assert (L : inject_Z 4503599627370496 <= x / u).
  { apply Qle_shift_div_l; [exact U | lra]. }
  assert (H : x / u <= inject_Z 9007199254740992).
  { apply Qle_shift_div_r; [exact U | lra]. }
  apply roundTiesToEven_mono in L, H. rewrite roundTiesToEven_Z in L, H.
  rewrite Zle_Qle in L, H.
  set (m := inject_Z (roundTiesToEven (x / u))) in *.
  split.
  - rewrite <- P, (Qmult_comm u). apply Qmult_le_compat_r; lra.
  - rewrite <- P', (Qmult_comm u). apply Qmult_le_compat_r; lra.
Qed.

Lemma double_nonneg (x : Q) : 0 <= x -> 0 <= double x.
Proof.
  intros H. destruct (Qeq_dec x 0) as [Z | N].
  - rewrite (double_zero x Z). lra.
  - destruct (double_binade x ltac:(lra)) as [L _].
    pose proof (pow2_pos (binade x)). lra.
Qed.

(** Rounding keeps the order of non-negative numbers. *)
Lemma double_mono (x y : Q) : 0 <= x -> x <= y -> double x <= double y.
Proof.
  intros Hx H. destruct (Qeq_dec x 0) as [Z | N].
  - rewrite (double_zero x Z). apply double_nonneg. lra.
  - assert (Px : 0 < x) by lra. assert (Py : 0 < y) by lra.
    pose proof (binade_le x y Px H) as B.
    destruct (Z.eq_dec (binade x) (binade y)) as [E | D].
    + assert (Ny : ~ y == 0) by lra.
      rewrite (double_nonzero x N), (double_nonzero y Ny).
      assert (Bx : binade (Qabs x) = binade x).
      { symmetry. apply binade_compat; [exact Px|]. symmetry. apply Qabs_pos. lra. }
      assert (By : binade (Qabs y) = binade y).
      { symmetry. apply binade_compat; [exact Py|]. symmetry. apply Qabs_pos. lra. }
      rewrite Bx, By, E.
      pose proof (pow2_pos (binade y - 52)) as U. set (u := pow2 (binade y - 52)) in *.
      apply Qmult_le_compat_r; [|lra]. rewrite <- Zle_Qle.
      apply roundTiesToEven_mono. apply Qmult_le_compat_r; [exact H|].
      apply Qlt_le_weak, Qinv_lt_0_compat, U.
    + destruct (double_binade x Px) as [_ X]. destruct (double_binade y Py) as [Y _].
      pose proof (pow2_le (binade x + 1) (binade y) ltac:(lia)). lra.
Qed.

(** A number of at most 53 significant bits is returned as it is. *)
Lemma double_exact (x : Q) (m j : Z) :
  (Z.abs m < 2 ^ 53)%Z -> x == inject_Z m * pow2 j -> double x == x.
Proof.
  intros Hm E. destruct (Qeq_dec x 0) as [Z | N].
  - rewrite (double_zero x Z). now rewrite Z.
  - rewrite (double_nonzero x N).
    pose proof (Qabs_pos_lt x N) as A.
    destruct (binade_spec _ A) as [B1 B2].
    set (b := binade (Qabs x)) in *.
    pose proof (pow2_pos j) as Pj.
    assert (Ax : Qabs x == inject_Z (Z.abs m) * pow2 j).
    { rewrite E, Qabs_Qmult, (Qabs_pos (pow2 j)) by lra.
      unfold inject_Z. now rewrite Zabs_Qabs. }
    assert (Hb : (b - 52 <= j)%Z).
    { destruct (Z_le_gt_dec (b - 52) j) as [L | G]; [exact L|]. exfalso.
      pose proof (pow2_le (j + 53) b ltac:(lia)) as C.
      rewrite pow2_add in C.
      assert (P53 : pow2 53 == inject_Z (2 ^ 53)) by reflexivity.
      rewrite P53 in C. rewrite Zlt_Qlt in Hm.
      assert (inject_Z (Z.abs m) * pow2 j < inject_Z (2 ^ 53) * pow2 j)
        by (apply Qmult_lt_compat_r; assumption).
      lra. }
    pose proof (pow2_sub j (b - 52)) as S.
    pose proof (pow2_pos (b - 52)) as U. set (u := pow2 (b - 52)) in *.
    assert (R : x / u == inject_Z (m * 2 ^ (j - (b - 52)))).
    { rewrite inject_Z_mult, <- pow2_Z by lia. rewrite E, <- S. field. lra. }
    rewrite (roundTiesToEven_compat _ _ R), roundTiesToEven_Z.
    rewrite inject_Z_mult, <- pow2_Z by lia. rewrite E, <- S. ring.
Qed.

Lemma double_Z (n : Z) :
  (Z.abs n < 9007199254740992)%Z -> double (inject_Z n) == inject_Z n.
Proof.
  intros H. apply (double_exact _ n 0 H). change (pow2 0) with 1. ring.
Qed.

(** So is a multiple of 0.5, such as a sum of expected hours. *)
Lemma double_half_multiple (n : Z) :
  (Z.abs n < 9007199254740992)%Z -> double (inject_Z n / 2) == inject_Z n / 2.
Proof.
  intros H. apply (double_exact _ n (-1) H). change (pow2 (-1)) with (1 # 2).
  unfold Qdiv. reflexivity.
Qed.

(** ** Productivity *)

Lemma Math_round_near (x : Q) :
  x - (1 # 2) < inject_Z (Math_round x) /\ inject_Z (Math_round x) <= x + (1 # 2).
Proof.
  unfold Math_round.
  pose proof (Qfloor_le (x + (1 # 2))) as F1.
  pose proof (Qlt_floor (x + (1 # 2))) as F2.
  rewrite inject_Z_plus in F2. change (inject_Z 1) with 1 in F2.
  split; lra.
Qed.

Lemma ratio_nonneg (a e : Q) : 0 <= a -> 0 < e -> 0 <= a / e * 100.
Proof.
  intros Ha He. apply Qmult_le_0_compat; [|discriminate].
  apply Qmult_le_0_compat; [exact Ha|]. apply Qlt_le_weak, Qinv_lt_0_compat, He.
Qed.

Lemma double_bounds (x : Q) :
  0 <= x ->
  x * (1 - (1 # 9007199254740992)) <= double x <= x * (1 + (1 # 9007199254740992)).
Proof.
  intros H. pose proof (double_near x) as N.
  rewrite (Qabs_pos x H) in N. apply Qabs_Qle_condition in N. split; lra.
Qed.

(** The three roundings of [calculateProductivity] move the ratio by less
    than one part in 10^15. *)
Lemma scaledRatio_near (a e : Q) :
  0 <= a -> 0 < e ->
  a / e * 1000 * (1 - (1 # 1000000000000000)) <= scaledRatio a e
  <= a / e * 1000 * (1 + (1 # 1000000000000000)).
Proof.
  intros Ha He. unfold scaledRatio.
  assert (R : 0 <= a / e).
  { apply Qmult_le_0_compat; [exact Ha|]. apply Qlt_le_weak, Qinv_lt_0_compat, He. }
  set (r := a / e) in *.
  pose proof (double_bounds r R) as B1. pose proof (double_nonneg r R) as P1.
  set (x1 := double r) in *.
  assert (R2 : 0 <= x1 * 100) by lra.
  pose proof (double_bounds _ R2) as B2. pose proof (double_nonneg _ R2) as P2.
  set (x2 := double (x1 * 100)) in *.
  assert (R3 : 0 <= x2 * 10) by lra.
  pose proof (double_bounds _ R3) as B3.
  set (x3 := double (x2 * 10)) in *.
  split; lra.
Qed.

Lemma scaledRatio_mono (a1 a2 e : Q) :
  0 <= a1 -> a1 <= a2 -> 0 < e -> scaledRatio a1 e <= scaledRatio a2 e.
Proof.
  intros H1 H12 He. unfold scaledRatio.
  assert (I : 0 <= / e) by apply Qlt_le_weak, Qinv_lt_0_compat, He.
  assert (R1 : 0 <= a1 / e) by (apply Qmult_le_0_compat; assumption).
  assert (M : a1 / e <= a2 / e) by (apply Qmult_le_compat_r; assumption).
  pose proof (double_nonneg _ R1) as P1.
  pose proof (double_mono _ _ R1 M) as M1.
  assert (R2 : 0 <= double (a1 / e) * 100) by lra.
  assert (M2 : double (a1 / e) * 100 <= double (a2 / e) * 100) by lra.
  pose proof (double_nonneg _ R2) as P2.
  pose proof (double_mono _ _ R2 M2) as M3.
  apply double_mono; lra.
Qed.

Lemma scaledRatio_compat (a a' e e' : Q) :
  a == a' -> e == e' -> scaledRatio a e == scaledRatio a' e'.
Proof.
  intros Ha He. unfold scaledRatio.
  apply double_compat. apply Qmult_comp; [|reflexivity].
  apply double_compat. apply Qmult_comp; [|reflexivity].
  apply double_compat. now rewrite Ha, He.
Qed.

Lemma calculateProductivity_positive (a e : Q) :
  0 <= a -> 0 < e ->
  calculateProductivity a e = Ok (inject_Z (Math_round (scaledRatio a e)) / 10).
Proof.
  intros Ha He. unfold calculateProductivity.
  rewrite (proj2 (Qltb_false a 0) Ha).
  rewrite (proj2 (Qltb_false e 0) (Qlt_le_weak _ _ He)).
  destruct (Qeq_bool e 0) eqn:E; [|reflexivity].
  apply Qeq_bool_iff in E. rewrite E in He. discriminate.
Qed.

Lemma calculateProductivity_Ok_nonneg (a e p : Q) :
  calculateProductivity a e = Ok p -> 0 <= a /\ 0 <= e.
Proof.
  unfold calculateProductivity.
  destruct (Qltb a 0) eqn:A; [discriminate|].
  destruct (Qltb e 0) eqn:E; [discriminate|].
  intros _. apply Qltb_false in A, E. auto.
Qed.

(** [Math.round] returns [n] on the numbers from [n - 1/2] up to
    [n + 1/2]. *)
Lemma Math_round_unique (x : Q) (n : Z) :
  inject_Z n - (1 # 2) <= x < inject_Z n + (1 # 2) -> Math_round x = n.
Proof.
  intros [H1 H2]. destruct (Math_round_near x) as [N1 N2].
  assert (L : (n < Math_round x + 1)%Z).
  { rewrite Zlt_Qlt, inject_Z_plus. change (inject_Z 1) with 1. lra. }
  assert (U : (Math_round x < n + 1)%Z).
  { rewrite Zlt_Qlt, inject_Z_plus. change (inject_Z 1) with 1. lra. }
  lia.
Qed.

(** Away from the ties, the three roundings do not change the integer that
    [Math.round] returns. *)
Lemma Math_round_scaledRatio (a e : Q) (n : Z) :
  0 <= a -> 0 < e ->
  Qabs (a / e * 1000 - inject_Z n) < (1 # 2) - a / e * 1000 * (1 # 1000000000000000) ->
  Math_round (scaledRatio a e) = n.
Proof.
  intros Ha He H. apply Qabs_Qlt_condition in H.
  destruct (scaledRatio_near a e Ha He) as [L U].
  apply Math_round_unique. split; lra.
Qed.

Lemma RoundedTo_tenths (a e : Q) :
  0 <= a -> 0 < e ->
  RoundedTo 1 (a / e * 100) (inject_Z (Math_round (scaledRatio a e)) / 10).
Proof.
  intros Ha He. split; [eexists; reflexivity|].
  change (inject_Z (10 ^ Z.of_nat 1)) with 10.
  pose proof (ratio_nonneg a e Ha He) as P. rewrite (Qabs_pos _ P).
  destruct (scaledRatio_near a e Ha He) as [L U].
  destruct (Math_round_near (scaledRatio a e)) as [N1 N2].
  set (n := inject_Z (Math_round (scaledRatio a e))) in *.
  apply Qabs_Qle_condition. qdiv_const. split; lra.
Qed.

Lemma RoundedTo_hundredths (x : Q) :
  0 <= x -> RoundedTo 2 x (inject_Z (Math_round (double (x * 100))) / 100).
Proof.
  intros H. split; [eexists; reflexivity|].
  change (inject_Z (10 ^ Z.of_nat 2)) with 100.
  rewrite (Qabs_pos _ H).
  assert (H' : 0 <= x * 100) by lra.
  pose proof (double_bounds _ H') as [L U].
  destruct (Math_round_near (double (x * 100))) as [N1 N2].
  set (n := inject_Z (Math_round (double (x * 100)))) in *.
  apply Qabs_Qle_condition. qdiv_const. split; lra.
Qed.

(** ** Expected hours *)

Lemma WeekDay_bounds (d : Z) : (0 <= WeekDay d < 7)%Z.
Proof. unfold WeekDay. apply Z.mod_pos_bound. reflexivity. Qed.

Lemma dayOfWeek_valid (t : Z) : exists w, dayOfWeek (DateAt t) = Some w.
Proof.
  unfold dayOfWeek, getDay. cbn [getTime option_map].
  pose proof (WeekDay_bounds (Day t)) as B.
  destruct (WeekDay (Day t)) as [|[[|[]|]|[[]|[]|]|]|]; try lia; eauto.
Qed.

Lemma Day_next (t : Z) : Day (t + msPerDay) = (Day t + 1)%Z.
Proof.
  unfold Day. replace (t + msPerDay)%Z with (t + 1 * msPerDay)%Z by lia.
  now apply Z.div_add.
Qed.

Lemma WeekDay_next (d : Z) : WeekDay (d + 1) = ((WeekDay d + 1) mod 7)%Z.
Proof.
  unfold WeekDay. replace (d + 1 + 4)%Z with (d + 4 + 1)%Z by lia.
  rewrite (Z.add_mod (d + 4) 1 7) by discriminate. reflexivity.
Qed.

Lemma getExpectedHours_Throw (d : Date) (e : Error) :
  getExpectedHours d = Throw e -> d = InvalidDate /\ e = InvalidDateError InvalidDateProvided.
Proof.
  destruct d as [|t]; simpl.
  - intros [= <-]. auto.
  - unfold getExpectedHours. cbn [getTime].
    destruct (isSunday _); [discriminate|]. destruct (isSaturday _); discriminate.
Qed.

(** ** Aggregation *)

(** The loop adds the worked hours and the expected hours of the records to
    the running totals. *)
Lemma sumHours_Ok (records : list ProcessedAttendanceRecord) (expected : list Q) :
  Forall2 (fun r x => getExpectedHours (date r) = Ok x) records expected ->
  forall a0 e0,
    sumHours records a0 e0
    = Ok (fold_left (fun sum x => double (sum + x)) (map workedHours records) a0,
          fold_left Qplus expected e0).
Proof.
  induction 1 as [|r x records expected Hx _ IH]; intros a0 e0; simpl; [reflexivity|].
  rewrite Hx. simpl. apply IH.
Qed.

Lemma sumHours_invalid (records : list ProcessedAttendanceRecord) (r : ProcessedAttendanceRecord) :
  In r records -> date r = InvalidDate ->
  forall a0 e0, sumHours records a0 e0 = Throw (InvalidDateError InvalidDateProvided).
Proof.
  induction records as [|r' records IH]; simpl; [tauto|].
  intros Hin Hr a0 e0.
  destruct (getExpectedHours (date r')) as [x|e] eqn:E.
  - simpl. destruct Hin as [-> | Hin]; [|now apply IH].
    rewrite Hr in E. discriminate.
  - apply getExpectedHours_Throw in E as [_ ->]. reflexivity.
Qed.

(** *** Sums in double precision *)

Lemma fold_left_Qplus_le (xs : list Q) :
  Forall (fun x => 0 <= x) xs -> forall acc, acc <= fold_left Qplus xs acc.
Proof.
  induction 1 as [|x xs Hx _ IH]; intros acc; cbn [fold_left]; [lra|].
  specialize (IH (acc + x)). lra.
Qed.

Lemma fold_left_Qplus_compat (xs : list Q) (acc acc' : Q) :
  acc == acc' -> fold_left Qplus xs acc == fold_left Qplus xs acc'.
Proof.
  revert acc acc'. induction xs as [|x xs IH]; intros acc acc' H; cbn [fold_left];
    [exact H|].
  apply IH. now rewrite H.
Qed.

Lemma running_total_nonneg (xs : list Q) (acc : Q) :
  Forall (fun x => 0 <= x) xs -> 0 <= acc ->
  0 <= fold_left (fun sum x => double (sum + x)) xs acc.
Proof.
  intros H. revert acc. induction H as [|x xs Hx _ IH]; intros acc Hacc; cbn [fold_left];
    [exact Hacc|].
  apply IH, double_nonneg. lra.
Qed.

(** Each addition of a sum of non-negative numbers that stays below [B]
    moves it by [B * 2^-52] at most. *)
Lemma running_sum_near (xs : list Q) (B : Q) :
  Forall (fun x => 0 <= x) xs ->
  forall acc acc' d,
    0 <= acc -> fold_left Qplus xs acc <= B -> 0 <= d ->
    d + inject_Z (Z.of_nat (List.length xs)) * (B * (1 # 4503599627370496)) <= B ->
    Qabs (acc' - acc) <= d ->
    Qabs (fold_left (fun sum x => double (sum + x)) xs acc' - fold_left Qplus xs acc)
    <= d + inject_Z (Z.of_nat (List.length xs)) * (B * (1 # 4503599627370496)).
Proof.
  set (eta := B * (1 # 4503599627370496)).
  induction 1 as [|x xs Hx F IH]; intros acc acc' d Hacc Hsum Hd Hn Hclose;
    cbn [fold_left List.length] in *.
  - change (inject_Z (Z.of_nat 0)) with 0. lra.
  - rewrite Nat2Z.inj_succ in *. unfold Z.succ in *. rewrite inject_Z_plus in *.
    change (inject_Z 1) with 1 in *.
    set (n := inject_Z (Z.of_nat (List.length xs))) in *.
    assert (N0 : 0 <= n).
    { unfold n. change 0 with (inject_Z 0). rewrite <- Zle_Qle. lia. }
    pose proof (fold_left_Qplus_le xs F (acc + x)) as L.
    assert (B0 : 0 <= B) by lra.
    assert (E0 : 0 <= eta) by (unfold eta; lra).
    assert (NE : 0 <= n * eta) by (apply Qmult_le_0_compat; assumption).
    apply Qabs_Qle_condition in Hclose.
    pose proof (double_near (acc' + x)) as D.
    assert (A : Qabs (acc' + x) <= 2 * B).
    { apply Qabs_Qle_condition. split; lra. }
    apply Qabs_Qle_condition in D.
    specialize (IH (acc + x) (double (acc' + x)) (d + eta)).
    assert (G : Qabs (fold_left (fun sum x0 => double (sum + x0)) xs (double (acc' + x))
                      - fold_left Qplus xs (acc + x))
                <= d + eta + n * eta).
    { apply IH; try lra. apply Qabs_Qle_condition. unfold eta. split; lra. }
    apply Qabs_Qle_condition in G. apply Qabs_Qle_condition. split; lra.
Qed.

(** The sum that the loop forms is the sum of the numbers, up to a relative
    error of 2^-52 for each of them. *)
Lemma runningTotal_near (xs : list Q) :
  Forall (fun x => 0 <= x) xs ->
  (Z.of_nat (List.length xs) <= 4503599627370496)%Z ->
  Qabs (runningTotal xs - total xs)
  <= total xs * (inject_Z (Z.of_nat (List.length xs)) * (1 # 4503599627370496)).
Proof.
  intros P Hn. unfold runningTotal, total.
  set (B := fold_left Qplus xs 0).
  pose proof (fold_left_Qplus_le xs P 0) as B0. fold B in B0.
  set (n := inject_Z (Z.of_nat (List.length xs))) in *.
  assert (N1 : n * (1 # 4503599627370496) <= 1).
  { rewrite Zle_Qle in Hn. fold n in Hn.
    change (inject_Z 4503599627370496) with 4503599627370496 in Hn. lra. }
  assert (M : n * (1 # 4503599627370496) * B <= 1 * B)
    by (apply Qmult_le_compat_r; assumption).
  assert (R : Qabs (fold_left (fun sum x => double (sum + x)) xs 0 - B)
              <= 0 + n * (B * (1 # 4503599627370496))).
  { apply (running_sum_near xs B P 0 0 0).
    - lra.
    - apply Qle_refl.
    - lra.
    - fold n. clear - M. clearbody n B. lra.
    - apply Qabs_Qle_condition. split; lra. }
  apply Qabs_Qle_condition in R. apply Qabs_Qle_condition. fold n.
  clear - R. clearbody n B. split; lra.
Qed.

Local Close Scope Q_scope.

(** ** The calendar *)

Lemma lastDayOfMonth_bounds (year month : Z) : 28 <= lastDayOfMonth year month <= 31.
Proof.
  unfold lastDayOfMonth.
  destruct month as [|[[[|[]|]|[[]|[]|]|]|[[[]|[]|]|[[]|[]|]|]|]|];
    try destruct (isLeapYear year); lia.
Qed.

Lemma In_daysOfMonth (year month day : Z) :
  In day (daysOfMonth year month) <-> 1 <= day <= lastDayOfMonth year month.
Proof.
  pose proof (lastDayOfMonth_bounds year month) as B.
  unfold daysOfMonth, dayRange. rewrite in_map_iff. split.
  - intros (i & <- & Hi). apply in_seq in Hi. lia.
  - intros H. exists (Z.to_nat day). split; [lia|]. apply in_seq. lia.
Qed.

Lemma Day_MakeDate (d : Z) : Day (MakeDate d 0) = d.
Proof. unfold Day, MakeDate. rewrite Z.add_0_r. now apply Z.div_mul. Qed.

Lemma TimeWithinDay_MakeDate (d : Z) : TimeWithinDay (MakeDate d 0) = 0.
Proof. unfold TimeWithinDay, MakeDate. rewrite Z.add_0_r. now apply Z.mod_mul. Qed.

(** *** Years *)

(** The calendar repeats every 400 years, that is every 146097 days. *)
Lemma DayFromYear_shift (c u : Z) : DayFromYear (400 * c + u) = 146097 * c + DayFromYear u.
Proof. unfold DayFromYear. lia. Qed.

Lemma DaysInYear_shift (c u : Z) : DaysInYear (400 * c + u) = DaysInYear u.
Proof.
  unfold DaysInYear.
  replace ((400 * c + u) mod 4) with (u mod 4) by lia.
  replace ((400 * c + u) mod 100) with (u mod 100) by lia.
  replace ((400 * c + u) mod 400) with (u mod 400) by lia.
  reflexivity.
Qed.

Lemma isLeapYear_shift (c u : Z) : isLeapYear (400 * c + u) = isLeapYear u.
Proof.
  unfold isLeapYear.
  replace ((400 * c + u) mod 4) with (u mod 4) by lia.
  replace ((400 * c + u) mod 100) with (u mod 100) by lia.
  replace ((400 * c + u) mod 400) with (u mod 400) by lia.
  reflexivity.
Qed.

(** One cycle, year by year: a year ends where the next one starts, and
    the long years are the leap years. *)
Lemma cycle_checked :
  forallb (fun u => (DayFromYear (u + 1) =? DayFromYear u + DaysInYear u)
                    && Bool.eqb (DaysInYear u =? 366) (isLeapYear u)
                    && (DaysInYear u =? (if isLeapYear u then 366 else 365)))
          (Zrange 0 400) = true.
Proof. vm_compute. reflexivity. Qed.

Lemma year_in_cycle (y : Z) :
  DayFromYear (y + 1) = DayFromYear y + DaysInYear y /\
  (DaysInYear y =? 366) = isLeapYear y /\
  DaysInYear y = (if isLeapYear y then 366 else 365).
Proof.
  pose proof (Z_div_mod_eq_full y 400) as E.
  pose proof (Z.mod_pos_bound y 400 eq_refl) as B.
  rewrite E at 1 2 3 4 5 6 7. rewrite <- Z.add_assoc.
  rewrite !DayFromYear_shift, !DaysInYear_shift, !isLeapYear_shift.
  pose proof cycle_checked as H. rewrite forallb_forall in H.
  assert (I : In (y mod 400) (Zrange 0 400)) by (apply In_Zrange; simpl; lia).
  specialize (H _ I).
  apply andb_true_iff in H as [H H3]. apply andb_true_iff in H as [H1 H2].
  apply Z.eqb_eq in H1, H3. apply Bool.eqb_prop in H2.
  repeat split; auto. lia.
Qed.

Lemma DayFromYear_succ (y : Z) : DayFromYear (y + 1) = DayFromYear y + DaysInYear y.
Proof. apply year_in_cycle. Qed.

Lemma DayFromYear_mono (a b : Z) : a <= b -> DayFromYear a <= DayFromYear b.
Proof. unfold DayFromYear. lia. Qed.

(** [YearFromDay d] is the year that day [d] is in. *)
Lemma YearFromDay_spec (d : Z) :
  DayFromYear (YearFromDay d) <= d < DayFromYear (YearFromDay d + 1).
Proof.
  unfold YearFromDay.
  destruct (d <? DayFromYear (1970 + 400 * d / 146097)) eqn:E1;
    [|destruct (DayFromYear (1970 + 400 * d / 146097 + 1) <=? d) eqn:E2].
  - apply Z.ltb_lt in E1.
    replace (1970 + 400 * d / 146097 - 1 + 1) with (1970 + 400 * d / 146097) by lia.
    split; [|exact E1]. clear E1. unfold DayFromYear. lia.
  - apply Z.leb_le in E2. split; [exact E2|]. clear E1 E2. unfold DayFromYear. lia.
  - apply Z.ltb_ge in E1. apply Z.leb_gt in E2. auto.
Qed.

Lemma YearFromDay_unique (d y : Z) :
  DayFromYear y <= d < DayFromYear (y + 1) -> YearFromDay d = y.
Proof.
  intros H. pose proof (YearFromDay_spec d) as S.
  destruct (Z.lt_trichotomy (YearFromDay d) y) as [L | [E | G]]; [|exact E|].
  - pose proof (DayFromYear_mono (YearFromDay d + 1) y ltac:(lia)). lia.
  - pose proof (DayFromYear_mono (y + 1) (YearFromDay d) ltac:(lia)). lia.
Qed.

(** *** Months and days *)

(** [MakeDay] and the three components of a day number are inverse of each
    other on the days of the calendar. *)
Lemma MakeDay_components (year month day : Z) :
  1 <= month <= 12 -> 1 <= day <= lastDayOfMonth year month ->
  YearFromDay (MakeDay year (month - 1) day) = year /\
  MonthFromDay (MakeDay year (month - 1) day) = month - 1 /\
  DateFromDay (MakeDay year (month - 1) day) = day.
Proof.
  intros Hm Hd.
  destruct (year_in_cycle year) as (Hs & Hl & Hn).
  assert (Hy : YearFromDay (MakeDay year (month - 1) day) = year).
  { apply YearFromDay_unique. rewrite Hs. unfold MakeDay.
    replace ((month - 1) / 12) with 0 by lia.
    replace ((month - 1) mod 12) with (month - 1) by lia.
    rewrite Z.add_0_r, Hl, Hn. unfold lastDayOfMonth in Hd.
    assert (C : month = 1 \/ month = 2 \/ month = 3 \/ month = 4 \/ month = 5 \/
                month = 6 \/ month = 7 \/ month = 8 \/ month = 9 \/ month = 10 \/
                month = 11 \/ month = 12) by lia.
    repeat destruct C as [C | C]; subst month; simpl in Hd |- *;
      destruct (isLeapYear year); lia. }
  assert (Hmi : MonthFromDay (MakeDay year (month - 1) day) = month - 1).
  { unfold MonthFromDay, DayWithinYear, InLeapYear. rewrite Hy, Hl. unfold MakeDay.
    replace ((month - 1) / 12) with 0 by lia.
    replace ((month - 1) mod 12) with (month - 1) by lia.
    rewrite Z.add_0_r, Hl. unfold lastDayOfMonth in Hd.
    assert (C : month = 1 \/ month = 2 \/ month = 3 \/ month = 4 \/ month = 5 \/
                month = 6 \/ month = 7 \/ month = 8 \/ month = 9 \/ month = 10 \/
                month = 11 \/ month = 12) by lia.
    repeat destruct C as [C | C]; subst month; simpl in Hd |- *;
      destruct (isLeapYear year);
      repeat match goal with
             | |- context [?a <? ?b] =>
                 let E := fresh in
                 destruct (a <? b) eqn:E;
                 [apply Z.ltb_lt in E | apply Z.ltb_ge in E]; try lia
             end. }
  repeat split; auto.
  unfold DateFromDay. rewrite Hmi. unfold DayWithinYear, InLeapYear. rewrite Hy, Hl.
  unfold MakeDay.
  replace ((month - 1) / 12) with 0 by lia.
  replace ((month - 1) mod 12) with (month - 1) by lia.
  rewrite Z.add_0_r, Hl.
  assert (C : month = 1 \/ month = 2 \/ month = 3 \/ month = 4 \/ month = 5 \/
              month = 6 \/ month = 7 \/ month = 8 \/ month = 9 \/ month = 10 \/
              month = 11 \/ month = 12) by lia.
  repeat destruct C as [C | C]; subst month; simpl; destruct (isLeapYear year); lia.
Qed.

(** A day number is determined by its year, month and day of the month. *)
Lemma MakeDay_unique (d year monthIndex day : Z) :
  0 <= monthIndex <= 11 ->
  YearFromDay d = year -> MonthFromDay d = monthIndex -> DateFromDay d = day ->
  d = MakeDay year monthIndex day.
Proof.
  intros Hm Hy Hmi Hd. unfold MakeDay.
  replace (monthIndex / 12) with 0 by lia.
  replace (monthIndex mod 12) with monthIndex by lia.
  rewrite Z.add_0_r. unfold DateFromDay in Hd. rewrite Hmi in Hd. clear Hmi.
  unfold DayWithinYear, InLeapYear in Hd. rewrite Hy in Hd. clear Hy.
  assert (C : monthIndex = 0 \/ monthIndex = 1 \/ monthIndex = 2 \/ monthIndex = 3 \/
              monthIndex = 4 \/ monthIndex = 5 \/ monthIndex = 6 \/ monthIndex = 7 \/
              monthIndex = 8 \/ monthIndex = 9 \/ monthIndex = 10 \/ monthIndex = 11) by lia.
  repeat destruct C as [C | C]; subst monthIndex; simpl in Hd |- *;
    destruct (DaysInYear year =? 366); lia.
Qed.

Lemma MakeDay_last (year month : Z) :
  1 <= month <= 12 ->
  MakeDay year month 0 = MakeDay year (month - 1) (lastDayOfMonth year month).
Proof.
  intros Hm. destruct (year_in_cycle year) as (Hs & Hl & Hn).
  unfold MakeDay, lastDayOfMonth.
  assert (C : month = 1 \/ month = 2 \/ month = 3 \/ month = 4 \/ month = 5 \/
              month = 6 \/ month = 7 \/ month = 8 \/ month = 9 \/ month = 10 \/
              month = 11 \/ month = 12) by lia.
  repeat destruct C as [C | C]; subst month; simpl;
    change (12 / 12) with 1; rewrite ?Z.add_0_r, ?Hl, ?Hs, ?Hn;
    destruct (isLeapYear year); lia.
Qed.

(** Each generated date is the midnight of its day of the calendar. *)
Lemma midnightOf_calendar (year month day : Z) :
  1 <= month <= 12 -> 1 <= day <= lastDayOfMonth year month ->
  AtMidnight (midnightOf year month day) /\
  OnCalendarDay (midnightOf year month day) year month day.
Proof.
  intros Hm Hd. destruct (MakeDay_components year month day Hm Hd) as (H1 & H2 & H3).
  unfold AtMidnight, OnCalendarDay, midnightOf, getFullYear, getMonth, getDate.
  simpl. rewrite Day_MakeDate. repeat split; try congruence.
  eexists. split; [reflexivity|]. apply TimeWithinDay_MakeDate.
Qed.

(** ** Maps that may throw *)

Lemma mapM_Ok {A B : Type} (f : A -> result B) (l : list A) (bs : list B) :
  mapM f l = Ok bs <-> Forall2 (fun a b => f a = Ok b) l bs.
Proof.
  revert bs. induction l as [|a l IH]; intros bs; simpl.
  - split; [intros [= <-]; constructor | inversion 1; reflexivity].
  - split.
    + intros H. apply bind_Ok in H as (b & Hb & H).
      apply bind_Ok in H as (bs' & Hbs & [= <-]).
      constructor; [exact Hb | now apply IH].
    + inversion 1 as [|a' b l' bs' Hb Hbs]; subst.
      apply IH in Hbs. now rewrite Hb, Hbs.
Qed.

(** A throwing map throws what its first throwing element throws. *)
Lemma mapM_Throw {A B : Type} (f : A -> result B) (l : list A) (e : Error) :
  mapM f l = Throw e ->
  exists l1 a l2, l = l1 ++ a :: l2 /\ f a = Throw e /\ exists bs, mapM f l1 = Ok bs.
Proof.
  induction l as [|a l IH]; simpl; [discriminate|]. intros H.
  apply bind_Throw in H as [H | (b & Hb & H)].
  - exists [], a, l. simpl. eauto.
  - apply bind_Throw in H as [H | (bs & _ & H)]; [|discriminate].
    apply IH in H as (l1 & a' & l2 & -> & Ha & bs & Hbs).
    exists (a :: l1), a', l2. simpl. rewrite Hb, Hbs. simpl. eauto.
Qed.

Lemma mapM_total {A B : Type} (f : A -> result B) (l : list A) :
  (forall a, In a l -> exists b, f a = Ok b) -> exists bs, mapM f l = Ok bs.
Proof.
  induction l as [|a l IH]; simpl; intros H; [eauto|].
  destruct (H a (or_introl eq_refl)) as [b Hb].
  destruct IH as [bs Hbs]; [intros; apply H; auto|].
  rewrite Hb, Hbs. simpl. eauto.
Qed.

Lemma mapM_fails {A B : Type} (f : A -> result B) (l : list A) (a : A) (e : Error) :
  In a l -> f a = Throw e -> exists e', mapM f l = Throw e'.
Proof.
  intros Hin Ha. destruct (mapM f l) as [bs|e'] eqn:H; [|eauto].
  apply mapM_Ok in H. exfalso. revert Hin. induction H as [|a' b l' bs' Hb _ IH]; simpl.
  - tauto.
  - intros [-> | Hin]; [congruence | auto].
Qed.

(** A relation between the days of a month and a list, position by
    position. *)
Lemma Forall2_days {B : Type} (R : Z -> B -> Prop) (s k : nat) (l : list B) :
  Forall2 R (map Z.of_nat (seq s k)) l <->
  List.length l = k /\
  forall i b, nth_error l i = Some b -> R (Z.of_nat (s + i)) b.
Proof.
  revert s l. induction k as [|k IH]; intros s l; simpl.
  - split.
    + inversion 1. split; [reflexivity|]. intros [|i] b; discriminate.
    + intros [H _]. destruct l; [constructor|discriminate].
  - split.
    + inversion 1 as [|a b l0 l' Hb Hl]; subst. apply IH in Hl as [Hlen Hnth].
      split; [simpl; congruence|]. intros [|i] b'; simpl.
      * intros [= <-]. now rewrite Nat.add_0_r.
      * intros Hi. apply Hnth in Hi. now rewrite Nat.add_succ_r.
    + intros [Hlen Hnth]. destruct l as [|b l]; [discriminate|].
      constructor.
      * specialize (Hnth 0%nat b eq_refl). now rewrite Nat.add_0_r in Hnth.
      * apply IH. split; [simpl in Hlen; congruence|].
        intros i b' Hi. specialize (Hnth (S i) b' Hi). now rewrite Nat.add_succ_r in Hnth.
Qed.

(** ** Lookup of the entry of a day *)

Lemma find_first {A : Type} (p : A -> bool) (l : list A) (a : A) :
  find p l = Some a <->
  exists l1 l2, l = l1 ++ a :: l2 /\ p a = true /\ forall x, In x l1 -> p x = false.
Proof.
  induction l as [|x l IH]; simpl.
  - split; [discriminate|]. intros (l1 & l2 & H & _). now destruct l1.
  - destruct (p x) eqn:Hx.
    + split.
      * intros [= ->]. exists [], l. simpl. tauto.
      * intros ([|y l1] & l2 & H & Ha & Hl1); simpl in H; injection H as -> ->; auto.
        specialize (Hl1 y (or_introl eq_refl)). congruence.
    + rewrite IH. split.
      * intros (l1 & l2 & -> & Ha & Hl1). exists (x :: l1), l2. simpl.
        repeat split; auto. intros y [<- | Hy]; auto.
      * intros ([|y l1] & l2 & H & Ha & Hl1); simpl in H; injection H as -> ->.
        -- congruence.
        -- exists l1, l2. repeat split; auto. intros z Hz. apply Hl1. now right.
Qed.

Lemma find_None {A : Type} (p : A -> bool) (l : list A) :
  find p l = None <-> forall x, In x l -> p x = false.
Proof.
  split; [apply find_none|].
  induction l as [|x l IH]; simpl; intros H; [reflexivity|].
  rewrite (H x (or_introl eq_refl)). apply IH. intros y Hy. apply H. now right.
Qed.

Lemma normalizeDate_idempotent (d : Date) : normalizeDate (normalizeDate d) = normalizeDate d.
Proof.
  destruct d as [|t]; [reflexivity|].
  unfold normalizeDate, startOfDay. cbn [setHours0]. unfold TimeClip.
  destruct (Z.abs (MakeDate (Day t) 0) <=? 8640000000000000) eqn:E; [|reflexivity].
  cbn [setHours0]. rewrite Day_MakeDate. unfold TimeClip. now rewrite E.
Qed.

Lemma findRecordForDate_find (target : Date) (raws : list RawAttendanceInput) :
  findRecordForDate target (normalizeRecords raws) =
  option_map normalizeRecord
    (find (fun e => strictEq (getTime (normalizeDate (raw_date e))) (getTime target)) raws).
Proof.
  unfold findRecordForDate, normalizeRecords.
  induction raws as [|e raws IH]; simpl; [reflexivity|].
  rewrite normalizeDate_idempotent.
  destruct (strictEq _ _); [reflexivity | exact IH].
Qed.

(** ** The month, day by day *)

Lemma Forall2_map_l {A A' B : Type} (g : A -> A') (R : A' -> B -> Prop)
    (l : list A) (l' : list B) :
  Forall2 R (map g l) l' <-> Forall2 (fun a b => R (g a) b) l l'.
Proof.
  revert l'. induction l as [|a l IH]; intros l'; simpl.
  - split; inversion 1; constructor.
  - split; inversion 1; subst; constructor; auto; now apply IH.
Qed.

Lemma recordOfDay_Some (recs : list ProcessedAttendanceRecord) (day : Z)
    (r : ProcessedAttendanceRecord) :
  1 <= day -> recordOfDay recs day = Some r -> day <= Z.of_nat (List.length recs).
Proof.
  intros Hd H. unfold recordOfDay in H.
  assert (N : nth_error recs (Z.to_nat (day - 1)) <> None) by congruence.
  apply nth_error_Some in N. lia.
Qed.

Lemma processDate_date (nr : list RawAttendanceInput) (d : Date)
    (r : ProcessedAttendanceRecord) :
  processDate nr d = Ok r -> date r = d.
Proof.
  unfold processDate. destruct (findRecordForDate d nr) as [e|].
  - intros H. apply bind_Ok in H as (w & _ & [= <-]). reflexivity.
  - destruct (isSunday d); intros [= <-]; reflexivity.
Qed.

Lemma calculateWorkedHours_Accepted (i o : string) (w : Q) :
  calculateWorkedHours i o = Ok w -> AcceptedTime i /\ AcceptedTime o.
Proof.
  unfold calculateWorkedHours. intros H.
  apply bind_Ok in H as (a & Pa & H). apply bind_Ok in H as (b & Pb & _).
  split; eapply parseTime_trim; eassumption.
Qed.

Lemma calculateWorkedHours_rejected (i o : string) :
  ~ AcceptedTime i \/ ~ AcceptedTime o ->
  exists timeString details,
    calculateWorkedHours i o = Throw (InvalidTimeFormatError timeString details).
Proof.
  intros N. destruct (calculateWorkedHours i o) as [w|e] eqn:H.
  - apply calculateWorkedHours_Accepted in H. tauto.
  - apply calculateWorkedHours_Throw in H as (ts & d & ->). eauto.
Qed.

Lemma midnightOf_lt (year month d1 d2 : Z) :
  d1 < d2 -> Earlier (midnightOf year month d1) (midnightOf year month d2).
Proof.
  intros H. unfold Earlier, midnightOf. eexists _, _. repeat split.
  unfold MakeDate, MakeDay, msPerDay. lia.
Qed.

Lemma midnightOf_inj (year month d1 d2 : Z) :
  midnightOf year month d1 = midnightOf year month d2 -> d1 = d2.
Proof.
  unfold midnightOf. intros [= H]. unfold MakeDate, MakeDay, msPerDay in H. lia.
Qed.

Lemma firstEmployeeId_normalized (raws : list RawAttendanceInput) :
  firstEmployeeId (normalizeRecords raws)
  = match raws with
    | e :: _ => raw_employeeId e
    | [] => ""%string
    end.
Proof.
  destruct raws as [|e raws]; [reflexivity|]. simpl.
  now destruct (raw_employeeId e).
Qed.

Lemma NoDup_map_inj {A B : Type} (f : A -> B) (l : list A) :
  (forall x y, In x l -> In y l -> f x = f y -> x = y) -> NoDup l -> NoDup (map f l).
Proof.
  intros Hinj. induction 1 as [|a l Ha Hl IH]; simpl; constructor.
  - intros C. apply in_map_iff in C as (x & E & Hx).
    apply Hinj in E; simpl; auto. now subst.
  - apply IH. intros x y Hx Hy. apply Hinj; simpl; auto.
Qed.

Lemma daysOfMonth_NoDup (year month : Z) : NoDup (daysOfMonth year month).
Proof.
  unfold daysOfMonth, dayRange. apply NoDup_map_inj; [|apply seq_NoDup].
  intros x y _ _. apply Nat2Z.inj.
Qed.

Lemma Forall2_In_l {A B : Type} (R : A -> B -> Prop) (l : list A) (l' : list B) (a : A) :
  Forall2 R l l' -> In a l -> exists b, R a b.
Proof.
  induction 1 as [|x y l l' Hxy _ IH]; simpl; [tauto|].
  intros [<- | Hin]; eauto.
Qed.

(** Where the days of a month are cut, the day at the cut is one more than
    the number of days before it, and these are all the earlier days. *)
Lemma days_split (n : Z) (d1 d2 : list Z) (x : Z) :
  dayRange (Some n) = d1 ++ x :: d2 ->
  x = Z.of_nat (List.length d1) + 1 /\ forall d, 1 <= d < x -> In d d1.
Proof.
  unfold dayRange. intros E.
  assert (Hnth : forall i v, nth_error (d1 ++ x :: d2) i = Some v -> v = Z.of_nat i + 1).
  { intros i v. rewrite <- E, nth_error_map, nth_error_seq.
    destruct (Nat.ltb i (Z.to_nat n)); simpl; [|discriminate]. intros [= <-]. lia. }
  assert (Hx : x = Z.of_nat (List.length d1) + 1).
  { apply Hnth. rewrite nth_error_app2, Nat.sub_diag by lia. reflexivity. }
  split; [exact Hx|]. intros d Hd.
  assert (L : (Z.to_nat (d - 1) < List.length d1)%nat) by lia.
  destruct (nth_error d1 (Z.to_nat (d - 1))) as [v|] eqn:V.
  - assert (v = d).
    { rewrite (Hnth (Z.to_nat (d - 1)) v); [lia|]. now rewrite nth_error_app1. }
    subst v. eapply nth_error_In, V.
  - apply nth_error_None in V. lia.
Qed.

Lemma isSunday_iff (d : Date) : isSunday d = true <-> dayOfWeek d = Some Sunday.
Proof.
  unfold isSunday, dayOfWeek.
  destruct (getDay d) as [[|[[|[]|]|[[]|[]|]|]|]|]; simpl; split;
    congruence || discriminate.
Qed.

(** ** The target month

    The year and the month of a call, within the bounds that
    [generateMonthDates] checks. *)

Section TargetMonth.

Variables year month : Z.
Hypothesis Hy : 1900 <= year <= 2100.
Hypothesis Hm : 1 <= month <= 12.

Lemma MakeDay_bounds (day : Z) :
  1 <= day <= lastDayOfMonth year month ->
  -30000 <= MakeDay year (month - 1) day <= 50000.
Proof using Hy Hm.
  intros Hd. pose proof (lastDayOfMonth_bounds year month) as B.
  pose proof (DayFromYear_mono 1900 year ltac:(lia)) as L.
  pose proof (DayFromYear_mono year 2100 ltac:(lia)) as U.
  change (DayFromYear 1900) with (-25567) in L.
  change (DayFromYear 2100) with 47482 in U.
  unfold MakeDay.
  replace ((month - 1) / 12) with 0 by lia.
  replace ((month - 1) mod 12) with (month - 1) by lia.
  rewrite Z.add_0_r.
  assert (0 <= daysBeforeMonth (if DaysInYear year =? 366 then 1 else 0) (month - 1) <= 335).
  { assert (C : month = 1 \/ month = 2 \/ month = 3 \/ month = 4 \/ month = 5 \/
                month = 6 \/ month = 7 \/ month = 8 \/ month = 9 \/ month = 10 \/
                month = 11 \/ month = 12) by lia.
    repeat destruct C as [C | C]; subst month; simpl;
      destruct (DaysInYear year =? 366); lia. }
  lia.
Qed.

Lemma TimeClip_midnight (day : Z) :
  1 <= day <= lastDayOfMonth year month ->
  TimeClip (MakeDate (MakeDay year (month - 1) day) 0) = midnightOf year month day.
Proof using Hy Hm.
  intros Hd. pose proof (MakeDay_bounds day Hd) as B.
  unfold TimeClip, midnightOf.
  replace (Z.abs _ <=? 8640000000000000) with true; [reflexivity|].
  symmetry. apply Z.leb_le. unfold MakeDate, msPerDay. lia.
Qed.

Lemma Date_setDate_midnight (day day' : Z) :
  1 <= day <= lastDayOfMonth year month -> 1 <= day' <= lastDayOfMonth year month ->
  Date_setDate (midnightOf year month day) day' = midnightOf year month day'.
Proof using Hy Hm.
  intros Hd Hd'. unfold Date_setDate, midnightOf at 1.
  rewrite Day_MakeDate, TimeWithinDay_MakeDate.
  destruct (MakeDay_components year month day Hm Hd) as (-> & -> & _).
  now apply TimeClip_midnight.
Qed.

Lemma setHours0_midnight (day : Z) :
  1 <= day <= lastDayOfMonth year month ->
  setHours0 (midnightOf year month day) = midnightOf year month day.
Proof using Hy Hm.
  intros Hd. unfold setHours0, midnightOf at 1.
  rewrite Day_MakeDate. now apply TimeClip_midnight.
Qed.

Lemma getDaysInMonth_midnight :
  getDaysInMonth (midnightOf year month 1) = Some (lastDayOfMonth year month).
Proof using Hy Hm.
  pose proof (lastDayOfMonth_bounds year month) as B.
  destruct (MakeDay_components year month 1 Hm ltac:(lia)) as (H1 & H2 & _).
  unfold getDaysInMonth, getFullYear, getMonth, midnightOf. simpl getTime. simpl option_map.
  rewrite Day_MakeDate, H1, H2. unfold Date_setFullYear.
  change (TimeWithinDay 0) with 0.
  replace (month - 1 + 1) with month by lia.
  rewrite MakeDay_last by exact Hm.
  rewrite TimeClip_midnight by lia.
  rewrite setHours0_midnight by lia.
  destruct (midnightOf_calendar year month (lastDayOfMonth year month) Hm ltac:(lia))
    as (_ & _ & _ & H). exact H.
Qed.

(** The dates the generator returns: the midnights of day 1 to the last
    day, in this order. *)
Lemma generateMonthDates_Ok :
  generateMonthDates year month = Ok (map (midnightOf year month) (daysOfMonth year month)).
Proof using Hy Hm.
  pose proof (lastDayOfMonth_bounds year month) as B.
  unfold generateMonthDates. rewrite !Z.gtb_ltb.
  rewrite (proj2 (Z.ltb_ge year 1900)), (proj2 (Z.ltb_ge 2100 year)) by lia.
  rewrite (proj2 (Z.ltb_ge month 1)), (proj2 (Z.ltb_ge 12 month)) by lia.
  cbn [orb].
  assert (F : startOfMonth (newDate year (month - 1) 1) = midnightOf year month 1).
  { unfold newDate. rewrite (proj2 (Z.leb_gt year 99)), andb_false_r by lia.
    rewrite TimeClip_midnight by lia. unfold startOfMonth.
    rewrite Date_setDate_midnight by lia. apply setHours0_midnight; lia. }
  rewrite F, getDaysInMonth_midnight.
  f_equal. apply map_ext_in. intros day Hd. apply In_daysOfMonth in Hd.
  unfold normalizeDate, startOfDay, setDate.
  rewrite Date_setDate_midnight by lia. now apply setHours0_midnight.
Qed.

(** An entry is matched to a generated date exactly when it is dated on
    that day of the calendar. *)
Lemma sameDay_iff (d : Date) (day : Z) :
  1 <= day <= lastDayOfMonth year month ->
  strictEq (getTime (normalizeDate d)) (getTime (midnightOf year month day)) = true <->
  OnCalendarDay d year month day.
Proof using Hy Hm.
  intros Hd.
  destruct (MakeDay_components year month day Hm Hd) as (C1 & C2 & C3).
  destruct d as [|t].
  - split; [discriminate|]. intros (H & _). discriminate.
  - unfold OnCalendarDay, getFullYear, getMonth, getDate. cbn [getTime option_map].
    split.
    + unfold normalizeDate, startOfDay, setHours0, TimeClip, midnightOf.
      destruct (Z.abs (MakeDate (Day t) 0) <=? 8640000000000000); [|discriminate].
      cbn [getTime strictEq]. intros H. apply Z.eqb_eq in H.
      apply (f_equal Day) in H. rewrite !Day_MakeDate in H. rewrite H.
      now rewrite C1, C2, C3.
    + intros (H1 & H2 & H3).
      injection H1 as H1. injection H2 as H2. injection H3 as H3.
      assert (E : Day t = MakeDay year (month - 1) day)
        by (apply MakeDay_unique; auto; lia).
      unfold normalizeDate, startOfDay, setHours0. rewrite E.
      rewrite TimeClip_midnight by assumption.
      unfold midnightOf. cbn [getTime strictEq]. apply Z.eqb_refl.
Qed.

Lemma findRecordForDate_first (raws : list RawAttendanceInput) (day : Z)
    (e : RawAttendanceInput) :
  1 <= day <= lastDayOfMonth year month ->
  FirstOnDay raws year month day e ->
  findRecordForDate (midnightOf year month day) (normalizeRecords raws)
  = Some (normalizeRecord e).
Proof using Hy Hm.
  intros Hd (l1 & l2 & -> & He & Hl1).
  rewrite findRecordForDate_find.
  replace (find _ _) with (Some e); [reflexivity|].
  symmetry. apply find_first. exists l1, l2. repeat split.
  - now apply sameDay_iff.
  - intros x Hx. apply not_true_is_false. intros C.
    apply (proj1 (sameDay_iff _ _ Hd)) in C. now apply (Hl1 x).
Qed.

Lemma findRecordForDate_none (raws : list RawAttendanceInput) (day : Z) :
  1 <= day <= lastDayOfMonth year month ->
  NoneOnDay raws year month day ->
  findRecordForDate (midnightOf year month day) (normalizeRecords raws) = None.
Proof using Hy Hm.
  intros Hd Hn. rewrite findRecordForDate_find.
  replace (find _ _) with (@None RawAttendanceInput); [reflexivity|].
  symmetry. apply find_None. intros x Hx. apply not_true_is_false. intros C.
  apply (proj1 (sameDay_iff _ _ Hd)) in C. now apply (Hn x).
Qed.

(** Either some entry is the first of its day, or the day has none. *)
Lemma first_or_none (raws : list RawAttendanceInput) (day : Z) :
  1 <= day <= lastDayOfMonth year month ->
  (exists e, FirstOnDay raws year month day e) \/ NoneOnDay raws year month day.
Proof using Hy Hm.
  intros Hd.
  destruct (find (matchesDay year month day) raws) as [e|] eqn:F.
  - left. exists e. apply find_first in F as (l1 & l2 & -> & He & Hl1).
    exists l1, l2. split; [reflexivity|split].
    + apply (proj1 (sameDay_iff _ _ Hd)). exact He.
    + intros x Hx C. apply (proj2 (sameDay_iff _ _ Hd)) in C.
      specialize (Hl1 x Hx). unfold matchesDay in Hl1. congruence.
  - right. intros x Hx C. apply (proj2 (sameDay_iff _ _ Hd)) in C.
    pose proof (proj1 (find_None _ _) F x Hx) as N. unfold matchesDay in N. congruence.
Qed.

Lemma processMonthlyAttendance_unfold (raws : list RawAttendanceInput) :
  processMonthlyAttendance year month raws
  = mapM (processDate (normalizeRecords raws))
         (map (midnightOf year month) (daysOfMonth year month)).
Proof using Hy Hm.
  unfold processMonthlyAttendance.
  now rewrite generateMonthDates_Ok.
Qed.

(** A successful call returns, position by position, what the callback
    returns on the days of the month. *)
Lemma processMonthlyAttendance_Ok (raws : list RawAttendanceInput)
    (recs : list ProcessedAttendanceRecord) :
  processMonthlyAttendance year month raws = Ok recs <->
  List.length recs = Z.to_nat (lastDayOfMonth year month) /\
  forall i r, nth_error recs i = Some r ->
              processDate (normalizeRecords raws) (midnightOf year month (Z.of_nat (1 + i))) = Ok r.
Proof using Hy Hm.
  rewrite processMonthlyAttendance_unfold.
  rewrite mapM_Ok, Forall2_map_l. unfold daysOfMonth, dayRange.
  apply Forall2_days.
Qed.

Lemma recordOfDay_processDate (raws : list RawAttendanceInput)
    (recs : list ProcessedAttendanceRecord) (day : Z) :
  processMonthlyAttendance year month raws = Ok recs ->
  1 <= day <= lastDayOfMonth year month ->
  exists r, recordOfDay recs day = Some r /\
            processDate (normalizeRecords raws) (midnightOf year month day) = Ok r.
Proof using Hy Hm.
  intros H Hd. apply processMonthlyAttendance_Ok in H as [Hlen Hnth]; auto.
  unfold recordOfDay.
  destruct (nth_error recs (Z.to_nat (day - 1))) as [r|] eqn:E.
  - exists r. split; [reflexivity|]. apply Hnth in E.
    now replace (Z.of_nat (1 + Z.to_nat (day - 1))) with day in E by lia.
  - apply nth_error_None in E. lia.
Qed.

Lemma processDate_first (raws : list RawAttendanceInput) (day : Z)
    (e : RawAttendanceInput) :
  1 <= day <= lastDayOfMonth year month ->
  FirstOnDay raws year month day e ->
  processDate (normalizeRecords raws) (midnightOf year month day)
  = (w <- calculateWorkedHours (raw_inTime e) (raw_outTime e) ;;
     Ok {| employeeId := raw_employeeId e;
           date := midnightOf year month day;
           inTime := Some (raw_inTime e);
           outTime := Some (raw_outTime e);
           workedHours := w;
           status := PRESENT |}).
Proof using Hy Hm.
  intros Hd F. unfold processDate.
  now rewrite (findRecordForDate_first raws day e).
Qed.

Lemma processDate_none (raws : list RawAttendanceInput) (day : Z) :
  1 <= day <= lastDayOfMonth year month ->
  NoneOnDay raws year month day ->
  processDate (normalizeRecords raws) (midnightOf year month day)
  = Ok {| employeeId := firstEmployeeId (normalizeRecords raws);
          date := midnightOf year month day;
          inTime := None;
          outTime := None;
          workedHours := 0;
          status := if isSunday (midnightOf year month day) then WEEKEND else ABSENT |}.
Proof using Hy Hm.
  intros Hd N. unfold processDate.
  rewrite (findRecordForDate_none raws day) by assumption.
  now destruct (isSunday _).
Qed.

(** The dates of the output are the generated dates, in their order. *)
Lemma processMonthlyAttendance_dates (raws : list RawAttendanceInput)
    (recs : list ProcessedAttendanceRecord) :
  processMonthlyAttendance year month raws = Ok recs ->
  map date recs = map (midnightOf year month) (daysOfMonth year month).
Proof using Hy Hm.
  rewrite processMonthlyAttendance_unfold.
  rewrite mapM_Ok. generalize (map (midnightOf year month) (daysOfMonth year month)).
  intros ds H. induction H as [|d r ds recs Hr _ IH]; simpl; [reflexivity|].
  apply processDate_date in Hr. congruence.
Qed.

(** The call succeeds exactly when the times of every entry that is the
    first of a day of the month are accepted. *)
Lemma processMonthlyAttendance_succeeds (raws : list RawAttendanceInput) :
  (exists recs, processMonthlyAttendance year month raws = Ok recs) <->
  (forall day e, 1 <= day <= lastDayOfMonth year month ->
                 FirstOnDay raws year month day e ->
                 AcceptedTime (raw_inTime e) /\ AcceptedTime (raw_outTime e)).
Proof using Hy Hm.
  split.
  - intros [recs H] day e Hd F.
    destruct (recordOfDay_processDate _ _ day H Hd) as (r & _ & P).
    rewrite (processDate_first raws day e) in P by assumption.
    apply bind_Ok in P as (w & P & _). eapply calculateWorkedHours_Accepted, P.
  - intros A. rewrite processMonthlyAttendance_unfold.
    apply mapM_total. intros d Hin.
    apply in_map_iff in Hin as (day & <- & Hd). apply In_daysOfMonth in Hd.
    destruct (first_or_none raws day Hd) as [[e F] | N].
    + rewrite (processDate_first raws day e) by assumption.
      destruct (A day e Hd F) as [Ai Ao].
      destruct (calculateWorkedHours_Ok _ _ Ai Ao) as (a & b & _ & _ & _ & _ & ->).
      simpl. eauto.
    + rewrite processDate_none by assumption. eauto.
Qed.

End TargetMonth.

(** * The claims *)

(** C1 (amended).  For a year from 1900 to 2100 and a month from 1 to 12,
    whatever the raw entries: a call that returns has returned exactly one
    record per day of the month, at the midnight of day 1 up to the last day
    (29 days in the February of a leap year), in ascending order of date and
    without two records of one date, so that the length of the output is the
    number of days of the month.  The call returns exactly when the in and
    out times of every entry that is the first one dated on a day of the
    month are accepted by the time parser; entries dated outside the month
    have no influence on that. *)
Theorem processMonthlyAttendance_one_record_per_day
    (year month : Z) (raws : list RawAttendanceInput) :
  1900 <= year <= 2100 -> 1 <= month <= 12 ->
  (forall recs,
     processMonthlyAttendance year month raws = Ok recs ->
     Z.of_nat (List.length recs) = lastDayOfMonth year month /\
     (forall day, 1 <= day <= lastDayOfMonth year month ->
        exists r, recordOfDay recs day = Some r /\
                  AtMidnight (date r) /\ OnCalendarDay (date r) year month day) /\
     (forall d1 d2 r1 r2,
        1 <= d1 < d2 -> recordOfDay recs d1 = Some r1 -> recordOfDay recs d2 = Some r2 ->
        Earlier (date r1) (date r2)) /\
     NoDup (map date recs)) /\
  ((exists recs, processMonthlyAttendance year month raws = Ok recs) <->
   (forall day e, 1 <= day <= lastDayOfMonth year month ->
                  FirstOnDay raws year month day e ->
                  AcceptedTime (raw_inTime e) /\ AcceptedTime (raw_outTime e))).
Proof.
  intros Hy Hm. split; [|now apply processMonthlyAttendance_succeeds].
  intros recs H. pose proof (lastDayOfMonth_bounds year month) as B.
  pose proof (proj1 (processMonthlyAttendance_Ok year month Hy Hm _ _) H) as [Hlen _].
  assert (D : forall day r, 1 <= day -> recordOfDay recs day = Some r ->
                            day <= lastDayOfMonth year month /\
                            date r = midnightOf year month day).
  { intros day r H1 Hr. pose proof (recordOfDay_Some _ _ _ H1 Hr) as L.
    assert (Hd : 1 <= day <= lastDayOfMonth year month) by lia.
    split; [lia|].
    destruct (recordOfDay_processDate year month Hy Hm _ _ day H Hd) as (r' & Hr' & P).
    apply processDate_date in P. congruence. }
  split; [lia|]. split; [|split].
  - intros day Hd.
    destruct (recordOfDay_processDate year month Hy Hm _ _ day H Hd) as (r & Hr & P).
    exists r. split; [exact Hr|]. apply processDate_date in P. rewrite P.
    now apply midnightOf_calendar.
  - intros d1 d2 r1 r2 Hlt H1 H2.
    destruct (D d1 r1 ltac:(lia) H1) as [_ ->].
    destruct (D d2 r2 ltac:(lia) H2) as [_ ->].
    apply midnightOf_lt. lia.
  - rewrite (processMonthlyAttendance_dates year month Hy Hm _ _ H).
    apply NoDup_map_inj; [|apply daysOfMonth_NoDup].
    intros x y _ _. apply midnightOf_inj.
Qed.

Lemma processMonthlyAttendance_one_record_per_day_witness :
  exists recs,
    processMonthlyAttendance 2024 1 [jan2] = Ok recs /\
    Z.of_nat (List.length recs) = lastDayOfMonth 2024 1 /\
    NoDup (map date recs).
Proof.
  destruct (processMonthlyAttendance_one_record_per_day 2024 1 [jan2]) as [S _];
    [lia | lia |].
  eexists. split; [vm_compute; reflexivity|].
  edestruct S as (L & _ & _ & N); [vm_compute; reflexivity|].
  split; [exact L | exact N].
Defined.

(** C1, as stated, fails: one entry of the month with an hour of 25 makes
    the call throw, so that no record at all is returned for January 2024. *)
Lemma processMonthlyAttendance_returns_nothing_on_bad_time :
  processMonthlyAttendance 2024 1 [badJan2]
  = Throw (InvalidTimeFormatError "25:00" "Use 24-hour format: HH:MM (e.g., 09:30, 14:45).") /\
  ~ (exists recs, processMonthlyAttendance 2024 1 [badJan2] = Ok recs /\
                  Z.of_nat (List.length recs) = lastDayOfMonth 2024 1).
Proof.
  assert (H : processMonthlyAttendance 2024 1 [badJan2]
              = Throw (InvalidTimeFormatError "25:00"
                         "Use 24-hour format: HH:MM (e.g., 09:30, 14:45)."))
    by (vm_compute; reflexivity).
  split; [exact H|]. intros (recs & E & _). rewrite H in E. discriminate.
Qed.

(** C2.  In the output of a successful call, the record of each day of the
    month is the record dated at the midnight of that day of the calendar,
    and it is as follows.  If some entry is dated on that day, then for the
    first such entry: status PRESENT, the worked hours that
    [calculateWorkedHours] returns on its in and out times, and these two
    strings unchanged.  If no entry is dated on that day: status WEEKEND
    when that day of the calendar is a Sunday and ABSENT on any other day (a
    Saturday too), no in or out time and 0 worked hours.  One of the two
    cases always applies. *)
Theorem processMonthlyAttendance_record_of_day
    (year month : Z) (raws : list RawAttendanceInput)
    (recs : list ProcessedAttendanceRecord) (day : Z) :
  1900 <= year <= 2100 -> 1 <= month <= 12 ->
  processMonthlyAttendance year month raws = Ok recs ->
  1 <= day <= lastDayOfMonth year month ->
  exists r,
    recordOfDay recs day = Some r /\
    date r = midnightOf year month day /\
    OnCalendarDay (date r) year month day /\
    (forall e, FirstOnDay raws year month day e ->
       status r = PRESENT /\
       calculateWorkedHours (raw_inTime e) (raw_outTime e) = Ok (workedHours r) /\
       inTime r = Some (raw_inTime e) /\ outTime r = Some (raw_outTime e)) /\
    (NoneOnDay raws year month day ->
       (dayOfWeek (midnightOf year month day) = Some Sunday -> status r = WEEKEND) /\
       (dayOfWeek (midnightOf year month day) <> Some Sunday -> status r = ABSENT) /\
       (dayOfWeek (midnightOf year month day) = Some Saturday -> status r = ABSENT) /\
       inTime r = None /\ outTime r = None /\ workedHours r = 0%Q) /\
    ((exists e, FirstOnDay raws year month day e) \/ NoneOnDay raws year month day).
Proof.
  intros Hy Hm H Hd.
  destruct (recordOfDay_processDate year month Hy Hm _ _ day H Hd) as (r & Hr & P).
  pose proof (processDate_date _ _ _ P) as D.
  exists r. split; [exact Hr|]. split; [exact D|]. split; [|split; [|split]].
  - rewrite D. now apply midnightOf_calendar.
  - intros e F. rewrite (processDate_first year month Hy Hm raws day e) in P by assumption.
    apply bind_Ok in P as (w & W & [= <-]). simpl. auto.
  - intros N. rewrite processDate_none in P by assumption.
    injection P as <-. simpl.
    destruct (isSunday (midnightOf year month day)) eqn:S.
    + apply isSunday_iff in S. repeat split; auto; congruence.
    + repeat split; auto. intros C. apply isSunday_iff in C. congruence.
  - now apply first_or_none.
Qed.

Lemma jan2_first : FirstOnDay [jan2] 2024 1 2 jan2.
Proof.
  exists [], []. split; [reflexivity|]. split.
  - repeat split; vm_compute; reflexivity.
  - intros e' [].
Qed.

Lemma jan2_none_on (day : Z) : day <> 2 -> NoneOnDay [jan2] 2024 1 day.
Proof.
  intros D e [<- | []] (_ & _ & C). vm_compute in C. congruence.
Qed.

(** The month of the example: Tuesday 2 January is worked, Saturday 6 is a
    day of absence and Sunday 7 a weekend. *)
Lemma processMonthlyAttendance_record_of_day_witness :
  exists recs r2 r6 r7,
    processMonthlyAttendance 2024 1 [jan2] = Ok recs /\
    recordOfDay recs 2 = Some r2 /\ date r2 = newDate 2024 0 2 /\
    status r2 = PRESENT /\
    inTime r2 = Some "09:00"%string /\ outTime r2 = Some "17:30"%string /\
    recordOfDay recs 6 = Some r6 /\ date r6 = newDate 2024 0 6 /\ status r6 = ABSENT /\
    recordOfDay recs 7 = Some r7 /\ date r7 = newDate 2024 0 7 /\ status r7 = WEEKEND.
Proof.
  assert (exists recs, processMonthlyAttendance 2024 1 [jan2] = Ok recs) as [recs E]
    by (eexists; vm_compute; reflexivity).
  exists recs.
  destruct (processMonthlyAttendance_record_of_day 2024 1 [jan2] recs 2)
    as (r2 & H2 & D2 & _ & F2 & _);
    [lia | lia | exact E | vm_compute; split; discriminate |].
  destruct (processMonthlyAttendance_record_of_day 2024 1 [jan2] recs 6)
    as (r6 & H6 & D6 & _ & _ & N6 & _);
    [lia | lia | exact E | vm_compute; split; discriminate |].
  destruct (processMonthlyAttendance_record_of_day 2024 1 [jan2] recs 7)
    as (r7 & H7 & D7 & _ & _ & N7 & _);
    [lia | lia | exact E | vm_compute; split; discriminate |].
  exists r2, r6, r7. split; [exact E|].
  destruct (F2 jan2 jan2_first) as (S & _ & I & O).
  destruct (N6 (jan2_none_on 6 ltac:(lia))) as (_ & _ & A6 & _).
  destruct (N7 (jan2_none_on 7 ltac:(lia))) as (W7 & _).
  repeat split; try assumption.
  - apply A6. vm_compute. reflexivity.
  - apply W7. vm_compute. reflexivity.
Defined.

(** C3.  If an entry that is the first one dated on some day of the month
    has an in or out time that the parser does not accept, the call throws
    and returns no list.  What it throws is, unchanged, the
    [InvalidTimeFormatError] that [calculateWorkedHours] throws on the first
    entry of the earliest day of the month that has such an entry. *)
Theorem processMonthlyAttendance_aborts_on_bad_time
    (year month : Z) (raws : list RawAttendanceInput) (day : Z) (e : RawAttendanceInput) :
  1900 <= year <= 2100 -> 1 <= month <= 12 ->
  1 <= day <= lastDayOfMonth year month ->
  FirstOnDay raws year month day e ->
  ~ AcceptedTime (raw_inTime e) \/ ~ AcceptedTime (raw_outTime e) ->
  exists timeString details,
    processMonthlyAttendance year month raws
    = Throw (InvalidTimeFormatError timeString details) /\
    exists day' e',
      1 <= day' <= day /\
      FirstOnDay raws year month day' e' /\
      calculateWorkedHours (raw_inTime e') (raw_outTime e')
      = Throw (InvalidTimeFormatError timeString details) /\
      forall d e0,
        1 <= d < day' -> FirstOnDay raws year month d e0 ->
        AcceptedTime (raw_inTime e0) /\ AcceptedTime (raw_outTime e0).
Proof.
  intros Hy Hm Hd F N.
  destruct (calculateWorkedHours_rejected _ _ N) as (ts & d & C).
  assert (P : processDate (normalizeRecords raws) (midnightOf year month day)
              = Throw (InvalidTimeFormatError ts d)).
  { rewrite (processDate_first year month Hy Hm raws day e) by assumption. now rewrite C. }
  assert (I : In (midnightOf year month day)
                 (map (midnightOf year month) (daysOfMonth year month)))
    by (apply in_map, In_daysOfMonth, Hd).
  destruct (mapM_fails _ _ _ _ I P) as [err T].
  rewrite <- processMonthlyAttendance_unfold in T by assumption.
  pose proof T as T'. rewrite processMonthlyAttendance_unfold in T' by assumption.
  apply mapM_Throw in T' as (l1 & a & l2 & E & Pa & bs & Pl1).
  apply map_eq_app in E as (d1 & d2' & E & <- & E2).
  apply map_eq_cons in E2 as (day' & d2 & -> & <- & _).
  destruct (days_split _ _ _ _ E) as [Hday' Hbefore].
  assert (Hd' : 1 <= day' <= lastDayOfMonth year month).
  { apply In_daysOfMonth. rewrite E. apply in_elt. }
  assert (Hok : forall d0, 1 <= d0 < day' ->
                exists r, processDate (normalizeRecords raws) (midnightOf year month d0) = Ok r).
  { intros d0 H0. apply mapM_Ok in Pl1.
    apply (Forall2_In_l _ _ _ _ Pl1), in_map, Hbefore, H0. }
  destruct (first_or_none year month Hy Hm raws day' Hd') as [[e' F'] | N'].
  - rewrite (processDate_first year month Hy Hm raws day' e') in Pa by assumption.
    apply bind_Throw in Pa as [Pa | (w & _ & Pa)]; [|cbv beta in Pa; discriminate].
    destruct (calculateWorkedHours_Throw _ _ _ Pa) as (ts' & d' & ->).
    exists ts', d'. split; [exact T|]. exists day', e'.
    split; [|split; [exact F'|split; [exact Pa|]]].
    + split; [lia|]. destruct (Z_le_gt_dec day' day) as [L | G]; [exact L|].
      destruct (Hok day ltac:(lia)) as [r Hr]. congruence.
    + intros d0 e0 H0 F0. destruct (Hok d0 H0) as [r Hr].
      rewrite (processDate_first year month Hy Hm raws d0 e0) in Hr by (assumption || lia).
      apply bind_Ok in Hr as (w & W & _). eapply calculateWorkedHours_Accepted, W.
  - rewrite processDate_none in Pa by assumption. discriminate.
Qed.

Lemma badJan2_first : FirstOnDay [badJan2] 2024 1 2 badJan2.
Proof.
  exists [], []. split; [reflexivity|]. split.
  - repeat split; vm_compute; reflexivity.
  - intros e' [].
Qed.

Lemma not_accepted_25 : ~ AcceptedTime "25:00".
Proof. rewrite AcceptedTime_iff_valid. vm_compute. discriminate. Qed.

Lemma processMonthlyAttendance_aborts_on_bad_time_witness :
  exists timeString details,
    processMonthlyAttendance 2024 1 [badJan2]
    = Throw (InvalidTimeFormatError timeString details).
Proof.
  destruct (processMonthlyAttendance_aborts_on_bad_time 2024 1 [badJan2] 2 badJan2)
    as (ts & d & T & _);
    [lia | lia | vm_compute; split; discriminate | exact badJan2_first
    | left; exact not_accepted_25 |].
  exists ts, d. exact T.
Defined.

Local Open Scope Q_scope.

(** C4 (amended).  On the empty list [calculateAggregateProductivity] throws
    a [CalculationError], and on a list with a record of invalid date an
    [InvalidDateError].  On a non-empty list of records of valid dates, with
    A the sum of the worked hours as the loop adds them and E the sum of
    [getExpectedHours] of the dates of the records: the percentage is
    [calculateProductivity] of A and E themselves, not of their rounded
    values; when that call throws (A is negative), the aggregate throws the
    same error; otherwise the aggregate returns that percentage, with A
    rounded to two decimals as actual hours and E rounded to two decimals as
    expected hours, a sum within the error of the operations of a tie going
    to either neighbour.  For non-negative worked hours, A is their sum up
    to a relative error of 2^-52 for each record. *)
Theorem calculateAggregateProductivity_totals :
  calculateAggregateProductivity []
  = Throw (CalculationError RecordsMustBeNonEmpty "calculateAggregateProductivity") /\
  (forall records r,
     In r records -> date r = InvalidDate ->
     calculateAggregateProductivity records = Throw (InvalidDateError InvalidDateProvided)) /\
  (forall records expected,
     records <> [] ->
     Forall2 (fun r x => getExpectedHours (date r) = Ok x) records expected ->
     (forall p,
        calculateProductivity (runningTotal (map workedHours records)) (total expected) = Ok p ->
        exists metrics,
          calculateAggregateProductivity records = Ok metrics /\
          productivityPercentage metrics = p /\
          RoundedTo 2 (runningTotal (map workedHours records)) (actualHours metrics) /\
          RoundedTo 2 (total expected) (expectedHours metrics)) /\
     (forall e,
        calculateProductivity (runningTotal (map workedHours records)) (total expected)
        = Throw e ->
        calculateAggregateProductivity records = Throw e)) /\
  (forall records,
     Forall (fun r => 0 <= workedHours r) records ->
     (Z.of_nat (List.length records) <= 4503599627370496)%Z ->
     Qabs (runningTotal (map workedHours records) - total (map workedHours records))
     <= total (map workedHours records)
        * (inject_Z (Z.of_nat (List.length records)) * (1 # 4503599627370496))).
Proof.
  split; [reflexivity|]. split; [|split].
  - intros records r Hin Hr. destruct records as [|r' records]; [destruct Hin|].
    unfold calculateAggregateProductivity.
    now rewrite (sumHours_invalid (r' :: records) r Hin Hr).
  - intros records expected Hne F.
    destruct records as [|r records]; [congruence|].
    unfold calculateAggregateProductivity. rewrite (sumHours_Ok _ _ F).
    cbn [bind]. fold (runningTotal (map workedHours (r :: records))). fold (total expected).
    split.
    + intros p Hp. rewrite Hp. cbn [bind].
      destruct (calculateProductivity_Ok_nonneg _ _ _ Hp) as [Ha He].
      eexists. split; [reflexivity|].
      cbn [productivityPercentage actualHours expectedHours].
      split; [reflexivity|]. split; now apply RoundedTo_hundredths.
    + intros e He. now rewrite He.
  - intros records P Hn. rewrite <- (length_map workedHours records) in *.
    apply runningTotal_near; [|exact Hn].
    apply Forall_forall. intros x Hx. apply in_map_iff in Hx as (r & <- & Hr).
    rewrite Forall_forall in P. now apply P.
Qed.

Lemma calculateAggregateProductivity_totals_witness :
  (exists metrics,
     calculateAggregateProductivity [monday] = Ok metrics /\
     productivityPercentage metrics = 98.1 /\
     RoundedTo 2 (runningTotal [8.3345]) (actualHours metrics) /\
     RoundedTo 2 (total [8.5]) (expectedHours metrics)) /\
  Qabs (runningTotal [8.3345] - total [8.3345])
  <= total [8.3345] * (1 * (1 # 4503599627370496)).
Proof.
  destruct calculateAggregateProductivity_totals as (_ & _ & H & N).
  split.
  - destruct (H [monday] [8.5]) as [HOk _].
    + discriminate.
    + repeat constructor.
    + apply HOk. vm_compute. reflexivity.
  - apply (N [monday]); [repeat constructor; discriminate | vm_compute; discriminate].
Defined.

(** C4, as stated, fails: for one Monday of 8.3345 worked hours the
    aggregate reports 8.33 actual hours, 8.5 expected hours and 98.1 percent,
    while [calculateProductivity] of the reported 8.33 and 8.5 is 98.0. *)
Lemma calculateAggregateProductivity_not_from_rounded_sums :
  exists metrics,
    calculateAggregateProductivity [monday] = Ok metrics /\
    actualHours metrics == 8.33 /\ expectedHours metrics == 8.5 /\
    productivityPercentage metrics == 98.1 /\
    Returns (calculateProductivity (actualHours metrics) (expectedHours metrics)) 98.0 /\
    ~ Returns (calculateProductivity (actualHours metrics) (expectedHours metrics))
        (productivityPercentage metrics).
Proof.
  eexists. split; [vm_compute; reflexivity|]. cbn [actualHours expectedHours productivityPercentage].
  repeat split; try reflexivity.
  - eexists. split; [vm_compute; reflexivity | reflexivity].
  - intros (w & H & E). vm_compute in H. injection H as <-. discriminate.
Qed.

(** What C4 leaves open near a tie: the double nearest to 0.015 is below
    0.015 and is reported as 0.02, its product by 100 being 1.5; the double
    nearest to 1.005 is below 1.005 and is reported as 1. *)
Lemma calculateAggregateProductivity_near_a_tie :
  (double 0.015 < 0.015 /\
   exists metrics,
     calculateAggregateProductivity [mondayOf (double 0.015)] = Ok metrics /\
     actualHours metrics == 0.02) /\
  (double 1.005 < 1.005 /\
   exists metrics,
     calculateAggregateProductivity [mondayOf (double 1.005)] = Ok metrics /\
     actualHours metrics == 1).
Proof.
  split; (split; [reflexivity|]); eexists; (split; [vm_compute; reflexivity | reflexivity]).
Qed.

(** C5.  On two accepted time strings, [calculateWorkedHours] returns the
    out time minus the in time when the out time is not before the in time,
    and 24 minus the in time plus the out time otherwise, rounded to two
    decimal places with ties away from zero.  From 09:00 to 17:30 it returns
    8.5, from 23:00 to 01:00 it returns 2, from 09:00 to 09:00 it returns 0. *)
Theorem calculateWorkedHours_elapsed :
  (forall i o,
     AcceptedTime i -> AcceptedTime o ->
     exists a b w,
       parseTime i = Ok a /\ parseTime o = Ok b /\
       calculateWorkedHours i o = Ok w /\
       (a <= b -> w = roundHalfAwayFromZero 2 (b - a)) /\
       (b < a -> w = roundHalfAwayFromZero 2 (24 - a + b))) /\
  Returns (calculateWorkedHours "09:00" "17:30") 8.5 /\
  Returns (calculateWorkedHours "23:00" "01:00") 2.0 /\
  Returns (calculateWorkedHours "09:00" "09:00") 0.0.
Proof.
  split.
  - intros i o Ai Ao.
    destruct (calculateWorkedHours_Ok i o Ai Ao) as (a & b & Pa & Pb & Ba & Bb & H).
    exists a, b, (inject_Z (Math_round (elapsed a b * 100)) / 100).
    split; [exact Pa|]. split; [exact Pb|]. split; [exact H|]. split.
    + intros L. rewrite (proj1 (elapsed_cases a b) L).
      apply (Math_round_half_away 2). lra.
    + intros L. rewrite (proj2 (elapsed_cases a b) L).
      apply (Math_round_half_away 2). lra.
  - repeat split; eexists; (split; [vm_compute; reflexivity | reflexivity]).
Qed.

Lemma accepted_0900 : AcceptedTime "09:00".
Proof. rewrite AcceptedTime_iff_valid. vm_compute. reflexivity. Qed.

Lemma accepted_1730 : AcceptedTime "17:30".
Proof. rewrite AcceptedTime_iff_valid. vm_compute. reflexivity. Qed.

Lemma calculateWorkedHours_elapsed_witness :
  exists a b w,
    parseTime "09:00" = Ok a /\ parseTime "17:30" = Ok b /\
    calculateWorkedHours "09:00" "17:30" = Ok w /\
    (a <= b -> w = roundHalfAwayFromZero 2 (b - a)) /\
    (b < a -> w = roundHalfAwayFromZero 2 (24 - a + b)).
Proof.
  exact (proj1 calculateWorkedHours_elapsed "09:00"%string "17:30"%string
           accepted_0900 accepted_1730).
Defined.

(** C6.  On two accepted time strings, the duration that
    [calculateWorkedHours] computes is between 0 and 24, and so is the value
    it returns: the out-of-range branch is not taken.  Whatever the strings,
    the function never throws a [CalculationError]. *)
Theorem calculateWorkedHours_in_range (i o : string) :
  (AcceptedTime i -> AcceptedTime o ->
   exists a b w,
     parseTime i = Ok a /\ parseTime o = Ok b /\
     0 <= elapsed a b <= 24 /\
     calculateWorkedHours i o = Ok w /\ 0 <= w <= 24) /\
  (forall message context,
     calculateWorkedHours i o <> Throw (CalculationError message context)).
Proof.
  split.
  - intros Ai Ao.
    destruct (calculateWorkedHours_Ok i o Ai Ao) as (a & b & Pa & Pb & Ba & Bb & H).
    pose proof (elapsed_bounds a b Ba Bb) as E.
    exists a, b, (inject_Z (Math_round (elapsed a b * 100)) / 100).
    split; [exact Pa|]. split; [exact Pb|]. split; [exact E|]. split; [exact H|].
    apply round2_bounds; exact E.
  - intros message context H.
    apply calculateWorkedHours_Throw in H as (ts & d & H). discriminate.
Qed.

Lemma calculateWorkedHours_in_range_witness :
  exists a b w,
    parseTime "09:00" = Ok a /\ parseTime "17:30" = Ok b /\
    0 <= elapsed a b <= 24 /\
    calculateWorkedHours "09:00" "17:30" = Ok w /\ 0 <= w <= 24.
Proof.
  exact (proj1 (calculateWorkedHours_in_range "09:00" "17:30") accepted_0900 accepted_1730).
Defined.





(** C8 (amended).  [calculateProductivity] throws a [CalculationError] when
    the actual or the expected hours are negative.  Otherwise it returns 100
    when the expected hours are 0, whatever the actual hours, and when they
    are not, actual / expected * 100 rounded to one decimal place as the
    double precision of the quotient and of its two products allows: a
    whole number of tenths within 0.05 of the ratio and one part in 10^15,
    so not clamped at 100; it is the tenth [n / 10] whenever ten times the
    ratio is nearer to the integer [n] than half a unit less that error,
    and only a ratio on a tie, or that near to one, can go to either
    neighbour.  [calculateProductivity(8.5, 8.5)] is 100,
    [calculateProductivity(0, 0)] is 100 and [calculateProductivity(9.5,
    8.5)] is 111.8. *)
Theorem calculateProductivity_cases :
  (forall a e,
     a < 0 \/ e < 0 ->
     exists message,
       calculateProductivity a e = Throw (CalculationError message "calculateProductivity")) /\
  (forall a e, 0 <= a -> e == 0 -> calculateProductivity a e = Ok 100) /\
  (forall a e,
     0 <= a -> 0 < e ->
     exists p,
       calculateProductivity a e = Ok p /\
       RoundedTo 1 (a / e * 100) p /\
       forall n : Z,
         Qabs (a / e * 1000 - inject_Z n)
         < (1 # 2) - a / e * 1000 * (1 # 1000000000000000) ->
         p = inject_Z n / 10) /\
  Returns (calculateProductivity 8.5 8.5) 100.0 /\
  Returns (calculateProductivity 0 0) 100.0 /\
  Returns (calculateProductivity 9.5 8.5) 111.8.
Proof.
  split; [|split; [|split]].
  - intros a e N. unfold calculateProductivity.
    destruct (Qltb a 0) eqn:A; [eauto|].
    destruct (Qltb e 0) eqn:E; [eauto|].
    apply Qltb_false in A, E. exfalso. destruct N as [N | N]; lra.
  - intros a e Ha He. unfold calculateProductivity.
    rewrite (proj2 (Qltb_false a 0) Ha).
    assert (E : 0 <= e) by (rewrite He; apply Qle_refl).
    rewrite (proj2 (Qltb_false e 0) E).
    now rewrite (proj2 (Qeq_bool_iff e 0) He).
  - intros a e Ha He. eexists. split; [now apply calculateProductivity_positive|].
    split; [now apply RoundedTo_tenths|].
    intros n Hn. do 2 f_equal. now apply Math_round_scaledRatio.
  - repeat split; eexists; (split; [vm_compute; reflexivity | reflexivity]).
Qed.

Lemma calculateProductivity_cases_witness :
  (exists message,
     calculateProductivity (-1) 5 = Throw (CalculationError message "calculateProductivity")) /\
  calculateProductivity 4 0 = Ok 100 /\
  exists p, calculateProductivity 7 8.5 = Ok p /\ RoundedTo 1 (7 / 8.5 * 100) p /\ p = 82.4.
Proof.
  destruct calculateProductivity_cases as (T & Z & P & _).
  split; [apply T; left; reflexivity|].
  split; [apply Z; [discriminate | reflexivity]|].
  destruct (P 7 8.5) as (p & Hp & R & N); [discriminate | reflexivity |].
  exists p. split; [exact Hp|]. split; [exact R|].
  apply (N 824%Z). vm_compute. reflexivity.
Defined.

(** C8, as stated, fails on a tie: 23 hours out of 80 are 28.75 percent,
    which rounds to 28.8, and [calculateProductivity] returns 28.7, the
    quotient in double precision being below 0.2875. *)
Lemma calculateProductivity_rounds_a_tie_down :
  23 / 80 * 100 == 28.75 /\
  roundHalfAwayFromZero 1 (23 / 80 * 100) == 28.8 /\
  double (23 / 80) < 23 / 80 /\
  Returns (calculateProductivity 23 80) 28.7 /\
  ~ Returns (calculateProductivity 23 80) (roundHalfAwayFromZero 1 (23 / 80 * 100)).
Proof.
  split; [reflexivity|]. split; [reflexivity|]. split; [reflexivity|]. split.
  - eexists. split; [vm_compute; reflexivity | reflexivity].
  - intros (w & H & E). vm_compute in H. injection H as <-. discriminate.
Qed.

(** C9.  Every valid date has a day of the week, and [getExpectedHours]
    depends on nothing else: it returns 0.0 on a Sunday, 4.0 on a Saturday
    and 8.5 from Monday to Friday.  On the invalid date it throws an
    [InvalidDateError].  The days of the week follow each other from one day
    to the next, and 1 January 2024 is a Monday (8.5), 6 January 2024 a
    Saturday (4.0), 7 January 2024 a Sunday (0.0), 29 February 2024 a
    Thursday (8.5). *)
Theorem getExpectedHours_by_day_of_week :
  (forall t, exists w,
     dayOfWeek (DateAt t) = Some w /\
     dayOfWeek (DateAt (t + msPerDay)) = Some (nextDay w) /\
     getExpectedHours (DateAt t) = Ok (expectedHoursOn w)) /\
  getExpectedHours InvalidDate = Throw (InvalidDateError InvalidDateProvided) /\
  (dayOfWeek (newDate 2024 0 1) = Some Monday /\
   getExpectedHours (newDate 2024 0 1) = Ok 8.5) /\
  (dayOfWeek (newDate 2024 0 6) = Some Saturday /\
   getExpectedHours (newDate 2024 0 6) = Ok 4.0) /\
  (dayOfWeek (newDate 2024 0 7) = Some Sunday /\
   getExpectedHours (newDate 2024 0 7) = Ok 0.0) /\
  (dayOfWeek (newDate 2024 1 29) = Some Thursday /\
   getExpectedHours (newDate 2024 1 29) = Ok 8.5).
Proof.
  split; [|repeat split; vm_compute; reflexivity].
  intros t.
  unfold dayOfWeek, getExpectedHours, isSunday, isSaturday, getDay.
  cbn [getTime option_map strictEq]. rewrite Day_next, WeekDay_next.
  pose proof (WeekDay_bounds (Day t)) as B.
  destruct (WeekDay (Day t)) as [|[[|[]|]|[[]|[]|]|]|]; try lia;
    eexists; repeat split; reflexivity.
Qed.

Local Close Scope Q_scope.

(** C10.  With no raw entry at all the call succeeds and every record has
    the empty string as employee id.  In general the record of a day on
    which no entry is dated has the employee id of the first entry of the
    input list, whatever the date of that entry, and the empty string when
    the list is empty. *)
Theorem gap_filled_employeeId :
  (forall year month,
     1900 <= year <= 2100 -> 1 <= month <= 12 ->
     exists recs,
       processMonthlyAttendance year month [] = Ok recs /\
       forall r, In r recs -> employeeId r = ""%string) /\
  (forall year month raws recs day r,
     1900 <= year <= 2100 -> 1 <= month <= 12 ->
     processMonthlyAttendance year month raws = Ok recs ->
     1 <= day <= lastDayOfMonth year month ->
     recordOfDay recs day = Some r ->
     NoneOnDay raws year month day ->
     employeeId r = match raws with
                    | first :: _ => raw_employeeId first
                    | [] => ""%string
                    end).
Proof.
  assert (G : forall year month raws recs day r,
     1900 <= year <= 2100 -> 1 <= month <= 12 ->
     processMonthlyAttendance year month raws = Ok recs ->
     1 <= day <= lastDayOfMonth year month ->
     recordOfDay recs day = Some r ->
     NoneOnDay raws year month day ->
     employeeId r = match raws with
                    | first :: _ => raw_employeeId first
                    | [] => ""%string
                    end).
  { intros year month raws recs day r Hy Hm H Hd Hr N.
    destruct (recordOfDay_processDate year month Hy Hm _ _ day H Hd) as (r' & Hr' & P).
    assert (r' = r) by congruence. subst r'.
    rewrite processDate_none in P by assumption. injection P as <-. simpl.
    apply firstEmployeeId_normalized. }
  split; [|exact G].
  intros year month Hy Hm.
  destruct (proj2 (processMonthlyAttendance_succeeds year month Hy Hm [])) as [recs H].
  { intros day e _ (l1 & l2 & E & _). now destruct l1. }
  exists recs. split; [exact H|]. intros r Hin.
  apply In_nth_error in Hin as [i Hi].
  pose proof (proj1 (processMonthlyAttendance_Ok year month Hy Hm _ _) H) as [Hlen _].
  assert (Hlt : (i < List.length recs)%nat) by (apply nth_error_Some; congruence).
  apply (G year month [] recs (Z.of_nat i + 1) r Hy Hm H); [lia | | intros e []].
  unfold recordOfDay. now replace (Z.to_nat (Z.of_nat i + 1 - 1)) with i by lia.
Qed.

Lemma jan2_none_on_3 : NoneOnDay [jan2] 2024 1 3.
Proof.
  intros e [<- | []] (_ & _ & C). vm_compute in C. discriminate.
Qed.

Lemma gap_filled_employeeId_witness :
  exists recs r,
    processMonthlyAttendance 2024 1 [jan2] = Ok recs /\
    recordOfDay recs 3 = Some r /\
    employeeId r = "507f1f77bcf86cd799439011"%string.
Proof.
  assert (exists recs, processMonthlyAttendance 2024 1 [jan2] = Ok recs) as [recs E]
    by (eexists; vm_compute; reflexivity).
  destruct (recordOfDay_processDate 2024 1 ltac:(lia) ltac:(lia) [jan2] recs 3 E)
    as (r & Hr & _); [vm_compute; split; discriminate|].
  exists recs, r. split; [exact E|]. split; [exact Hr|].
  apply (proj2 gap_filled_employeeId 2024 1 [jan2] recs 3 r);
    [lia | lia | exact E | vm_compute; split; discriminate
    | exact Hr | exact jan2_none_on_3].
Defined.

(** * Further properties of the engine *)

(** ** Times as minutes of the day *)

Local Open Scope Q_scope.

Lemma hour_minute_value (h m : Z) :
  inject_Z h + inject_Z m / 60 == inject_Z (60 * h + m) / 60.
Proof.
  rewrite inject_Z_plus, inject_Z_mult. change (inject_Z 60) with 60. field.
Qed.

Lemma inject_Z_sub (a b : Z) : inject_Z (a - b) == inject_Z a - inject_Z b.
Proof. unfold Z.sub. now rewrite inject_Z_plus, inject_Z_opp. Qed.

Lemma Math_round_fraction (n : Z) (d : positive) :
  Math_round (n # d) = ((2 * n + Zpos d) / (2 * Zpos d))%Z.
Proof.
  unfold Math_round.
  assert (E : (n # d) + (1 # 2) == (2 * n + Zpos d) # (2 * d)).
  { unfold Qeq, Qplus. cbn [Qnum Qden]. rewrite !Pos2Z.inj_mul. ring. }
  rewrite E. reflexivity.
Qed.

Lemma Math_round_mono (x y : Q) : x <= y -> (Math_round x <= Math_round y)%Z.
Proof. intros H. unfold Math_round. apply Qfloor_resp_le. lra. Qed.

Lemma Math_round_compat (x y : Q) : x == y -> Math_round x = Math_round y.
Proof. intros H. unfold Math_round. now rewrite H. Qed.

Lemma Math_round_inject_Z (z : Z) : Math_round (inject_Z z) = z.
Proof.
  change (inject_Z z) with (z # 1). rewrite Math_round_fraction. lia.
Qed.

(** The value returned on a duration of [e] minutes. *)
Lemma round2_of_minutes (x : Q) (e : Z) :
  x == inject_Z e / 60 -> Math_round (x * 100) = ((10 * e + 3) / 6)%Z.
Proof.
  intros H.
  assert (E : x * 100 == (5 * e) # 3).
  { rewrite (Qmake_Qdiv (5 * e) 3), H, inject_Z_mult.
    change (inject_Z 5) with 5. change (inject_Z (Zpos 3)) with 3. field. }
  unfold Math_round. rewrite E. fold (Math_round ((5 * e) # 3)).
  rewrite Math_round_fraction. f_equal. lia.
Qed.

Lemma elapsed_of_minutes (a b : Q) (na nb : Z) :
  a == inject_Z na / 60 -> b == inject_Z nb / 60 ->
  elapsed a b == inject_Z (minutesBetween na nb) / 60.
Proof.
  intros Ha Hb. unfold elapsed, minutesBetween.
  assert (L : a <= b <-> (na <= nb)%Z).
  { rewrite Ha, Hb. rewrite Zle_Qle. qdiv_const. split; intros; lra. }
  destruct (Qle_bool a b) eqn:E.
  - apply Qle_bool_iff, L in E. apply Z.leb_le in E. rewrite E, Ha, Hb.
    rewrite inject_Z_sub. field.
  - assert (N : ~ (na <= nb)%Z).
    { intros C. apply L, Qle_bool_iff in C. congruence. }
    apply Z.leb_nle in N. rewrite N, Ha, Hb.
    rewrite inject_Z_plus, inject_Z_sub. change (inject_Z 1440) with 1440. field.
Qed.

(** [calculateWorkedHours] on two written times, through the minutes
    between them. *)
Lemma calculateWorkedHours_minutes (i o : string) (hi mi ho mo : Z) :
  WritesTime (list_ascii_of_string (trim i)) hi mi ->
  WritesTime (list_ascii_of_string (trim o)) ho mo ->
  calculateWorkedHours i o
  = Ok (inject_Z ((10 * minutesBetween (60 * hi + mi) (60 * ho + mo) + 3) / 6) / 100).
Proof.
  intros Wi Wo.
  assert (Ai : AcceptedTime i) by (eapply WritesTime_Matches, Wi).
  assert (Ao : AcceptedTime o) by (eapply WritesTime_Matches, Wo).
  destruct (calculateWorkedHours_Ok i o Ai Ao) as (a & b & Pa & Pb & _ & _ & H).
  rewrite H. do 2 f_equal. f_equal.
  apply round2_of_minutes, elapsed_of_minutes.
  - destruct (WritesTime_parse (trim i) hi mi Wi) as (_ & _ & P).
    destruct (parseTime_trim i a Pa) as [Pa' _].
    assert (a = inject_Z hi + inject_Z mi / 60) by congruence. subst a.
    apply hour_minute_value.
  - destruct (WritesTime_parse (trim o) ho mo Wo) as (_ & _ & P).
    destruct (parseTime_trim o b Pb) as [Pb' _].
    assert (b = inject_Z ho + inject_Z mo / 60) by congruence. subst b.
    apply hour_minute_value.
Qed.

Lemma rounded_minutes_facts (a b : Z) :
  (0 <= a < 1440)%Z -> (0 <= b < 1440)%Z ->
  (0 <= (10 * minutesBetween a b + 3) / 6 <= 2398)%Z /\
  (a = b -> (10 * minutesBetween a b + 3) / 6 = 0)%Z /\
  (a <> b ->
   (2 <= (10 * minutesBetween a b + 3) / 6)%Z /\
   ((10 * minutesBetween a b + 3) / 6 + (10 * minutesBetween b a + 3) / 6 = 2400)%Z).
Proof.
  intros Ha Hb. unfold minutesBetween.
  destruct (Z.leb_spec a b), (Z.leb_spec b a); repeat split; intros; lia.
Qed.

Lemma hundredths_bounds (k lo hi : Z) :
  (lo <= k <= hi)%Z -> inject_Z lo / 100 <= inject_Z k / 100 <= inject_Z hi / 100.
Proof.
  intros [H1 H2]. rewrite Zle_Qle in H1, H2. qdiv_const. split; lra.
Qed.

(** X1.  Between two written times, [calculateWorkedHours] returns at most
    23.98 hours.  It returns 0 in both directions when the two times are the
    same; when they differ, it returns at least 0.02 and the hours from the
    first to the second and from the second to the first add up to 24. *)
Theorem calculateWorkedHours_there_and_back (i o : string) (hi mi ho mo : Z) :
  WritesTime (list_ascii_of_string (trim i)) hi mi ->
  WritesTime (list_ascii_of_string (trim o)) ho mo ->
  exists w1 w2,
    calculateWorkedHours i o = Ok w1 /\ calculateWorkedHours o i = Ok w2 /\
    0 <= w1 <= 23.98 /\
    (hi = ho /\ mi = mo -> w1 == 0 /\ w2 == 0) /\
    (hi <> ho \/ mi <> mo -> 0.02 <= w1 /\ w1 + w2 == 24).
Proof.
  intros Wi Wo.
  rewrite (calculateWorkedHours_minutes i o hi mi ho mo Wi Wo).
  rewrite (calculateWorkedHours_minutes o i ho mo hi mi Wo Wi).
  destruct Wi as (Hhi & Hmi & _), Wo as (Hho & Hmo & _).
  set (a := (60 * hi + mi)%Z). set (b := (60 * ho + mo)%Z).
  assert (Ha : (0 <= a < 1440)%Z) by (subst a; lia).
  assert (Hb : (0 <= b < 1440)%Z) by (subst b; lia).
  destruct (rounded_minutes_facts a b Ha Hb) as (B & Z0 & NZ).
  destruct (rounded_minutes_facts b a Hb Ha) as (_ & Z0' & _).
  eexists _, _. split; [reflexivity|]. split; [reflexivity|]. split; [|split].
  - apply (hundredths_bounds _ 0%Z 2398%Z) in B.
    change (inject_Z 0) with 0 in B. change (inject_Z 2398) with 2398 in B.
    qdiv_const. split; lra.
  - intros [-> ->]. rewrite Z0, Z0' by reflexivity. split; reflexivity.
  - intros N. destruct NZ as [L S]; [subst a b; lia|]. split.
    + assert (B2 : (2 <= (10 * minutesBetween a b + 3) / 6 <= 2398)%Z) by lia.
      apply (hundredths_bounds _ 2%Z 2398%Z) in B2.
      change (inject_Z 2) with 2 in B2. qdiv_const. lra.
    + set (k1 := ((10 * minutesBetween a b + 3) / 6)%Z) in *.
      set (k2 := ((10 * minutesBetween b a + 3) / 6)%Z) in *.
      assert (E : inject_Z k1 + inject_Z k2 == 2400).
      { rewrite <- inject_Z_plus, S. reflexivity. }
      qdiv_const. lra.
Qed.

Lemma writes_0900 : WritesTime (list_ascii_of_string (trim "09:00")) 9 0.
Proof. repeat split; try lia. left. reflexivity. Qed.

Lemma writes_1730 : WritesTime (list_ascii_of_string (trim "17:30")) 17 30.
Proof. repeat split; try lia. left. reflexivity. Qed.

Lemma calculateWorkedHours_there_and_back_witness :
  exists w1 w2,
    calculateWorkedHours "09:00" "17:30" = Ok w1 /\
    calculateWorkedHours "17:30" "09:00" = Ok w2 /\
    w1 + w2 == 24.
Proof.
  destruct (calculateWorkedHours_there_and_back "09:00" "17:30" 9 0 17 30
              writes_0900 writes_1730) as (w1 & w2 & H1 & H2 & _ & _ & S).
  exists w1, w2. split; [exact H1|]. split; [exact H2|].
  apply S. left. discriminate.
Defined.





Local Close Scope Q_scope.

(** ** The times in double precision

    The parser and [calculateWorkedHours] are written on exact numbers.  With
    each operation returning a double, the hours between two written times
    pass the range check all the same and round to the same hundredths. *)

Local Open Scope Q_scope.

Lemma decimalHours_near (h m : Z) :
  (0 <= h <= 23)%Z -> (0 <= m <= 59)%Z ->
  Qabs (decimalHours h m - inject_Z (60 * h + m) / 60) <= 1 # 100000000000000.
Proof.
  intros [H1 H2] [M1 M2]. unfold decimalHours.
  rewrite Zle_Qle in H1, H2, M1, M2.
  change (inject_Z 0) with 0 in *. change (inject_Z 23) with 23 in *.
  change (inject_Z 59) with 59 in *.
  rewrite inject_Z_plus, inject_Z_mult. change (inject_Z 60) with 60.
  set (qh := inject_Z h) in *. set (qm := inject_Z m) in *.
  pose proof (double_near (qm / 60)) as D1.
  assert (A1 : Qabs (qm / 60) <= 1) by (apply Qabs_Qle_condition; qdiv_const; split; lra).
  apply Qabs_Qle_condition in D1.
  pose proof (double_near (qh + double (qm / 60))) as D2.
  assert (A2 : Qabs (qh + double (qm / 60)) <= 25).
  { apply Qabs_Qle_condition. qdiv_const. split; lra. }
  apply Qabs_Qle_condition in D2.
  apply Qabs_Qle_condition. qdiv_const. split; lra.
Qed.

Lemma Math_round_minutes_to_hundredths (y : Q) (d : Z) :
  Qabs (y - inject_Z d / 60 * 100) <= 1 # 10 ->
  Math_round y = ((10 * d + 3) / 6)%Z.
Proof.
  intros H. apply Qabs_Qle_condition in H.
  set (N := ((10 * d + 3) / 6)%Z).
  assert (B : (6 * N + 1 <= 10 * d + 3 <= 6 * N + 5)%Z) by (unfold N; lia).
  destruct B as [B1 B2]. rewrite Zle_Qle in B1, B2.
  rewrite !inject_Z_plus, !inject_Z_mult in B1, B2.
  change (inject_Z 6) with 6 in *. change (inject_Z 10) with 10 in *.
  change (inject_Z 1) with 1 in *. change (inject_Z 3) with 3 in *.
  change (inject_Z 5) with 5 in *.
  apply Math_round_unique. fold N. qdiv_const. split; lra.
Qed.

Lemma workedHoursBetween_minutes (hi mi ho mo : Z) :
  (0 <= hi <= 23)%Z -> (0 <= mi <= 59)%Z -> (0 <= ho <= 23)%Z -> (0 <= mo <= 59)%Z ->
  workedHoursBetween (decimalHours hi mi) (decimalHours ho mo)
  = Some (inject_Z ((10 * minutesBetween (60 * hi + mi) (60 * ho + mo) + 3) / 6) / 100).
Proof.
  intros Hhi Hmi Hho Hmo.
  pose proof (decimalHours_near hi mi Hhi Hmi) as Na.
  pose proof (decimalHours_near ho mo Hho Hmo) as Nb.
  unfold workedHoursBetween, minutesBetween.
  set (a := (60 * hi + mi)%Z) in *. set (b := (60 * ho + mo)%Z) in *.
  assert (Ra : (0 <= a <= 1439)%Z) by (unfold a; lia).
  assert (Rb : (0 <= b <= 1439)%Z) by (unfold b; lia).
  apply Qabs_Qle_condition in Na, Nb.
  assert (Qa : 0 <= inject_Z a <= 1439).
  { destruct Ra as [R1 R2]. rewrite Zle_Qle in R1, R2. split; assumption. }
  assert (Qb : 0 <= inject_Z b <= 1439).
  { destruct Rb as [R1 R2]. rewrite Zle_Qle in R1, R2. split; assumption. }
  destruct (Z.leb_spec a b) as [L | G].
  - (* the same day *)
    assert (LE : decimalHours hi mi <= decimalHours ho mo).
    { destruct (Z.eq_dec a b) as [E | N].
      - assert (hi = ho /\ mi = mo) as [-> ->] by (unfold a, b in E; lia). apply Qle_refl.
      - assert (C : (a + 1 <= b)%Z) by lia. rewrite Zle_Qle, inject_Z_plus in C.
        change (inject_Z 1) with 1 in C. qdiv_const. lra. }
    rewrite (proj2 (Qle_bool_iff _ _) LE). cbv zeta.
    rewrite Zle_Qle in L.
    set (A := decimalHours hi mi) in *. set (B := decimalHours ho mo) in *.
    pose proof (double_near (B - A)) as D.
    assert (AB : Qabs (B - A) <= 24) by (apply Qabs_Qle_condition; qdiv_const; split; lra).
    apply Qabs_Qle_condition in D.
    pose proof (double_nonneg (B - A) ltac:(lra)) as P.
    set (w := double (B - A)) in *.
    assert (W24 : w <= 24) by (qdiv_const; lra).
    rewrite (proj2 (Qltb_false w 0) P), (proj2 (Qltb_false 24 w) W24). cbn [orb].
    do 2 f_equal. f_equal.
    apply Math_round_minutes_to_hundredths.
    pose proof (double_near (w * 100)) as D'.
    assert (AW : Qabs (w * 100) <= 2400) by (apply Qabs_Qle_condition; split; lra).
    apply Qabs_Qle_condition in D'.
    rewrite inject_Z_sub. apply Qabs_Qle_condition. qdiv_const. split; lra.
  - (* over midnight *)
    assert (C : (b + 1 <= a)%Z) by lia. rewrite Zle_Qle, inject_Z_plus in C.
    change (inject_Z 1) with 1 in C.
    assert (GT : ~ decimalHours hi mi <= decimalHours ho mo) by (qdiv_const; lra).
    destruct (Qle_bool (decimalHours hi mi) (decimalHours ho mo)) eqn:E;
      [apply Qle_bool_iff in E; contradiction|]. cbv zeta.
    set (A := decimalHours hi mi) in *. set (B := decimalHours ho mo) in *.
    pose proof (double_near (24 - A)) as D1.
    assert (A1 : Qabs (24 - A) <= 25) by (apply Qabs_Qle_condition; qdiv_const; split; lra).
    apply Qabs_Qle_condition in D1.
    set (x := double (24 - A)) in *.
    pose proof (double_near (x + B)) as D2.
    assert (A2 : Qabs (x + B) <= 25) by (apply Qabs_Qle_condition; qdiv_const; split; lra).
    apply Qabs_Qle_condition in D2.
    set (w := double (x + B)) in *.
    assert (W0 : 0 <= w) by (qdiv_const; lra).
    assert (W24 : w <= 24) by (qdiv_const; lra).
    rewrite (proj2 (Qltb_false w 0) W0), (proj2 (Qltb_false 24 w) W24). cbn [orb].
    do 2 f_equal. f_equal.
    apply Math_round_minutes_to_hundredths.
    pose proof (double_near (w * 100)) as D'.
    assert (AW : Qabs (w * 100) <= 2400) by (apply Qabs_Qle_condition; split; lra).
    apply Qabs_Qle_condition in D'.
    rewrite inject_Z_plus, inject_Z_sub. change (inject_Z 1440) with 1440.
    apply Qabs_Qle_condition. qdiv_const. split; lra.
Qed.

(** Between two written times, the arithmetic in double precision returns
    what [calculateWorkedHours] returns. *)
Lemma calculateWorkedHours_in_double_precision (i o : string) (hi mi ho mo : Z) :
  WritesTime (list_ascii_of_string (trim i)) hi mi ->
  WritesTime (list_ascii_of_string (trim o)) ho mo ->
  exists w,
    calculateWorkedHours i o = Ok w /\
    workedHoursBetween (decimalHours hi mi) (decimalHours ho mo) = Some w.
Proof.
  intros Wi Wo. eexists.
  split; [exact (calculateWorkedHours_minutes i o hi mi ho mo Wi Wo)|].
  destruct Wi as (? & ? & _), Wo as (? & ? & _).
  now apply workedHoursBetween_minutes.
Qed.

Local Close Scope Q_scope.

(** ** The month processor, record by record *)

Lemma generateMonthDates_cases (year month : Z) :
  (1900 <= year <= 2100 /\ 1 <= month <= 12 /\
   generateMonthDates year month
   = Ok (map (midnightOf year month) (daysOfMonth year month))) \/
  ((year < 1900 \/ 2100 < year) /\
   generateMonthDates year month = Throw (InvalidDateError (InvalidYear year))) \/
  (1900 <= year <= 2100 /\ (month < 1 \/ 12 < month) /\
   generateMonthDates year month = Throw (InvalidDateError (InvalidMonth month))).
Proof.
  destruct (Z.ltb_spec year 1900) as [Y1 | Y1].
  { right. left. split; [lia|]. unfold generateMonthDates.
    now rewrite (proj2 (Z.ltb_lt year 1900) Y1). }
  destruct (Z.ltb_spec 2100 year) as [Y2 | Y2].
  { right. left. split; [lia|]. unfold generateMonthDates.
    rewrite Z.gtb_ltb, (proj2 (Z.ltb_lt 2100 year) Y2). now rewrite orb_true_r. }
  assert (NY : (year <? 1900) || (year >? 2100) = false).
  { rewrite Z.gtb_ltb, (proj2 (Z.ltb_ge year 1900)), (proj2 (Z.ltb_ge 2100 year)) by lia.
    reflexivity. }
  destruct (Z.ltb_spec month 1) as [M1 | M1].
  { right. right. split; [lia|]. split; [lia|]. unfold generateMonthDates.
    now rewrite NY, (proj2 (Z.ltb_lt month 1) M1). }
  destruct (Z.ltb_spec 12 month) as [M2 | M2].
  { right. right. split; [lia|]. split; [lia|]. unfold generateMonthDates.
    rewrite NY, Z.gtb_ltb, (proj2 (Z.ltb_lt 12 month) M2). now rewrite orb_true_r. }
  left. split; [lia|]. split; [lia|]. apply generateMonthDates_Ok; lia.
Qed.

Lemma processMonthlyAttendance_Ok_bounds (year month : Z) (raws : list RawAttendanceInput)
    (recs : list ProcessedAttendanceRecord) :
  processMonthlyAttendance year month raws = Ok recs ->
  1900 <= year <= 2100 /\ 1 <= month <= 12.
Proof.
  unfold processMonthlyAttendance.
  destruct (generateMonthDates_cases year month)
    as [(Hy & Hm & _) | [(_ & E) | (_ & _ & E)]]; [tauto | |]; rewrite E; discriminate.
Qed.

(** Each returned record is the record of a day of the month: made from the
    first entry of that day, or a gap record when the day has none. *)
Lemma record_cases (year month : Z) (raws : list RawAttendanceInput)
    (recs : list ProcessedAttendanceRecord) (r : ProcessedAttendanceRecord) :
  processMonthlyAttendance year month raws = Ok recs -> In r recs ->
  exists day,
    1 <= day <= lastDayOfMonth year month /\
    ((exists e w,
        FirstOnDay raws year month day e /\
        calculateWorkedHours (raw_inTime e) (raw_outTime e) = Ok w /\
        r = {| employeeId := raw_employeeId e;
               date := midnightOf year month day;
               inTime := Some (raw_inTime e);
               outTime := Some (raw_outTime e);
               workedHours := w;
               status := PRESENT |}) \/
     (NoneOnDay raws year month day /\
      r = {| employeeId := firstEmployeeId (normalizeRecords raws);
             date := midnightOf year month day;
             inTime := None;
             outTime := None;
             workedHours := 0;
             status := if isSunday (midnightOf year month day)
                       then WEEKEND else ABSENT |})).
Proof.
  intros H Hin.
  destruct (processMonthlyAttendance_Ok_bounds _ _ _ _ H) as [Hy Hm].
  apply In_nth_error in Hin as [i Hi].
  pose proof (proj1 (processMonthlyAttendance_Ok year month Hy Hm raws recs) H)
    as [Hlen Hnth].
  assert (Hlt : (i < List.length recs)%nat) by (apply nth_error_Some; congruence).
  pose proof (lastDayOfMonth_bounds year month) as B.
  specialize (Hnth i r Hi). set (day := Z.of_nat (1 + i)) in *.
  assert (Hd : 1 <= day <= lastDayOfMonth year month) by (subst day; lia).
  exists day. split; [exact Hd|].
  destruct (first_or_none year month Hy Hm raws day Hd) as [[e F] | N].
  - left. rewrite (processDate_first year month Hy Hm raws day e Hd F) in Hnth.
    apply bind_Ok in Hnth as (w & W & [= <-]). exists e, w. auto.
  - right. rewrite (processDate_none year month Hy Hm raws day Hd N) in Hnth.
    injection Hnth as <-. auto.
Qed.

Lemma FirstOnDay_In (raws : list RawAttendanceInput) (year month day : Z)
    (e : RawAttendanceInput) :
  FirstOnDay raws year month day e -> In e raws.
Proof. intros (l1 & l2 & -> & _). apply in_elt. Qed.

(** X3.  Whatever the entries, [processMonthlyAttendance] throws an
    [InvalidDateError] on the year when the year is below 1900 or above
    2100, and on the month when the year is in range and the month is not
    from 1 to 12; the year is looked at first, and both before any time
    string.  A call that returns had a year and a month in range. *)
Theorem processMonthlyAttendance_checks_the_month
    (year month : Z) (raws : list RawAttendanceInput) :
  (year < 1900 \/ 2100 < year ->
   processMonthlyAttendance year month raws = Throw (InvalidDateError (InvalidYear year))) /\
  (1900 <= year <= 2100 -> month < 1 \/ 12 < month ->
   processMonthlyAttendance year month raws = Throw (InvalidDateError (InvalidMonth month))) /\
  (forall recs,
     processMonthlyAttendance year month raws = Ok recs ->
     1900 <= year <= 2100 /\ 1 <= month <= 12).
Proof.
  split; [|split].
  - intros N. unfold processMonthlyAttendance.
    destruct (generateMonthDates_cases year month)
      as [(Hy & _) | [(_ & E) | (Hy & _)]]; try lia. now rewrite E.
  - intros Hy N. unfold processMonthlyAttendance.
    destruct (generateMonthDates_cases year month)
      as [(_ & Hm & _) | [(Hy' & _) | (_ & _ & E)]]; try lia. now rewrite E.
  - apply processMonthlyAttendance_Ok_bounds.
Qed.

Lemma processMonthlyAttendance_checks_the_month_witness :
  processMonthlyAttendance 1899 13 [badJan2] = Throw (InvalidDateError (InvalidYear 1899)) /\
  processMonthlyAttendance 2024 13 [badJan2] = Throw (InvalidDateError (InvalidMonth 13)).
Proof.
  split.
  - apply (processMonthlyAttendance_checks_the_month 1899 13 [badJan2]). lia.
  - apply (processMonthlyAttendance_checks_the_month 2024 13 [badJan2]); lia.
Defined.

Local Open Scope Q_scope.

(** The hours that [calculateWorkedHours] returns are a whole number of
    hundredths. *)
Lemma calculateWorkedHours_hundredths (i o : string) (w : Q) :
  calculateWorkedHours i o = Ok w ->
  exists k, (0 <= k <= 2398)%Z /\ w = inject_Z k / 100.
Proof.
  intros W.
  destruct (calculateWorkedHours_Accepted _ _ _ W) as [Ai Ao].
  destruct (Matches_WritesTime _ Ai) as (hi & mi & Wi).
  destruct (Matches_WritesTime _ Ao) as (ho & mo & Wo).
  rewrite (calculateWorkedHours_minutes _ _ _ _ _ _ Wi Wo) in W.
  match type of W with
  | Ok ?x = Ok _ => assert (Ew : w = x) by congruence
  end.
  rewrite Ew. eexists. split; [|reflexivity].
  destruct Wi as (? & ? & _), Wo as (? & ? & _).
  refine (proj1 (rounded_minutes_facts _ _ _ _)); lia.
Qed.

(** X4.  Every record of the output of [processMonthlyAttendance] has one of
    the statuses PRESENT, ABSENT and WEEKEND, never HOLIDAY.  A PRESENT
    record carries both time strings and the hours [calculateWorkedHours]
    returns on them; any other record carries no time string and 0 hours,
    and it is WEEKEND exactly when its date is a Sunday.  The worked hours of
    a record are a whole number of hundredths, from 0 to 23.98. *)
Theorem processMonthlyAttendance_record_invariant
    (year month : Z) (raws : list RawAttendanceInput)
    (recs : list ProcessedAttendanceRecord) (r : ProcessedAttendanceRecord) :
  processMonthlyAttendance year month raws = Ok recs -> In r recs ->
  (status r = PRESENT \/ status r = ABSENT \/ status r = WEEKEND) /\
  (status r = PRESENT ->
   exists i o, inTime r = Some i /\ outTime r = Some o /\
               calculateWorkedHours i o = Ok (workedHours r)) /\
  (status r <> PRESENT ->
   inTime r = None /\ outTime r = None /\ workedHours r = 0 /\
   (status r = WEEKEND <-> dayOfWeek (date r) = Some Sunday)) /\
  (exists k, (0 <= k <= 2398)%Z /\ workedHours r == inject_Z k / 100) /\
  0 <= workedHours r <= 23.98.
Proof.
  intros H Hin.
  destruct (record_cases _ _ _ _ _ H Hin) as (day & Hd & [(e & w & F & W & ->) | (N & ->)]);
    cbn [status inTime outTime workedHours date].
  - pose proof (calculateWorkedHours_hundredths _ _ _ W) as K.
    split; [auto|]. split; [eauto|]. split; [congruence|].
    destruct K as (k & Hk & ->). split.
    + exists k. split; [exact Hk | reflexivity].
    + apply (hundredths_bounds _ 0%Z 2398%Z) in Hk.
      change (inject_Z 0) with 0 in Hk. change (inject_Z 2398) with 2398 in Hk.
      qdiv_const. split; lra.
  - assert (Z0 : (exists k, (0 <= k <= 2398)%Z /\ 0 == inject_Z k / 100) /\ 0 <= 0 <= 23.98).
    { split; [exists 0%Z; split; [lia | reflexivity]|]. split; discriminate. }
    destruct (isSunday (midnightOf year month day)) eqn:S.
    + split; [auto|]. split; [discriminate|]. split; [|exact Z0].
      intros _. repeat split; auto. intros _. now apply isSunday_iff.
    + split; [auto|]. split; [discriminate|]. split; [|exact Z0].
      intros _. repeat split; auto; [discriminate|].
      intros C. apply isSunday_iff in C. congruence.
Qed.

Local Close Scope Q_scope.

Lemma processMonthlyAttendance_record_invariant_witness :
  exists recs r,
    processMonthlyAttendance 2024 1 [jan2] = Ok recs /\
    nth_error recs 1 = Some r /\
    (status r = PRESENT \/ status r = ABSENT \/ status r = WEEKEND).
Proof.
  assert (exists recs, processMonthlyAttendance 2024 1 [jan2] = Ok recs) as [recs E]
    by (eexists; vm_compute; reflexivity).
  assert (exists r, nth_error recs 1 = Some r) as [r Hr].
  { vm_compute in E. injection E as <-. eexists. reflexivity. }
  exists recs, r. split; [exact E|]. split; [exact Hr|].
  apply (processMonthlyAttendance_record_invariant 2024 1 [jan2] recs r E).
  eapply nth_error_In, Hr.
Defined.

(** X5.  When every entry of a non-empty input has the same employee id, as
    in a call made for one employee, every record of the output has that
    id, the records of the days without entry included. *)
Theorem processMonthlyAttendance_one_employee
    (year month : Z) (raws : list RawAttendanceInput)
    (recs : list ProcessedAttendanceRecord) (id : string) :
  processMonthlyAttendance year month raws = Ok recs ->
  raws <> [] ->
  (forall e, In e raws -> raw_employeeId e = id) ->
  forall r, In r recs -> employeeId r = id.
Proof.
  intros H Hne Hid r Hin.
  destruct (record_cases _ _ _ _ _ H Hin) as (day & Hd & [(e & w & F & W & ->) | (N & ->)]);
    cbn [employeeId].
  - apply Hid. eapply FirstOnDay_In, F.
  - rewrite firstEmployeeId_normalized. destruct raws as [|e raws]; [congruence|].
    apply Hid. now left.
Qed.

Lemma processMonthlyAttendance_one_employee_witness :
  exists recs,
    processMonthlyAttendance 2024 1 [jan2] = Ok recs /\
    forall r, In r recs -> employeeId r = "507f1f77bcf86cd799439011"%string.
Proof.
  assert (exists recs, processMonthlyAttendance 2024 1 [jan2] = Ok recs) as [recs E]
    by (eexists; vm_compute; reflexivity).
  exists recs. split; [exact E|].
  apply (processMonthlyAttendance_one_employee 2024 1 [jan2] recs _ E).
  - discriminate.
  - intros e [<- | []]. reflexivity.
Defined.

Lemma mapM_ext_in {A B : Type} (f g : A -> result B) (l : list A) :
  (forall a, In a l -> f a = g a) -> mapM f l = mapM g l.
Proof.
  induction l as [|a l IH]; simpl; intros H; [reflexivity|].
  rewrite (H a (or_introl eq_refl)), IH; [reflexivity|].
  intros x Hx. apply H. now right.
Qed.

Lemma find_app_covered {A : Type} (p : A -> bool) (l1 l2 : list A) :
  (forall x, In x l2 -> p x = true -> exists y, In y l1 /\ p y = true) ->
  find p (l1 ++ l2) = find p l1.
Proof.
  induction l1 as [|a l1 IH]; intros H; cbn [app find].
  - apply find_None. intros x Hx. apply not_true_is_false. intros C.
    destruct (H x Hx C) as (y & [] & _).
  - destruct (p a) eqn:Pa; [reflexivity|]. apply IH. intros x Hx C.
    destruct (H x Hx C) as (y & [<- | Hy] & Py); [congruence | eauto].
Qed.

(** X6.  Only the first entry of a day counts: entries put after the
    entries of a non-empty input change nothing to what
    [processMonthlyAttendance] returns or throws, whatever their time
    strings, when each of them is dated outside the target month or on a
    day that has an entry already.  When no entry at all is dated in the
    month, of a year and a month in range, the call returns and no record
    is PRESENT. *)
Theorem processMonthlyAttendance_ignores_later_entries
    (year month : Z) (raws extra : list RawAttendanceInput) :
  (raws <> [] ->
   (forall e' day,
      In e' extra -> 1 <= day <= lastDayOfMonth year month ->
      OnCalendarDay (raw_date e') year month day ->
      exists e, In e raws /\ OnCalendarDay (raw_date e) year month day) ->
   processMonthlyAttendance year month (raws ++ extra)
   = processMonthlyAttendance year month raws) /\
  (1900 <= year <= 2100 -> 1 <= month <= 12 ->
   Forall (OutsideMonth year month) extra ->
   exists recs,
     processMonthlyAttendance year month extra = Ok recs /\
     forall r, In r recs -> status r <> PRESENT).
Proof.
  split.
  - intros Hne Hcov. unfold processMonthlyAttendance.
    destruct (generateMonthDates_cases year month)
      as [(Hy & Hm & E) | [(_ & E) | (_ & _ & E)]]; rewrite E; [|reflexivity..].
    cbn [bind]. apply mapM_ext_in. intros d Hd.
    apply in_map_iff in Hd as (day & <- & Hd). apply In_daysOfMonth in Hd.
    unfold processDate. rewrite !findRecordForDate_find, find_app_covered.
    + assert (F : firstEmployeeId (normalizeRecords (raws ++ extra))
                  = firstEmployeeId (normalizeRecords raws))
        by (destruct raws; [congruence | reflexivity]).
      now rewrite F.
    + intros e' He' C.
      apply (proj1 (sameDay_iff year month Hy Hm _ day Hd)) in C.
      destruct (Hcov e' day He' Hd C) as (e & He & Ce). exists e. split; [exact He|].
      now apply (proj2 (sameDay_iff year month Hy Hm _ day Hd)).
  - intros Hy Hm Hout. rewrite Forall_forall in Hout.
    destruct (proj2 (processMonthlyAttendance_succeeds year month Hy Hm extra)) as [recs H].
    { intros day e Hd F. exfalso.
      destruct F as (l1 & l2 & -> & C & _).
      apply (Hout e (in_elt e l1 l2) day Hd C). }
    exists recs. split; [exact H|]. intros r Hin.
    destruct (record_cases _ _ _ _ _ H Hin)
      as (day & Hd & [(e & w & F & W & ->) | (N & ->)]); cbn [status].
    + exfalso. destruct F as (l1 & l2 & -> & C & _).
      apply (Hout e (in_elt e l1 l2) day Hd C).
    + destruct (isSunday _); discriminate.
Qed.

(** After the entry of 2 January 2024, an entry of February and a second
    entry of 2 January, both with times that do not parse. *)
Lemma processMonthlyAttendance_ignores_later_entries_witness :
  processMonthlyAttendance 2024 1
    ([jan2] ++ [ {| raw_employeeId := "x"; raw_date := newDate 2024 1 2;
                    raw_inTime := "late"; raw_outTime := "" |};
                 badJan2 ])
  = processMonthlyAttendance 2024 1 [jan2].
Proof.
  apply (processMonthlyAttendance_ignores_later_entries 2024 1 [jan2]); [discriminate|].
  intros e' day [<- | [<- | []]] Hd C.
  - destruct C as (_ & C & _). vm_compute in C. discriminate.
  - exists jan2. split; [now left | exact C].
Defined.

(** ** Productivity, as a function of the hours worked *)

Local Open Scope Q_scope.

Lemma tenths_le (a b : Z) : (a <= b)%Z -> inject_Z a / 10 <= inject_Z b / 10.
Proof.
  intros H. rewrite Zle_Qle in H. qdiv_const. lra.
Qed.

(** [calculateProductivity] sees its arguments as numbers only. *)
Lemma calculateProductivity_compat (a a' e e' : Q) :
  a == a' -> e == e' ->
  match calculateProductivity a e, calculateProductivity a' e' with
  | Ok p, Ok p' => p == p'
  | Throw (CalculationError (InvalidActualHours _) _),
    Throw (CalculationError (InvalidActualHours _) _) => True
  | Throw (CalculationError (InvalidExpectedHours _) _),
    Throw (CalculationError (InvalidExpectedHours _) _) => True
  | _, _ => False
  end.
Proof.
  intros Ha He. unfold calculateProductivity.
  assert (A : Qltb a 0 = Qltb a' 0).
  { destruct (Qltb a' 0) eqn:E.
    - apply Qltb_true. apply Qltb_true in E. now rewrite Ha.
    - apply Qltb_false. apply Qltb_false in E. now rewrite Ha. }
  assert (B : Qltb e 0 = Qltb e' 0).
  { destruct (Qltb e' 0) eqn:E.
    - apply Qltb_true. apply Qltb_true in E. now rewrite He.
    - apply Qltb_false. apply Qltb_false in E. now rewrite He. }
  assert (C : Qeq_bool e 0 = Qeq_bool e' 0).
  { destruct (Qeq_bool e' 0) eqn:E.
    - apply Qeq_bool_iff. apply Qeq_bool_iff in E. now rewrite He.
    - destruct (Qeq_bool e 0) eqn:E'; [|reflexivity].
      apply Qeq_bool_iff in E'. rewrite He in E'. apply Qeq_bool_iff in E'. congruence. }
  rewrite A, B, C.
  destruct (Qltb a' 0); [exact I|]. destruct (Qltb e' 0); [exact I|].
  destruct (Qeq_bool e' 0) eqn:Z; [reflexivity|].
  assert (N : ~ e' == 0) by (intros N; apply Qeq_bool_iff in N; congruence).
  assert (N' : ~ e == 0) by (now rewrite He).
  fold (scaledRatio a e). fold (scaledRatio a' e').
  rewrite (Math_round_compat (scaledRatio a e) (scaledRatio a' e')); [reflexivity|].
  now apply scaledRatio_compat.
Qed.

(** X7.  For a positive number of expected hours, [calculateProductivity]
    never throws on non-negative worked hours and grows with them: it is 0
    for no hours worked and 100 for exactly the expected hours, hence at
    most 100 below the expected hours and at least 100 above. *)
Theorem calculateProductivity_monotone (a1 a2 e : Q) :
  0 <= a1 -> a1 <= a2 -> 0 < e ->
  (exists p1 p2,
     calculateProductivity a1 e = Ok p1 /\ calculateProductivity a2 e = Ok p2 /\
     p1 <= p2) /\
  Returns (calculateProductivity 0 e) 0 /\
  Returns (calculateProductivity e e) 100.
Proof.
  intros H1 H12 He.
  assert (H2 : 0 <= a2) by lra.
  split; [|split].
  - rewrite !calculateProductivity_positive by assumption.
    eexists _, _. split; [reflexivity|]. split; [reflexivity|].
    apply tenths_le, Math_round_mono, scaledRatio_mono; assumption.
  - rewrite calculateProductivity_positive by (lra || assumption).
    eexists. split; [reflexivity|].
    rewrite (Math_round_compat _ (inject_Z 0)), Math_round_inject_Z; [reflexivity|].
    destruct (scaledRatio_near 0 e ltac:(lra) He) as [L U].
    assert (Z : 0 / e == 0) by (unfold Qdiv; ring). rewrite Z in L, U.
    change (inject_Z 0) with 0. apply Qle_antisym; lra.
  - rewrite calculateProductivity_positive by (lra || assumption).
    eexists. split; [reflexivity|].
    rewrite (Math_round_compat _ (inject_Z 1000)), Math_round_inject_Z; [reflexivity|].
    unfold scaledRatio.
    assert (O : e / e == 1) by (field; lra).
    transitivity (double (double (double 1 * 100) * 10)); [|vm_compute; reflexivity].
    apply double_compat, Qmult_comp; [|reflexivity].
    apply double_compat, Qmult_comp; [|reflexivity].
    apply double_compat, O.
Qed.

Lemma calculateProductivity_monotone_witness :
  (exists p1 p2,
     calculateProductivity 8 8.5 = Ok p1 /\ calculateProductivity 9 8.5 = Ok p2 /\
     p1 <= p2) /\
  Returns (calculateProductivity 0 8.5) 0 /\
  Returns (calculateProductivity 8.5 8.5) 100.
Proof.
  apply (calculateProductivity_monotone 8 9 8.5); [discriminate | discriminate | reflexivity].
Defined.

(** ** The week *)

Lemma getExpectedHours_valid (t : Z) :
  getExpectedHours (DateAt t) = Ok (hoursOfWeekDay (WeekDay (Day t))).
Proof.
  unfold getExpectedHours, hoursOfWeekDay, isSunday, isSaturday, getDay.
  cbn [getTime option_map strictEq].
  destruct (WeekDay (Day t) =? 0); [reflexivity|].
  destruct (WeekDay (Day t) =? 6); reflexivity.
Qed.

Lemma Day_add_days (t i : Z) : Day (t + i * msPerDay) = (Day t + i)%Z.
Proof. unfold Day. now apply Z.div_add. Qed.

Lemma WeekDay_add (d i : Z) : WeekDay (d + i) = ((WeekDay d + i) mod 7)%Z.
Proof.
  unfold WeekDay. replace (d + i + 4)%Z with (d + 4 + i)%Z by lia.
  now rewrite Z.add_mod_idemp_l.
Qed.

Lemma hoursFrom_week (d : Z) : hoursFrom d 7 == 46.5.
Proof.
  cbn [hoursFrom].
  replace (d + 1 + 1 + 1 + 1 + 1 + 1)%Z with (d + 6)%Z by lia.
  replace (d + 1 + 1 + 1 + 1 + 1)%Z with (d + 5)%Z by lia.
  replace (d + 1 + 1 + 1 + 1)%Z with (d + 4)%Z by lia.
  replace (d + 1 + 1 + 1)%Z with (d + 3)%Z by lia.
  replace (d + 1 + 1)%Z with (d + 2)%Z by lia.
  rewrite !(WeekDay_add d).
  pose proof (WeekDay_bounds d) as B.
  assert (C : (WeekDay d = 0 \/ WeekDay d = 1 \/ WeekDay d = 2 \/ WeekDay d = 3 \/
               WeekDay d = 4 \/ WeekDay d = 5 \/ WeekDay d = 6)%Z) by lia.
  repeat destruct C as [C | C]; rewrite C; reflexivity.
Qed.

(** X8.  The expected hours of a date depend on its calendar day only, come
    back every seven days, and add up to 46.5 over any seven days in a
    row. *)
Theorem getExpectedHours_weekly (t : Z) :
  (forall t', Day t' = Day t -> getExpectedHours (DateAt t') = getExpectedHours (DateAt t)) /\
  getExpectedHours (DateAt (t + 7 * msPerDay)) = getExpectedHours (DateAt t) /\
  exists xs,
    mapM getExpectedHours (map (fun i => DateAt (t + i * msPerDay)) (Zrange 0 7)) = Ok xs /\
    total xs == 46.5.
Proof.
  split; [|split].
  - intros t' E. now rewrite !getExpectedHours_valid, E.
  - rewrite !getExpectedHours_valid, Day_add_days, WeekDay_add.
    pose proof (WeekDay_bounds (Day t)) as B.
    replace ((WeekDay (Day t) + 7) mod 7)%Z with (WeekDay (Day t)) by lia.
    reflexivity.
  - cbn [Zrange seq map mapM]. rewrite !getExpectedHours_valid. cbn [bind].
    eexists. split; [reflexivity|].
    rewrite !Day_add_days. unfold total. cbn [fold_left].
    rewrite <- (hoursFrom_week (Day t)). cbn [hoursFrom].
    replace (Day t + 1 + 1 + 1 + 1 + 1 + 1)%Z with (Day t + 6)%Z by lia.
    replace (Day t + 1 + 1 + 1 + 1 + 1)%Z with (Day t + 5)%Z by lia.
    replace (Day t + 1 + 1 + 1 + 1)%Z with (Day t + 4)%Z by lia.
    replace (Day t + 1 + 1 + 1)%Z with (Day t + 3)%Z by lia.
    replace (Day t + 1 + 1)%Z with (Day t + 2)%Z by lia.
    cbn [Z.of_nat Pos.of_succ_nat Pos.succ Z.add].
    rewrite Z.add_0_r. ring.
Qed.

Lemma getExpectedHours_weekly_witness :
  getExpectedHours (DateAt 3600000) = getExpectedHours (DateAt 0) /\
  getExpectedHours (DateAt (0 + 7 * msPerDay)) = getExpectedHours (DateAt 0).
Proof.
  destruct (getExpectedHours_weekly 0) as (H1 & H2 & _).
  split; [apply H1; reflexivity | exact H2].
Defined.

Local Close Scope Q_scope.

(** ** The expected hours of a month *)

Lemma MakeDay_succ (year monthIndex day : Z) :
  MakeDay year monthIndex (day + 1) = MakeDay year monthIndex day + 1.
Proof. unfold MakeDay. lia. Qed.

Lemma fold_left_Qplus_hoursFrom (D : Z) (k s : nat) (acc : Q) :
  (fold_left Qplus
     (map (fun d => hoursOfWeekDay (WeekDay (D + d))) (map Z.of_nat (seq s k))) acc
   == acc + hoursFrom (D + Z.of_nat s) k)%Q.
Proof.
  revert s acc. induction k as [|k IH]; intros s acc; cbn [seq map fold_left hoursFrom].
  - ring.
  - rewrite IH. replace (D + Z.of_nat (S s)) with (D + Z.of_nat s + 1) by lia. ring.
Qed.

Lemma hoursFrom_app (d : Z) (a b : nat) :
  (hoursFrom d (a + b) == hoursFrom d a + hoursFrom (d + Z.of_nat a) b)%Q.
Proof.
  revert d. induction a as [|a IH]; intros d.
  - cbn [Nat.add hoursFrom Z.of_nat]. rewrite Z.add_0_r. ring.
  - cbn [Nat.add hoursFrom]. rewrite IH.
    replace (d + 1 + Z.of_nat a) with (d + Z.of_nat (S a)) by lia. ring.
Qed.

Lemma hoursOfWeekDay_bounds (w : Z) : (0 <= hoursOfWeekDay w <= 8.5)%Q.
Proof.
  unfold hoursOfWeekDay. destruct (w =? 0); [split; discriminate|].
  destruct (w =? 6); split; discriminate.
Qed.

Lemma hoursFrom_bounds (d : Z) (n : nat) :
  (0 <= hoursFrom d n <= 8.5 * inject_Z (Z.of_nat n))%Q.
Proof.
  revert d. induction n as [|n IH]; intros d.
  - cbn [hoursFrom]. split; discriminate.
  - cbn [hoursFrom]. pose proof (IH (d + 1)) as B.
    pose proof (hoursOfWeekDay_bounds (WeekDay d)) as W.
    rewrite Nat2Z.inj_succ. unfold Z.succ. rewrite inject_Z_plus.
    change (inject_Z 1) with 1%Q. split; lra.
Qed.

(** The expected hours of a month: four weeks and at most three days. *)
Lemma hoursFrom_month (d n : Z) :
  28 <= n <= 31 -> (186 <= hoursFrom d (Z.to_nat n) <= 211.5)%Q.
Proof.
  intros Hn.
  replace (Z.to_nat n) with (7 + (7 + (7 + (7 + Z.to_nat (n - 28)))))%nat by lia.
  rewrite !hoursFrom_app, !hoursFrom_week.
  pose proof (hoursFrom_bounds
                (d + Z.of_nat 7 + Z.of_nat 7 + Z.of_nat 7 + Z.of_nat 7) (Z.to_nat (n - 28))) as B.
  assert (L : (inject_Z (Z.of_nat (Z.to_nat (n - 28))) <= 3)%Q).
  { change 3%Q with (inject_Z 3). rewrite <- Zle_Qle. lia. }
  split; lra.
Qed.

Section MonthOfDashboard.

Variables year month : Z.
Hypothesis Hy : 1900 <= year <= 2100.
Hypothesis Hm : 1 <= month <= 12.

Lemma toNextDay_midnight (day : Z) :
  1 <= day <= lastDayOfMonth year month ->
  toNextDay (midnightOf year month day) = midnightOf year month (day + 1).
Proof using Hy Hm.
  intros Hd.
  destruct (midnightOf_calendar year month day Hm Hd) as (_ & _ & _ & G).
  destruct (MakeDay_components year month day Hm Hd) as (C1 & C2 & _).
  pose proof (MakeDay_bounds year month Hy Hm day Hd) as B.
  unfold toNextDay. rewrite G.
  unfold Date_setDate, midnightOf at 1.
  rewrite Day_MakeDate, TimeWithinDay_MakeDate, C1, C2, MakeDay_succ.
  assert (T : forall D, -30000 <= D <= 50001 -> TimeClip (MakeDate D 0) = DateAt (MakeDate D 0)).
  { intros D HD. unfold TimeClip.
    rewrite (proj2 (Z.leb_le _ _)); [reflexivity|]. unfold MakeDate, msPerDay. lia. }
  rewrite T by lia. unfold setHours0. rewrite Day_MakeDate, T by lia.
  unfold midnightOf. now rewrite MakeDay_succ.
Qed.

Lemma eachDayLoop_month (k d fuel : nat) :
  (1 <= d)%nat -> Z.of_nat d + Z.of_nat k = lastDayOfMonth year month + 1 ->
  (k <= fuel)%nat ->
  eachDayLoop fuel (midnightOf year month (Z.of_nat d))
              (MakeDate (MakeDay year (month - 1) (lastDayOfMonth year month)) 0)
  = map (midnightOf year month) (map Z.of_nat (seq d k)).
Proof using Hy Hm.
  revert d fuel. induction k as [|k IH]; intros d fuel Hd Hk Hf.
  - cbn [seq map]. destruct fuel as [|fuel]; [reflexivity|].
    cbn [eachDayLoop midnightOf getTime].
    rewrite (proj2 (Z.leb_gt _ _)); [reflexivity|].
    unfold MakeDate, MakeDay, msPerDay. lia.
  - destruct fuel as [|fuel]; [lia|].
    cbn [seq map eachDayLoop]. unfold midnightOf at 1. cbn [getTime].
    rewrite (proj2 (Z.leb_le _ _)) by (unfold MakeDate, MakeDay, msPerDay; lia).
    fold (midnightOf year month (Z.of_nat d)).
    rewrite toNextDay_midnight by lia.
    replace (Z.of_nat d + 1) with (Z.of_nat (S d)) by lia.
    rewrite IH by lia. reflexivity.
Qed.

(** The days that [calculateMonthlyExpectedHours] goes through are the
    dates that [generateMonthDates] returns. *)
Lemma eachDayOfInterval_month :
  eachDayOfInterval (newDate year (month - 1) 1) (newDate year month 0)
  = map (midnightOf year month) (daysOfMonth year month).
Proof using Hy Hm.
  pose proof (lastDayOfMonth_bounds year month) as B.
  unfold newDate. rewrite (proj2 (Z.leb_gt year 99)), andb_false_r by lia.
  rewrite MakeDay_last by exact Hm.
  rewrite !(TimeClip_midnight year month Hy Hm) by lia.
  unfold eachDayOfInterval, midnightOf at 1 2. cbn [getTime].
  rewrite Z.gtb_ltb, (proj2 (Z.ltb_ge _ _)) by (unfold MakeDate, MakeDay, msPerDay; lia).
  rewrite !Day_MakeDate.
  fold (midnightOf year month 1).
  rewrite (setHours0_midnight year month Hy Hm) by lia.
  change (midnightOf year month 1) with (midnightOf year month (Z.of_nat 1)).
  rewrite (eachDayLoop_month (Z.to_nat (lastDayOfMonth year month)) 1);
    [reflexivity | lia | lia | unfold MakeDay; lia].
Qed.

Lemma sumExpected_midnights (days : list Z) (acc : Q) :
  sumExpected (map (midnightOf year month) days) acc
  = Ok (fold_left Qplus
          (map (fun d => hoursOfWeekDay (WeekDay (MakeDay year (month - 1) 0 + d))) days) acc).
Proof using Type.
  revert acc. induction days as [|d days IH]; intros acc; cbn [map sumExpected fold_left].
  - reflexivity.
  - unfold midnightOf at 1. rewrite getExpectedHours_valid, Day_MakeDate. cbn [bind].
    rewrite IH. replace (MakeDay year (month - 1) 0 + d) with (MakeDay year (month - 1) d);
      [reflexivity | unfold MakeDay; lia].
Qed.

Lemma calculateMonthlyExpectedHours_Ok :
  exists E,
    calculateMonthlyExpectedHours year month = Ok E /\
    (E == hoursFrom (MakeDay year (month - 1) 1) (Z.to_nat (lastDayOfMonth year month)))%Q.
Proof using Hy Hm.
  unfold calculateMonthlyExpectedHours. cbv zeta.
  rewrite eachDayOfInterval_month, sumExpected_midnights.
  eexists. split; [reflexivity|].
  unfold daysOfMonth, dayRange. rewrite fold_left_Qplus_hoursFrom.
  replace (MakeDay year (month - 1) 0 + Z.of_nat 1) with (MakeDay year (month - 1) 1)
    by (unfold MakeDay; lia).
  ring.
Qed.

End MonthOfDashboard.

Local Open Scope Q_scope.

Lemma mapM_getExpectedHours_midnights (year month : Z) (days : list Z) :
  mapM getExpectedHours (map (midnightOf year month) days)
  = Ok (map (fun d => hoursOfWeekDay (WeekDay (MakeDay year (month - 1) 0 + d))) days).
Proof.
  induction days as [|d days IH]; cbn [map mapM]; [reflexivity|].
  unfold midnightOf at 1. rewrite getExpectedHours_valid, Day_MakeDate. cbn [bind].
  rewrite IH. cbn [bind].
  replace (MakeDay year (month - 1) 0 + d)%Z with (MakeDay year (month - 1) d);
    [reflexivity | unfold MakeDay; lia].
Qed.

(** X9.  For a year from 1900 to 2100 and a month from 1 to 12,
    [calculateMonthlyExpectedHours] returns the sum of [getExpectedHours]
    over the dates that [generateMonthDates] returns: the page and the
    engine go through the same days.  The sum is at least 186 and at most
    211.5 hours, so it is never 0. *)
Theorem calculateMonthlyExpectedHours_of_month (year month : Z) :
  (1900 <= year <= 2100)%Z -> (1 <= month <= 12)%Z ->
  exists E dates xs,
    calculateMonthlyExpectedHours year month = Ok E /\
    generateMonthDates year month = Ok dates /\
    mapM getExpectedHours dates = Ok xs /\
    E = total xs /\
    186 <= E <= 211.5.
Proof.
  intros Hy Hm.
  destruct (calculateMonthlyExpectedHours_Ok year month Hy Hm) as (E & HE & Q).
  exists E, (map (midnightOf year month) (daysOfMonth year month)),
    (map (fun d => hoursOfWeekDay (WeekDay (MakeDay year (month - 1) 0 + d)))
         (daysOfMonth year month)).
  split; [exact HE|]. split; [now apply generateMonthDates_Ok|].
  split; [apply mapM_getExpectedHours_midnights|]. split.
  - unfold calculateMonthlyExpectedHours in HE. cbv zeta in HE.
    rewrite (eachDayOfInterval_month year month Hy Hm), sumExpected_midnights in HE.
    unfold total. congruence.
  - rewrite Q. apply hoursFrom_month, lastDayOfMonth_bounds.
Qed.

Lemma calculateMonthlyExpectedHours_of_month_witness :
  exists E dates xs,
    calculateMonthlyExpectedHours 2024 2 = Ok E /\
    generateMonthDates 2024 2 = Ok dates /\
    mapM getExpectedHours dates = Ok xs /\
    E = total xs /\
    186 <= E <= 211.5.
Proof.
  apply (calculateMonthlyExpectedHours_of_month 2024 2); lia.
Defined.

(** ** The aggregate of a processed month *)

Lemma sum_hundredths (xs : list Q) :
  Forall (fun x => exists k, (0 <= k <= 2398)%Z /\ x == inject_Z k / 100) xs ->
  forall acc k0, (0 <= k0)%Z -> acc == inject_Z k0 / 100 ->
  exists K,
    (k0 <= K <= k0 + 2398 * Z.of_nat (List.length xs))%Z /\
    fold_left Qplus xs acc == inject_Z K / 100.
Proof.
  induction 1 as [|x xs (k & Hk & Hx) _ IH]; intros acc k0 H0 Hacc; cbn [fold_left List.length].
  - exists k0. split; [lia | exact Hacc].
  - destruct (IH (acc + x) (k0 + k)%Z ltac:(lia)) as (K & HK & S).
    + rewrite Hacc, Hx, inject_Z_plus. field.
    + exists K. split; [lia | exact S].
Qed.

Lemma record_hundredths (year month : Z) (raws : list RawAttendanceInput)
    (recs : list ProcessedAttendanceRecord) :
  processMonthlyAttendance year month raws = Ok recs ->
  Forall (fun x => exists k, (0 <= k <= 2398)%Z /\ x == inject_Z k / 100)
         (map workedHours recs).
Proof.
  intros H. apply Forall_forall. intros x Hx.
  apply in_map_iff in Hx as (r & <- & Hin).
  destruct (record_cases _ _ _ _ _ H Hin) as (day & Hd & [(e & w & F & W & ->) | (N & ->)]);
    cbn [workedHours].
  - destruct (calculateWorkedHours_hundredths _ _ _ W) as (k & Hk & ->).
    exists k. split; [lia | reflexivity].
  - exists 0%Z. split; [lia | reflexivity].
Qed.

Lemma hundredths_nonneg (xs : list Q) :
  Forall (fun x => exists k, (0 <= k <= 2398)%Z /\ x == inject_Z k / 100) xs ->
  Forall (fun x => 0 <= x) xs.
Proof.
  apply Forall_impl. intros x (k & Hk & ->).
  destruct (hundredths_bounds k 0%Z k ltac:(lia)) as [L _].
  change (inject_Z 0) with 0 in L. qdiv_const. lra.
Qed.

Lemma Forall2_expected_of_dates (f : Z -> Date) (h : Z -> Q)
    (recs : list ProcessedAttendanceRecord) (days : list Z) :
  (forall d, getExpectedHours (f d) = Ok (h d)) ->
  map date recs = map f days ->
  Forall2 (fun r x => getExpectedHours (date r) = Ok x) recs (map h days).
Proof.
  intros Hf. revert days. induction recs as [|r recs IH]; intros [|d days]; cbn [map];
    try discriminate; [constructor|].
  intros [= Hr Hrest]. constructor; [rewrite Hr; apply Hf | now apply IH].
Qed.

(** The worked hours of the records of a month, added in double precision
    from 0 or from the first of them, are within 10^-9 of their sum. *)
Lemma month_sum_near (xs : list Q) :
  Forall (fun x => exists k, (0 <= k <= 2398)%Z /\ x == inject_Z k / 100) xs ->
  (List.length xs <= 31)%nat ->
  exists K,
    (0 <= K <= 100000)%Z /\
    total xs == inject_Z K / 100 /\
    Qabs (runningTotal xs - inject_Z K / 100) <= 1 # 1000000000 /\
    match xs with
    | [] => True
    | x :: rest =>
        Qabs (fold_left (fun sum y => double (sum + y)) rest x - inject_Z K / 100)
        <= 1 # 1000000000
    end.
Proof.
  intros H Hlen.
  destruct (sum_hundredths xs H 0 0%Z ltac:(lia) ltac:(reflexivity)) as (K & HK & S).
  pose proof (hundredths_nonneg xs H) as P.
  assert (B : inject_Z K / 100 <= 1000).
  { assert (K <= 100000)%Z as C by lia. rewrite Zle_Qle in C.
    change (inject_Z 100000) with 100000 in C. qdiv_const. lra. }
  assert (N : inject_Z (Z.of_nat (List.length xs)) <= 31).
  { change 31 with (inject_Z 31). rewrite <- Zle_Qle. lia. }
  exists K. split; [lia|]. split; [exact S|]. split.
  - assert (R : Qabs (runningTotal xs - fold_left Qplus xs 0)
                <= 0 + inject_Z (Z.of_nat (List.length xs))
                       * (1000 * (1 # 4503599627370496))).
    { apply running_sum_near; try lra; [exact P|]. apply Qabs_Qle_condition. split; lra. }
    apply Qabs_Qle_condition in R. apply Qabs_Qle_condition. split; lra.
  - destruct xs as [|x rest]; [exact I|].
    inversion P as [|? ? Px Prest]; subst.
    cbn [List.length] in N. rewrite Nat2Z.inj_succ in N. unfold Z.succ in N.
    rewrite inject_Z_plus in N. change (inject_Z 1) with 1 in N.
    assert (N0 : 0 <= inject_Z (Z.of_nat (List.length rest))).
    { change 0 with (inject_Z 0). rewrite <- Zle_Qle. lia. }
    assert (T : fold_left Qplus rest x == inject_Z K / 100).
    { rewrite <- S. unfold total. cbn [fold_left].
      rewrite (fold_left_Qplus_compat rest (0 + x) x); [reflexivity | ring]. }
    assert (R : Qabs (fold_left (fun sum y => double (sum + y)) rest x
                      - fold_left Qplus rest x)
                <= 0 + inject_Z (Z.of_nat (List.length rest))
                       * (1000 * (1 # 4503599627370496))).
    { apply running_sum_near; try lra; [exact Prest|]. apply Qabs_Qle_condition. split; lra. }
    apply Qabs_Qle_condition in R. apply Qabs_Qle_condition. split; lra.
Qed.

(** Within 10^-9 of a whole number of hundredths, the product by 100
    rounds to that number. *)
Lemma Math_round_hundredths_stable (a : Q) (K : Z) :
  (0 <= K <= 100000)%Z ->
  Qabs (a - inject_Z K / 100) <= 1 # 1000000000 ->
  Math_round (double (a * 100)) = K.
Proof.
  intros HK H. apply Qabs_Qle_condition in H.
  assert (B : 0 <= inject_Z K <= 100000).
  { destruct HK as [H1 H2]. rewrite Zle_Qle in H1, H2. split; assumption. }
  pose proof (double_near (a * 100)) as D.
  assert (A : Qabs (a * 100) <= 100001).
  { apply Qabs_Qle_condition. qdiv_const. split; lra. }
  apply Qabs_Qle_condition in D.
  apply Math_round_unique. qdiv_const. split; lra.
Qed.

(** No multiple of 40 is an odd multiple of a number that 8 does not
    divide: the ratio of a month is never on a tie. *)
Lemma no_tie (K D N : Z) : (D mod 8 <> 0)%Z -> (40 * K <> (2 * N - 1) * D)%Z.
Proof.
  intros HD C.
  assert (M : ((((2 * N - 1) mod 8) * (D mod 8)) mod 8 = 0)%Z).
  { rewrite <- Z.mul_mod, <- C by discriminate. lia. }
  assert (O : ((2 * N - 1) mod 8 = 1 \/ (2 * N - 1) mod 8 = 3 \/
               (2 * N - 1) mod 8 = 5 \/ (2 * N - 1) mod 8 = 7)%Z) by lia.
  assert (R : (D mod 8 = 1 \/ D mod 8 = 2 \/ D mod 8 = 3 \/ D mod 8 = 4 \/
               D mod 8 = 5 \/ D mod 8 = 6 \/ D mod 8 = 7)%Z) by lia.
  destruct O as [O | [O | [O | O]]]; rewrite O in M;
    destruct R as [R | [R | [R | [R | [R | [R | R]]]]]]; rewrite R in M; discriminate.
Qed.

(** For the hours [K / 100] of a month of [D / 2] expected hours, the
    integer that [calculateProductivity] gets from [Math.round] is that of
    the exact ratio, also from worked hours 10^-9 away. *)
Lemma Math_round_ratio_stable (K D : Z) (a e : Q) :
  (0 <= K <= 100000)%Z -> (372 <= D <= 423)%Z -> (D mod 8 <> 0)%Z ->
  e == inject_Z D / 2 -> 0 <= a ->
  Qabs (a - inject_Z K / 100) <= 1 # 1000000000 ->
  Math_round (scaledRatio a e) = ((40 * K + D) / (2 * D))%Z.
Proof.
  intros HK HD H8 He Ha H.
  set (N := ((40 * K + D) / (2 * D))%Z).
  assert (HN : (2 * (N * D) <= 40 * K + D < 2 * (N * D) + 2 * D)%Z).
  { pose proof (Z.mul_div_le (40 * K + D) (2 * D) ltac:(lia)) as L.
    pose proof (Z.mul_succ_div_gt (40 * K + D) (2 * D) ltac:(lia)) as U.
    fold N in L, U. split; [|unfold Z.succ in U]; nia. }
  pose proof (no_tie K D N H8) as T.
  assert (HN' : (2 * (N * D) + 1 <= 40 * K + D <= 2 * (N * D) + 2 * D - 1)%Z) by nia.
  clear HN T. set (P := (N * D)%Z) in *.
  assert (QP : inject_Z N * inject_Z D == inject_Z P)
    by (unfold P; now rewrite inject_Z_mult).
  destruct HN' as [P1 P2]. destruct HK as [K1 K2]. destruct HD as [D1 D2].
  assert (P2' : (40 * K + D + 1 <= 2 * P + 2 * D)%Z) by lia. clear P2.
  rewrite Zle_Qle in P1, P2', K1, K2, D1, D2.
  rewrite !inject_Z_plus, !inject_Z_mult in P1.
  rewrite !inject_Z_plus, !inject_Z_mult in P2'.
  change (inject_Z 2) with 2 in *. change (inject_Z 40) with 40 in *.
  change (inject_Z 1) with 1 in *. change (inject_Z 0) with 0 in *.
  change (inject_Z 100000) with 100000 in *.
  change (inject_Z 372) with 372 in *. change (inject_Z 423) with 423 in *.
  set (k := inject_Z K) in *. set (dd := inject_Z D) in *. set (p := inject_Z P) in *.
  set (n := inject_Z N) in *.
  assert (E0 : 0 < e) by (rewrite He; qdiv_const; lra).
  apply Qabs_Qle_condition in H.
  destruct (scaledRatio_near a e Ha E0) as [L U].
  (* the exact ratio, ten times the percentage *)
  assert (X : k / 100 / e * 1000 == 20 * k / dd).
  { rewrite He. field. lra. }
  assert (X1 : n - (1 # 2) + (1 # 846) <= 20 * k / dd).
  { apply Qle_shift_div_l; [lra|]. lra. }
  assert (X2 : 20 * k / dd <= n + (1 # 2) - (1 # 846)).
  { apply Qle_shift_div_r; [lra|]. lra. }
  assert (X3 : 20 * k / dd <= 5400).
  { apply Qle_shift_div_r; lra. }
  (* the ratio of the hours given *)
  assert (R : a / e == k / 100 / e + (a - k / 100) / e) by (field; lra).
  assert (R1 : - (1 # 186000000000) <= (a - k / 100) / e).
  { apply Qle_shift_div_l; [exact E0|]. rewrite He. qdiv_const. lra. }
  assert (R2 : (a - k / 100) / e <= 1 # 186000000000).
  { apply Qle_shift_div_r; [exact E0|]. rewrite He. qdiv_const. lra. }
  set (r := a / e) in *. set (x := k / 100 / e) in *. set (z := (a - k / 100) / e) in *.
  set (y := 20 * k / dd) in *.
  apply Math_round_unique. fold n. split; lra.
Qed.

(** *** The expected hours of a month, doubled *)

Lemma hoursFrom_tail (d : Z) (j : nat) :
  (j <= 3)%nat ->
  exists T, hoursFrom d j == inject_Z T / 2 /\ (0 <= T <= 51)%Z /\ (T mod 8 < 4)%Z.
Proof.
  intros Hj.
  pose proof (WeekDay_bounds d) as B.
  assert (C : (WeekDay d = 0 \/ WeekDay d = 1 \/ WeekDay d = 2 \/ WeekDay d = 3 \/
               WeekDay d = 4 \/ WeekDay d = 5 \/ WeekDay d = 6)%Z) by lia.
  destruct j as [|[|[|[|j]]]]; [| | | |lia]; cbn [hoursFrom];
    replace (d + 1 + 1)%Z with (d + 2)%Z by lia;
    rewrite ?(WeekDay_add d);
    repeat destruct C as [C | C]; rewrite ?C;
    match goal with
    | |- exists T, ?h == _ /\ _ => exists (Qfloor (h * 2))
    end; vm_compute; repeat split; congruence.
Qed.

Lemma hoursFrom_month_doubled (d n : Z) :
  (28 <= n <= 31)%Z ->
  exists D, hoursFrom d (Z.to_nat n) == inject_Z D / 2 /\
            (372 <= D <= 423)%Z /\ (D mod 8 <> 0)%Z.
Proof.
  intros Hn.
  destruct (hoursFrom_tail (d + Z.of_nat 7 + Z.of_nat 7 + Z.of_nat 7 + Z.of_nat 7)
                           (Z.to_nat (n - 28)) ltac:(lia)) as (T & E & HT & H8).
  exists (372 + T)%Z. split; [|split; lia].
  replace (Z.to_nat n) with (7 + (7 + (7 + (7 + Z.to_nat (n - 28)))))%nat by lia.
  rewrite !hoursFrom_app, !hoursFrom_week, E.
  rewrite inject_Z_plus. change (inject_Z 372) with 372. field.
Qed.

(** The aggregate of the records of a processed month, in full. *)
Lemma aggregate_of_month (year month : Z) (raws : list RawAttendanceInput)
    (recs : list ProcessedAttendanceRecord) :
  processMonthlyAttendance year month raws = Ok recs ->
  exists E KA D,
    calculateMonthlyExpectedHours year month = Ok E /\
    186 <= E <= 211.5 /\
    (0 <= KA <= 100000)%Z /\
    total (map workedHours recs) == inject_Z KA / 100 /\
    E == inject_Z D / 2 /\ (372 <= D <= 423)%Z /\ (D mod 8 <> 0)%Z /\
    match map workedHours recs with
    | [] => True
    | x :: rest =>
        Qabs (fold_left (fun sum y => double (sum + y)) rest x - inject_Z KA / 100)
        <= 1 # 1000000000
    end /\
    calculateAggregateProductivity recs
    = Ok {| actualHours := inject_Z KA / 100;
            expectedHours := inject_Z (50 * D) / 100;
            productivityPercentage := inject_Z ((40 * KA + D) / (2 * D)) / 10 |}.
Proof.
  intros H.
  destruct (processMonthlyAttendance_Ok_bounds _ _ _ _ H) as [Hy Hm].
  pose proof (lastDayOfMonth_bounds year month) as B.
  pose proof (processMonthlyAttendance_dates year month Hy Hm raws recs H) as D.
  set (h := fun d => hoursOfWeekDay (WeekDay (MakeDay year (month - 1) 0 + d))).
  assert (F : Forall2 (fun r x => getExpectedHours (date r) = Ok x) recs
                      (map h (daysOfMonth year month))).
  { apply (Forall2_expected_of_dates (midnightOf year month)); [|exact D].
    intros d. unfold midnightOf, h. rewrite getExpectedHours_valid, Day_MakeDate.
    replace (MakeDay year (month - 1) 0 + d)%Z with (MakeDay year (month - 1) d);
      [reflexivity | unfold MakeDay; lia]. }
  destruct (calculateMonthlyExpectedHours_Ok year month Hy Hm) as (E & HE & QE).
  assert (EE : E = fold_left Qplus (map h (daysOfMonth year month)) 0).
  { unfold calculateMonthlyExpectedHours in HE. cbv zeta in HE.
    rewrite (eachDayOfInterval_month year month Hy Hm), sumExpected_midnights in HE.
    unfold h. congruence. }
  assert (E186 : 186 <= E <= 211.5) by (rewrite QE; apply hoursFrom_month, B).
  destruct (hoursFrom_month_doubled (MakeDay year (month - 1) 1)
                                    (lastDayOfMonth year month) B) as (DD & HDD & D1 & D8).
  rewrite <- QE in HDD.
  assert (Hlen : (List.length (map workedHours recs) <= 31)%nat).
  { apply (f_equal (@List.length _)) in D.
    unfold daysOfMonth, dayRange in D. rewrite !length_map, length_seq in D.
    rewrite length_map. simpl in D. lia. }
  destruct (month_sum_near _ (record_hundredths _ _ _ _ H) Hlen)
    as (KA & HKA & SA & NA & NA').
  assert (Ne : recs <> []).
  { intros ->. apply (f_equal (@List.length _)) in D.
    unfold daysOfMonth, dayRange in D. rewrite !length_map, length_seq in D.
    simpl in D. lia. }
  assert (A0 : 0 <= runningTotal (map workedHours recs)).
  { unfold runningTotal. apply running_total_nonneg; [|lra].
    apply hundredths_nonneg, (record_hundredths _ _ _ _ H). }
  exists E, KA, DD. split; [exact HE|]. split; [exact E186|]. split; [exact HKA|].
  split; [exact SA|]. split; [exact HDD|]. split; [exact D1|]. split; [exact D8|].
  split; [exact NA'|].
  unfold calculateAggregateProductivity. destruct recs as [|r0 recs']; [congruence|].
  rewrite (sumHours_Ok _ _ F). cbn [bind]. rewrite <- EE.
  fold (runningTotal (map workedHours (r0 :: recs'))).
  rewrite (calculateProductivity_positive _ E A0) by lra. cbn [bind].
  rewrite (Math_round_hundredths_stable _ KA HKA NA).
  rewrite (Math_round_ratio_stable KA DD _ E HKA D1 D8 HDD A0 NA).
  do 3 f_equal. f_equal.
  assert (X : E * 100 == inject_Z (50 * DD)).
  { rewrite HDD, inject_Z_mult. change (inject_Z 50) with 50. field. }
  rewrite (Math_round_compat _ _ (double_compat _ _ X)).
  rewrite (Math_round_compat _ _ (double_Z (50 * DD) ltac:(lia))).
  apply Math_round_inject_Z.
Qed.

(** X10.  On the records that [processMonthlyAttendance] returns,
    [calculateAggregateProductivity] never throws; its expected hours are
    what [calculateMonthlyExpectedHours] returns for that month; its actual
    hours are the exact sum of the worked hours, the rounding to two
    decimals changing nothing; and its percentage is what
    [calculateProductivity] returns on the two figures it reports. *)
Theorem calculateAggregateProductivity_of_month
    (year month : Z) (raws : list RawAttendanceInput)
    (recs : list ProcessedAttendanceRecord) :
  processMonthlyAttendance year month raws = Ok recs ->
  exists metrics E,
    calculateAggregateProductivity recs = Ok metrics /\
    calculateMonthlyExpectedHours year month = Ok E /\
    expectedHours metrics == E /\
    actualHours metrics == total (map workedHours recs) /\
    Returns (calculateProductivity (actualHours metrics) (expectedHours metrics))
            (productivityPercentage metrics).
Proof.
  intros H.
  destruct (aggregate_of_month _ _ _ _ H)
    as (E & KA & D & HE & E186 & HKA & SA & HD & D1 & D8 & _ & M).
  eexists _, E. split; [exact M|]. split; [exact HE|].
  cbn [expectedHours actualHours productivityPercentage].
  assert (X : inject_Z (50 * D) / 100 == inject_Z D / 2).
  { rewrite inject_Z_mult. change (inject_Z 50) with 50. field. }
  split; [now rewrite X, HD|]. split; [now symmetry|].
  assert (A0 : 0 <= inject_Z KA / 100).
  { destruct (hundredths_bounds KA 0%Z KA ltac:(lia)) as [L _].
    change (inject_Z 0) with 0 in L. qdiv_const. lra. }
  assert (E0 : 0 < inject_Z (50 * D) / 100) by (rewrite X, <- HD; lra).
  rewrite (calculateProductivity_positive _ _ A0 E0).
  eexists. split; [reflexivity|].
  rewrite (Math_round_ratio_stable KA D _ _ HKA D1 D8 X A0); [reflexivity|].
  setoid_replace (inject_Z KA / 100 - inject_Z KA / 100) with 0 by ring.
  discriminate.
Qed.

Local Close Scope Q_scope.

Lemma calculateAggregateProductivity_of_month_witness :
  exists recs metrics E,
    processMonthlyAttendance 2024 1 [jan2] = Ok recs /\
    calculateAggregateProductivity recs = Ok metrics /\
    calculateMonthlyExpectedHours 2024 1 = Ok E /\
    (expectedHours metrics == E)%Q /\
    (actualHours metrics == total (map workedHours recs))%Q /\
    Returns (calculateProductivity (actualHours metrics) (expectedHours metrics))
            (productivityPercentage metrics).
Proof.
  destruct (processMonthlyAttendance 2024 1 [jan2]) as [recs|e] eqn:P;
    [|vm_compute in P; discriminate].
  destruct (calculateAggregateProductivity_of_month 2024 1 [jan2] recs P)
    as (metrics & E & H).
  exists recs, metrics, E. split; [reflexivity | exact H].
Defined.

(** ** The month of the URL *)

Lemma digit_cases (c : ascii) :
  isDigit c = true -> exists v, 0 <= v <= 9 /\ c = digitChar v.
Proof.
  intros H. apply inClass_bounds in H. change (code "0"%char) with 48%N in H.
  change (code "9"%char) with 57%N in H.
  exists (Z.of_N (code c) - 48). split; [lia|]. symmetry. apply digitChar_code. lia.
Qed.

Lemma digitChar_facts (v : Z) :
  0 <= v <= 9 ->
  isDigit (digitChar v) = true /\ digitValue (digitChar v) = v /\
  isWhiteSpace (digitChar v) = false /\
  Ascii.eqb (digitChar v) "-" = false /\ Ascii.eqb (digitChar v) "+" = false.
Proof.
  intros H.
  assert (C : v = 0 \/ v = 1 \/ v = 2 \/ v = 3 \/ v = 4 \/ v = 5 \/ v = 6 \/ v = 7 \/
              v = 8 \/ v = 9) by lia.
  repeat destruct C as [C | C]; subst v; repeat split; reflexivity.
Qed.

Lemma regexMatch_month (v1 v2 v3 v4 v5 v6 : Z) :
  0 <= v1 <= 9 -> 0 <= v2 <= 9 -> 0 <= v3 <= 9 -> 0 <= v4 <= 9 ->
  0 <= v5 <= 9 -> 0 <= v6 <= 9 ->
  regexMatch MONTH_PARAM_REGEX
    (string_of_list_ascii [digitChar v1; digitChar v2; digitChar v3; digitChar v4;
                           "-"%char; digitChar v5; digitChar v6])
  = Some [(2%nat, [digitChar v5; digitChar v6]);
          (1%nat, [digitChar v1; digitChar v2; digitChar v3; digitChar v4])].
Proof.
  intros H1 H2 H3 H4 H5 H6.
  destruct (digitChar_facts v1 H1) as (D1 & _), (digitChar_facts v2 H2) as (D2 & _),
    (digitChar_facts v3 H3) as (D3 & _), (digitChar_facts v4 H4) as (D4 & _),
    (digitChar_facts v5 H5) as (D5 & _), (digitChar_facts v6 H6) as (D6 & _).
  unfold isDigit in *.
  unfold regexMatch. rewrite list_ascii_of_string_of_list_ascii.
  unfold MONTH_PARAM_REGEX, Lit. cbn [run].
  rewrite D1, D2, D3, D4. change (inClass "-" "-" "-") with true. cbv iota.
  rewrite D5, D6. reflexivity.
Qed.

Lemma parseInt_digits (v : Z) (vs : list Z) :
  0 <= v <= 9 -> Forall (fun x => 0 <= x <= 9) vs ->
  parseInt (map digitChar (v :: vs))
  = Some (fold_left (fun acc x => 10 * acc + x) vs v).
Proof.
  intros Hv Hvs. unfold parseInt. cbn [map trimStart].
  destruct (digitChar_facts v Hv) as (D & V & W & M & P).
  rewrite W, M, P, D. f_equal. rewrite Z.mul_1_l.
  cbn [parseDigits]. rewrite D, V. change (10 * 0 + v) with v.
  clear Hv D V W M P. revert v. induction Hvs as [|x vs Hx _ IH]; intros v; cbn [map parseDigits fold_left].
  - reflexivity.
  - destruct (digitChar_facts x Hx) as (D & V & _). rewrite D, V. apply IH.
Qed.

(** What [parseMonthParam] makes of four digits, a dash and two digits. *)
Lemma parseMonthParam_digits (now : Z) (v1 v2 v3 v4 v5 v6 : Z) :
  0 <= v1 <= 9 -> 0 <= v2 <= 9 -> 0 <= v3 <= 9 -> 0 <= v4 <= 9 ->
  0 <= v5 <= 9 -> 0 <= v6 <= 9 ->
  let year := 1000 * v1 + 100 * v2 + 10 * v3 + v4 in
  let month := 10 * v5 + v6 in
  parseMonthParam now
    (Some (string_of_list_ascii [digitChar v1; digitChar v2; digitChar v3; digitChar v4;
                                 "-"%char; digitChar v5; digitChar v6]))
  = if (year <? 2000) || (year >? 2100) || (month <? 1) || (month >? 12)
    then parseMonthParam now None else (year, month).
Proof.
  intros H1 H2 H3 H4 H5 H6 year month. unfold parseMonthParam.
  rewrite regexMatch_month by assumption.
  cbn [String.length string_of_list_ascii Nat.eqb capture option_map].
  change [digitChar v1; digitChar v2; digitChar v3; digitChar v4]
    with (map digitChar [v1; v2; v3; v4]).
  change [digitChar v5; digitChar v6] with (map digitChar [v5; v6]).
  rewrite !parseInt_digits
    by (try assumption; repeat apply Forall_cons; try apply Forall_nil; assumption).
  cbn [fold_left].
  replace (10 * (10 * (10 * v1 + v2) + v3) + v4) with year by (unfold year; lia).
  reflexivity.
Qed.

Lemma writtenMonth_digits (year month : Z) :
  0 <= year <= 9999 -> 0 <= month <= 99 ->
  exists v1 v2 v3 v4 v5 v6,
    (0 <= v1 <= 9 /\ 0 <= v2 <= 9 /\ 0 <= v3 <= 9 /\ 0 <= v4 <= 9 /\
     0 <= v5 <= 9 /\ 0 <= v6 <= 9) /\
    year = 1000 * v1 + 100 * v2 + 10 * v3 + v4 /\ month = 10 * v5 + v6 /\
    writtenMonth year month
    = string_of_list_ascii [digitChar v1; digitChar v2; digitChar v3; digitChar v4;
                            "-"%char; digitChar v5; digitChar v6].
Proof.
  intros Hy Hm.
  exists (year / 1000), (year / 100 mod 10), (year / 10 mod 10), (year mod 10),
    (month / 10), (month mod 10).
  split; [lia|]. split; [lia|]. split; [lia|]. reflexivity.
Qed.

Lemma parseMonthParam_written (now year month : Z) :
  0 <= year <= 9999 -> 0 <= month <= 99 ->
  parseMonthParam now (Some (writtenMonth year month))
  = if (year <? 2000) || (year >? 2100) || (month <? 1) || (month >? 12)
    then parseMonthParam now None else (year, month).
Proof.
  intros Hy Hm.
  destruct (writtenMonth_digits year month Hy Hm)
    as (v1 & v2 & v3 & v4 & v5 & v6 & (H1 & H2 & H3 & H4 & H5 & H6) & Ey & Em & ->).
  rewrite parseMonthParam_digits by assumption. cbv zeta. now rewrite <- Ey, <- Em.
Qed.

(** The strings of the pattern. *)
Lemma Matches_month (l : list ascii) :
  Matches MONTH_PARAM_REGEX l ->
  exists v1 v2 v3 v4 v5 v6,
    (0 <= v1 <= 9 /\ 0 <= v2 <= 9 /\ 0 <= v3 <= 9 /\ 0 <= v4 <= 9 /\
     0 <= v5 <= 9 /\ 0 <= v6 <= 9) /\
    l = [digitChar v1; digitChar v2; digitChar v3; digitChar v4;
         "-"%char; digitChar v5; digitChar v6].
Proof.
  unfold MONTH_PARAM_REGEX. intros M. invert_matches.
  repeat match goal with
         | H : inClass ?a ?a _ = true |- _ => apply inClass_single in H; subst
         | H : inClass "0" "9" _ = true |- _ =>
             apply digit_cases in H; destruct H as (? & ? & ->)
         end.
  cbn [app]. eexists _, _, _, _, _, _. split; [|reflexivity]. tauto.
Qed.

(** X11.  [parseMonthParam] reads back the month written [YYYY-MM] when the
    year is from 2000 to 2100 and the month from 01 to 12; on any other
    parameter (absent, empty, in another form or out of these bounds) it
    returns the year and the month of the current date. *)
Theorem parseMonthParam_reads_written_months (now : Z) :
  (forall year month,
     2000 <= year <= 2100 -> 1 <= month <= 12 ->
     parseMonthParam now (Some (writtenMonth year month)) = (year, month)) /\
  (forall monthParam,
     (forall year month,
        2000 <= year <= 2100 -> 1 <= month <= 12 ->
        monthParam <> Some (writtenMonth year month)) ->
     parseMonthParam now monthParam
     = (YearFromDay (Day now), MonthFromDay (Day now) + 1)).
Proof.
  split.
  - intros year month Hy Hm. rewrite parseMonthParam_written by lia.
    rewrite (proj2 (Z.ltb_ge year 2000)), Z.gtb_ltb, (proj2 (Z.ltb_ge 2100 year)) by lia.
    rewrite (proj2 (Z.ltb_ge month 1)), Z.gtb_ltb, (proj2 (Z.ltb_ge 12 month)) by lia.
    reflexivity.
  - intros [p|] Hp; [|reflexivity].
    destruct (regexTest MONTH_PARAM_REGEX p) eqn:T.
    + apply regexTest_Matches, Matches_month in T
        as (v1 & v2 & v3 & v4 & v5 & v6 & (H1 & H2 & H3 & H4 & H5 & H6) & E).
      apply (f_equal string_of_list_ascii) in E.
      rewrite string_of_list_ascii_of_string in E. subst p.
      rewrite parseMonthParam_digits by assumption. cbv zeta.
      set (year := 1000 * v1 + 100 * v2 + 10 * v3 + v4) in *.
      set (month := 10 * v5 + v6) in *.
      destruct ((year <? 2000) || (year >? 2100) || (month <? 1) || (month >? 12)) eqn:R;
        [reflexivity|].
      exfalso. rewrite !orb_false_iff, !Z.gtb_ltb, !Z.ltb_ge in R.
      apply (Hp year month); [lia | lia |]. f_equal. unfold writtenMonth, fourDigits, twoDigits.
      unfold year, month.
      replace ((1000 * v1 + 100 * v2 + 10 * v3 + v4) / 1000) with v1 by lia.
      replace ((1000 * v1 + 100 * v2 + 10 * v3 + v4) / 100 mod 10) with v2 by lia.
      replace ((1000 * v1 + 100 * v2 + 10 * v3 + v4) / 10 mod 10) with v3 by lia.
      replace ((1000 * v1 + 100 * v2 + 10 * v3 + v4) mod 10) with v4 by lia.
      replace ((10 * v5 + v6) / 10) with v5 by lia.
      replace ((10 * v5 + v6) mod 10) with v6 by lia.
      reflexivity.
    + unfold parseMonthParam. unfold regexTest in T.
      destruct (regexMatch MONTH_PARAM_REGEX p); [discriminate|].
      destruct (String.length p =? 0)%nat; reflexivity.
Qed.

Lemma parseMonthParam_reads_written_months_witness :
  parseMonthParam 0 (Some (writtenMonth 2024 1)) = (2024, 1) /\
  parseMonthParam 0 (Some "2024-13"%string) = (YearFromDay (Day 0), MonthFromDay (Day 0) + 1).
Proof.
  destruct (parseMonthParam_reads_written_months 0) as [H1 H2].
  split; [apply H1; lia|]. apply H2. intros year month Hy Hm C.
  assert (E : "2024-13"%string = writtenMonth year month) by congruence. clear C.
  apply (f_equal list_ascii_of_string) in E.
  unfold writtenMonth in E. rewrite list_ascii_of_string_of_list_ascii in E.
  unfold fourDigits, twoDigits in E. cbn [list_ascii_of_string app] in E.
  injection E as _ _ _ _ E5 E6.
  destruct (digitChar_facts (month / 10) ltac:(lia)) as (_ & V1 & _).
  destruct (digitChar_facts (month mod 10) ltac:(lia)) as (_ & V2 & _).
  apply (f_equal digitValue) in E5, E6. rewrite V1 in E5. rewrite V2 in E6.
  change (digitValue "1") with 1 in E5. change (digitValue "3") with 3 in E6. lia.
Defined.

(** ** The month selector *)

Lemma navigation_checked :
  forallb (fun y => forallb (checkNavigation y) (Zrange 1 12)) (Zrange 2000 101) = true.
Proof. vm_compute. reflexivity. Qed.

Lemma writtenAs_eq (r : option string) (ym : Z * Z) :
  writtenAs r ym = true -> r = Some (writtenMonth (fst ym) (snd ym)).
Proof.
  destruct r as [s|]; simpl; [|discriminate]. intros H. apply String.eqb_eq in H. congruence.
Qed.

(** X12.  From a month on display between 2000-01 and 2100-12, the month
    selector writes in the URL the month after (next) and the month before
    (previous), across the end of the year; [parseMonthParam] reads each of
    them back, except that the month after 2100-12 and the month before
    2000-01 are outside its bounds and give the current month instead. *)
Theorem month_selector_navigation (now currentYear currentMonth : Z) :
  2000 <= currentYear <= 2100 -> 1 <= currentMonth <= 12 ->
  format_yyyy_MM (currentDate currentYear currentMonth)
  = Some (writtenMonth currentYear currentMonth) /\
  (exists next,
     handleNextMonth currentYear currentMonth = Some next /\
     parseMonthParam now (Some next)
     = if (currentYear =? 2100) && (currentMonth =? 12) then parseMonthParam now None
       else monthAfter currentYear currentMonth) /\
  (exists previous,
     handlePreviousMonth currentYear currentMonth = Some previous /\
     parseMonthParam now (Some previous)
     = if (currentYear =? 2000) && (currentMonth =? 1) then parseMonthParam now None
       else monthBefore currentYear currentMonth).
Proof.
  intros Hy Hm. pose proof navigation_checked as C.
  rewrite forallb_forall in C.
  specialize (C currentYear (In_Zrange 2000 101 currentYear ltac:(lia))).
  rewrite forallb_forall in C.
  specialize (C currentMonth (In_Zrange 1 12 currentMonth ltac:(lia))).
  unfold checkNavigation in C. rewrite !andb_true_iff in C. destruct C as [[C1 C2] C3].
  apply writtenAs_eq in C1, C2, C3. cbn [fst snd] in C1.
  split; [exact C1|]. split.
  - eexists. split; [exact C2|]. unfold monthAfter.
    destruct (currentMonth =? 12) eqn:M; cbn [fst snd].
    + apply Z.eqb_eq in M. rewrite parseMonthParam_written by lia.
      destruct (currentYear =? 2100) eqn:Y; cbn [andb].
      * apply Z.eqb_eq in Y. subst. reflexivity.
      * apply Z.eqb_neq in Y.
        rewrite (proj2 (Z.ltb_ge (currentYear + 1) 2000)), Z.gtb_ltb,
          (proj2 (Z.ltb_ge 2100 (currentYear + 1))) by lia.
        reflexivity.
    + apply Z.eqb_neq in M. rewrite andb_false_r, parseMonthParam_written by lia.
      rewrite (proj2 (Z.ltb_ge currentYear 2000)), Z.gtb_ltb,
        (proj2 (Z.ltb_ge 2100 currentYear)) by lia.
      rewrite (proj2 (Z.ltb_ge (currentMonth + 1) 1)), Z.gtb_ltb,
        (proj2 (Z.ltb_ge 12 (currentMonth + 1))) by lia.
      reflexivity.
  - eexists. split; [exact C3|]. unfold monthBefore.
    destruct (currentMonth =? 1) eqn:M; cbn [fst snd].
    + apply Z.eqb_eq in M. rewrite parseMonthParam_written by lia.
      destruct (currentYear =? 2000) eqn:Y; cbn [andb].
      * apply Z.eqb_eq in Y. subst. reflexivity.
      * apply Z.eqb_neq in Y.
        rewrite (proj2 (Z.ltb_ge (currentYear - 1) 2000)), Z.gtb_ltb,
          (proj2 (Z.ltb_ge 2100 (currentYear - 1))) by lia.
        reflexivity.
    + apply Z.eqb_neq in M. rewrite andb_false_r, parseMonthParam_written by lia.
      rewrite (proj2 (Z.ltb_ge currentYear 2000)), Z.gtb_ltb,
        (proj2 (Z.ltb_ge 2100 currentYear)) by lia.
      rewrite (proj2 (Z.ltb_ge (currentMonth - 1) 1)), Z.gtb_ltb,
        (proj2 (Z.ltb_ge 12 (currentMonth - 1))) by lia.
      reflexivity.
Qed.

Lemma month_selector_navigation_witness :
  format_yyyy_MM (currentDate 2024 12) = Some (writtenMonth 2024 12) /\
  (exists next,
     handleNextMonth 2024 12 = Some next /\
     parseMonthParam 0 (Some next)
     = if (2024 =? 2100) && (12 =? 12) then parseMonthParam 0 None
       else monthAfter 2024 12) /\
  (exists previous,
     handlePreviousMonth 2024 12 = Some previous /\
     parseMonthParam 0 (Some previous)
     = if (2024 =? 2000) && (12 =? 1) then parseMonthParam 0 None
       else monthBefore 2024 12).
Proof.
  apply (month_selector_navigation 0 2024 12); lia.
Defined.


(** ** The data of a month *)

Lemma Map_get_Some {V : Type} (m : list (string * V)) (k : string) (v : V) :
  Map_get m k = Some v -> In (k, v) m.
Proof.
  induction m as [|[k' v'] m IH]; simpl; [discriminate|].
  destruct (String.eqb k' k) eqn:E.
  - apply String.eqb_eq in E. intros [= ->]. left. congruence.
  - intros H. right. now apply IH.
Qed.

Lemma Map_get_None {V : Type} (m : list (string * V)) (k : string) :
  Map_get m k = None -> ~ In k (map fst m).
Proof.
  induction m as [|[k' v'] m IH]; simpl; [tauto|].
  destruct (String.eqb k' k) eqn:E; [discriminate|].
  apply String.eqb_neq in E. intros H [C | C]; [congruence | now apply IH].
Qed.

Lemma Map_set_new {V : Type} (m : list (string * V)) (k : string) (v : V) :
  Map_get m k = None -> Map_set m k v = m ++ [(k, v)].
Proof.
  induction m as [|[k' v'] m IH]; simpl; [reflexivity|].
  destruct (String.eqb k' k); [discriminate|]. intros H. now rewrite IH.
Qed.

Lemma Map_set_keys {V : Type} (m : list (string * V)) (k : string) (v0 v : V) :
  Map_get m k = Some v0 -> map fst (Map_set m k v) = map fst m.
Proof.
  induction m as [|[k' v'] m IH]; simpl; [discriminate|].
  destruct (String.eqb k' k); [reflexivity|]. intros H. simpl. now rewrite IH.
Qed.

Lemma Map_set_In {V : Type} (m : list (string * V)) (k : string) (v0 v : V) :
  Map_get m k = Some v0 -> NoDup (map fst m) ->
  forall k' v', In (k', v') (Map_set m k v) ->
                (k' = k /\ v' = v) \/ (k' <> k /\ In (k', v') m).
Proof.
  induction m as [|[k1 v1] m IH]; simpl; [discriminate|].
  destruct (String.eqb k1 k) eqn:E.
  - apply String.eqb_eq in E. subst k1. intros _ N k' v' [[= <- <-] | H]; [now left|].
    right. split; [|now right]. intros ->. inversion N as [|? ? Hn _]; subst.
    apply Hn. apply in_map_iff. exists (k, v'). auto.
  - apply String.eqb_neq in E. intros G N k' v' [[= <- <-] | H].
    + right. split; [exact E | now left].
    + inversion N; subst. destruct (IH G ltac:(assumption) k' v' H) as [L | [L1 L2]]; auto.
Qed.

Lemma Map_set_sum {V : Type} (f : V -> Z) (m : list (string * V)) (k : string) (v0 v : V) :
  Map_get m k = Some v0 ->
  fold_right Z.add 0 (map (fun kv => f (snd kv)) (Map_set m k v))
  = fold_right Z.add 0 (map (fun kv => f (snd kv)) m) - f v0 + f v.
Proof.
  induction m as [|[k1 v1] m IH]; simpl; [discriminate|].
  destruct (String.eqb k1 k).
  - intros [= ->]. simpl. lia.
  - intros H. simpl. rewrite IH by exact H. lia.
Qed.

Lemma fold_left_Zadd {A : Type} (f : A -> Z) (l : list A) (acc : Z) :
  fold_left (fun sum a => sum + f a) l acc = acc + fold_right Z.add 0 (map f l).
Proof.
  revert acc. induction l as [|a l IH]; intros acc; simpl; [lia|]. rewrite IH. lia.
Qed.

Lemma rowsOf_snoc (k : string) (rows : list AttendanceRow) (r : AttendanceRow) :
  rowsOf k (rows ++ [r])
  = rowsOf k rows ++ (if String.eqb (employeeId (attendance r)) k then [r] else []).
Proof. unfold rowsOf. rewrite filter_app. reflexivity. Qed.

Lemma hoursOf_snoc (rows : list AttendanceRow) (r : AttendanceRow) :
  hoursOf (rows ++ [r])
  = match rows with
    | [] => workedHours (attendance r)
    | _ :: _ => double (hoursOf rows + workedHours (attendance r))
    end.
Proof.
  unfold hoursOf. rewrite map_app. destruct rows as [|r0 rows]; [reflexivity|].
  cbn [map app]. now rewrite fold_left_app.
Qed.

Lemma rowsOf_some (k : string) (rows : list AttendanceRow) :
  In k (map (fun r => employeeId (attendance r)) rows) -> rowsOf k rows <> [].
Proof.
  intros H C. apply in_map_iff in H as (r & E & Hr).
  assert (I : In r (rowsOf k rows)).
  { unfold rowsOf. apply filter_In. split; [exact Hr|]. now apply String.eqb_eq. }
  rewrite C in I. destruct I.
Qed.

Lemma absences_snoc (rows : list AttendanceRow) (r : AttendanceRow) :
  absences (rows ++ [r])
  = absences rows + (if isABSENT (status (attendance r)) then 1 else 0).
Proof.
  unfold absences. rewrite filter_app, length_app. cbn [filter].
  destruct (isABSENT (status (attendance r))); simpl; lia.
Qed.

Lemma rowsOf_none (k : string) (rows : list AttendanceRow) :
  ~ In k (map (fun r => employeeId (attendance r)) rows) -> rowsOf k rows = [].
Proof.
  intros H. unfold rowsOf. induction rows as [|r rows IH]; simpl; [reflexivity|].
  destruct (String.eqb (employeeId (attendance r)) k) eqn:E.
  - apply String.eqb_eq in E. exfalso. apply H. now left.
  - apply IH. intros C. apply H. now right.
Qed.

Lemma Grouped_step (m : list (string * EmployeeTotals)) (rows : list AttendanceRow)
    (r : AttendanceRow) :
  Grouped m rows -> Grouped (addToEmployeeMap m r) (rows ++ [r]).
Proof.
  intros (N & V & K & S). unfold addToEmployeeMap. cbv zeta.
  set (id := employeeId (attendance r)) in *.
  assert (Ids : forall k, In k (map (fun r => employeeId (attendance r)) rows) ->
                          In k (map (fun r => employeeId (attendance r)) (rows ++ [r]))).
  { intros k H. rewrite map_app. apply in_or_app. now left. }
  assert (Idr : In id (map (fun r => employeeId (attendance r)) (rows ++ [r]))).
  { rewrite map_app. apply in_or_app. right. now left. }
  destruct (Map_get m id) as [existing|] eqn:G.
  - pose proof (Map_get_Some _ _ _ G) as Hin.
    destruct (V _ _ Hin) as (V1 & V2 & V3 & V4).
    split; [now rewrite (Map_set_keys _ _ _ _ G)|]. split; [|split].
    + intros k v Hkv.
      destruct (Map_set_In _ _ _ _ G N _ _ Hkv) as [[-> ->] | [Hne Hold]]; cbn [emp_id emp_workedHours emp_leavesTaken].
      * split; [exact V1|]. split; [exact Idr|].
        rewrite rowsOf_snoc. fold id. rewrite String.eqb_refl, hoursOf_snoc, absences_snoc.
        pose proof (rowsOf_some _ _ V2) as Hsome.
        split; [destruct (rowsOf id rows); [congruence | now rewrite V3]|]. rewrite V4.
        destruct (isABSENT (status (attendance r))); lia.
      * destruct (V _ _ Hold) as (W1 & W2 & W3 & W4).
        split; [exact W1|]. split; [now apply Ids|].
        rewrite rowsOf_snoc. fold id.
        rewrite (proj2 (String.eqb_neq id k)) by congruence.
        rewrite app_nil_r. auto.
    + intros r' Hr'. rewrite (Map_set_keys _ _ _ _ G).
      apply in_app_or in Hr' as [Hr' | [<- | []]]; [now apply K|].
      apply in_map_iff. exists (id, existing). auto.
    + rewrite (Map_set_sum emp_leavesTaken _ _ _ _ G), S, absences_snoc.
      cbn [emp_leavesTaken]. destruct (isABSENT (status (attendance r))); lia.
  - pose proof (Map_get_None _ _ G) as Hnot.
    assert (Hrows : rowsOf id rows = []).
    { apply rowsOf_none. intros C. apply in_map_iff in C as (r' & E & Hr').
      apply Hnot. rewrite <- E. now apply K. }
    rewrite (Map_set_new _ _ _ G). split; [|split; [|split]].
    + rewrite map_app. cbn [map fst]. apply NoDup_app; [exact N | repeat constructor; auto | ].
      intros k Hk [<- | []]. now apply Hnot.
    + intros k v Hkv. apply in_app_or in Hkv as [Hold | [[= <- <-] | []]].
      * destruct (V _ _ Hold) as (W1 & W2 & W3 & W4).
        assert (Hne : id <> k).
        { intros ->. apply Hnot. apply in_map_iff. exists (k, v). auto. }
        split; [exact W1|]. split; [now apply Ids|].
        rewrite rowsOf_snoc. fold id.
        rewrite (proj2 (String.eqb_neq id k)) by exact Hne.
        rewrite app_nil_r. auto.
      * cbn [emp_id emp_workedHours emp_leavesTaken].
        split; [reflexivity|]. split; [exact Idr|].
        rewrite rowsOf_snoc. fold id. rewrite String.eqb_refl, Hrows. cbn [app].
        split.
        -- reflexivity.
        -- unfold absences. cbn [filter].
           destruct (isABSENT (status (attendance r))); reflexivity.
    + intros r' Hr'. rewrite map_app. apply in_or_app.
      apply in_app_or in Hr' as [Hr' | [<- | []]]; [left; now apply K|].
      right. now left.
    + rewrite map_app, fold_right_app. cbn [map fold_right snd emp_leavesTaken].
      rewrite absences_snoc, <- S.
      generalize (if isABSENT (status (attendance r)) then 1 else 0). intros z.
      generalize (map (fun kv : string * EmployeeTotals => emp_leavesTaken (snd kv)) m).
      intros l. induction l as [|x l IH]; simpl; lia.
Qed.

Lemma Grouped_fold (rest : list AttendanceRow) :
  forall m rows, Grouped m rows -> Grouped (fold_left addToEmployeeMap rest m) (rows ++ rest).
Proof.
  induction rest as [|r rest IH]; intros m rows G; cbn [fold_left].
  - now rewrite app_nil_r.
  - replace (rows ++ r :: rest) with ((rows ++ [r]) ++ rest) by now rewrite <- app_assoc.
    apply IH, Grouped_step, G.
Qed.

Lemma Grouped_all (records : list AttendanceRow) :
  Grouped (fold_left addToEmployeeMap records []) records.
Proof.
  apply (Grouped_fold records [] []).
  split; [constructor|]. split; [intros k v []|]. split; [intros r []|]. reflexivity.
Qed.

Lemma mapM_all_Ok {A B : Type} (f : A -> result B) (g : A -> B) (l : list A) :
  (forall a, In a l -> f a = Ok (g a)) -> mapM f l = Ok (map g l).
Proof.
  induction l as [|a l IH]; intros H; cbn [mapM map]; [reflexivity|].
  rewrite (H a (or_introl eq_refl)). cbn [bind]. rewrite IH; [reflexivity|].
  intros x Hx. apply H. now right.
Qed.

Local Open Scope Q_scope.

Lemma hoursOf_nonneg (rows : list AttendanceRow) :
  (forall r, In r rows -> 0 <= workedHours (attendance r)) -> 0 <= hoursOf rows.
Proof.
  intros H. unfold hoursOf. destruct rows as [|r rows]; cbn [map]; [discriminate|].
  apply running_total_nonneg; [|apply H; now left].
  apply Forall_forall. intros x Hx. apply in_map_iff in Hx as (r' & <- & Hr).
  apply H. now right.
Qed.

Lemma rowsOf_In (k : string) (rows : list AttendanceRow) (r : AttendanceRow) :
  In r (rowsOf k rows) -> In r rows.
Proof. unfold rowsOf. intros H. now apply filter_In in H. Qed.

Local Close Scope Q_scope.

(** What [getData] returns on rows of non-negative hours. *)
Lemma getData_structure (year month : Z) (records : list AttendanceRow) :
  1900 <= year <= 2100 -> 1 <= month <= 12 -> records <> [] ->
  (forall r, In r records -> (0 <= workedHours (attendance r))%Q) ->
  exists data E,
    getData year month records = Ok data /\
    calculateMonthlyExpectedHours year month = Ok E /\
    (186 <= E <= 211.5)%Q /\
    Dashboard.hasData data = true /\
    Dashboard.employeeMetrics data
    = map (ratioMetrics E) (map snd (fold_left addToEmployeeMap records [])) /\
    Dashboard.totalEmployees (Dashboard.companyMetrics data)
    = Z.of_nat (List.length (Dashboard.employeeMetrics data)) /\
    Dashboard.totalLeavesTaken (Dashboard.companyMetrics data)
    = fold_right Z.add 0 (map Dashboard.leavesTaken (Dashboard.employeeMetrics data)).
Proof.
  intros Hy Hm Hne Hpos.
  unfold getData. destruct records as [|r0 rs]; [congruence|].
  remember (r0 :: rs) as records eqn:ER. clear ER r0 rs Hne.
  destruct (calculateMonthlyExpectedHours_Ok year month Hy Hm) as (E & HE & QE).
  assert (E186 : (186 <= E <= 211.5)%Q)
    by (rewrite QE; apply hoursFrom_month, lastDayOfMonth_bounds).
  assert (E0 : (0 < E)%Q) by lra.
  destruct (Grouped_all records) as (N & V & K & S).
  set (m := fold_left addToEmployeeMap records []) in *.
  assert (M : mapM (metricsOfEmployee E) (map snd m) = Ok (map (ratioMetrics E) (map snd m))).
  { apply mapM_all_Ok. intros emp Hemp. apply in_map_iff in Hemp as ([k v] & <- & Hkv).
    cbn [snd]. destruct (V _ _ Hkv) as (_ & _ & V3 & _).
    unfold metricsOfEmployee. rewrite calculateProductivity_positive; [reflexivity| |exact E0].
    rewrite V3. apply hoursOf_nonneg. intros r Hr. eapply Hpos, rowsOf_In, Hr. }
  rewrite HE. cbn [bind]. rewrite M. cbn [bind].
  eexists _, E. split; [reflexivity|]. split; [reflexivity|]. split; [exact E186|].
  cbn [Dashboard.hasData Dashboard.employeeMetrics Dashboard.companyMetrics
       Dashboard.totalEmployees Dashboard.totalLeavesTaken].
  split; [reflexivity|]. split; [reflexivity|]. split; [reflexivity|].
  now rewrite fold_left_Zadd.
Qed.

(** X13.  For a month in the bounds of the engine and rows of non-negative
    worked hours, [getData] returns data with one entry per employee of the
    rows, in whatever order the rows come and however they interleave: an
    entry has the number of ABSENT rows of its employee; the hours of these
    rows, added in their order, rounded to two decimals; the expected hours
    of the month; and the percentage that [calculateProductivity] makes of
    the unrounded hours.  The number of employees is the number of distinct
    employee ids, and the leaves of the company are the ABSENT rows. *)
Theorem getData_groups_by_employee (year month : Z) (records : list AttendanceRow) :
  1900 <= year <= 2100 -> 1 <= month <= 12 -> records <> [] ->
  (forall r, In r records -> (0 <= workedHours (attendance r))%Q) ->
  exists data E,
    getData year month records = Ok data /\
    calculateMonthlyExpectedHours year month = Ok E /\
    Dashboard.hasData data = true /\
    NoDup (map Dashboard.employeeId (Dashboard.employeeMetrics data)) /\
    (forall id, In id (map Dashboard.employeeId (Dashboard.employeeMetrics data)) <->
                In id (map (fun r => employeeId (attendance r)) records)) /\
    (forall em, In em (Dashboard.employeeMetrics data) ->
       let own := rowsOf (Dashboard.employeeId em) records in
       Dashboard.leavesTaken em = absences own /\
       RoundedTo 2 (hoursOf own) (Dashboard.workedHours em) /\
       Dashboard.expectedHours em = E /\
       calculateProductivity (hoursOf own) E = Ok (Dashboard.productivityPercentage em)) /\
    Dashboard.totalEmployees (Dashboard.companyMetrics data)
    = Z.of_nat (List.length
                  (nodup string_dec (map (fun r => employeeId (attendance r)) records))) /\
    Dashboard.totalLeavesTaken (Dashboard.companyMetrics data) = absences records.
Proof.
  intros Hy Hm Hne Hpos.
  destruct (getData_structure year month records Hy Hm Hne Hpos)
    as (data & E & HD & HE & E186 & HH & HM & HT & HL).
  assert (E0 : (0 < E)%Q) by lra.
  destruct (Grouped_all records) as (N & V & K & S).
  set (m := fold_left addToEmployeeMap records []) in *.
  assert (P : forall k v, In (k, v) m -> (0 <= hoursOf (rowsOf k records))%Q).
  { intros k v _. apply hoursOf_nonneg. intros r Hr. eapply Hpos, rowsOf_In, Hr. }
  assert (Ids : map Dashboard.employeeId (map (ratioMetrics E) (map snd m)) = map fst m).
  { rewrite !map_map. apply map_ext_in. intros [k v] Hkv.
    cbn [ratioMetrics Dashboard.employeeId snd fst]. now destruct (V _ _ Hkv). }
  assert (Same : forall id, In id (map fst m) <->
                            In id (map (fun r => employeeId (attendance r)) records)).
  { intros id. split.
    - intros H. apply in_map_iff in H as ([k v] & <- & Hkv). now destruct (V _ _ Hkv) as (_ & H & _).
    - intros H. apply in_map_iff in H as (r & <- & Hr). now apply K. }
  exists data, E. split; [exact HD|]. split; [exact HE|]. split; [exact HH|].
  rewrite HT, HL, HM.
  split; [now rewrite Ids|]. split; [now rewrite Ids|].
  split; [|split].
  - intros em Hem. apply in_map_iff in Hem as (emp & <- & Hemp).
    apply in_map_iff in Hemp as ([k v] & <- & Hkv). cbn [snd].
    destruct (V _ _ Hkv) as (V1 & _ & V3 & V4).
    cbn [ratioMetrics Dashboard.employeeId Dashboard.leavesTaken Dashboard.workedHours
         Dashboard.expectedHours Dashboard.productivityPercentage].
    rewrite V1, V3. cbv zeta. split; [exact V4|]. split.
    + apply RoundedTo_hundredths. eapply P, Hkv.
    + split; [reflexivity|].
      rewrite calculateProductivity_positive; [reflexivity|eapply P, Hkv|exact E0].
  - f_equal. rewrite !length_map, <- (length_map fst m).
    apply Nat.le_antisymm; apply NoDup_incl_length.
    + exact N.
    + intros id H. apply nodup_In. now apply Same.
    + apply NoDup_nodup.
    + intros id H. apply nodup_In in H. now apply Same.
  - rewrite !map_map. cbn [ratioMetrics Dashboard.leavesTaken]. rewrite <- S.
    reflexivity.
Qed.

(** The rows of two employees, interleaved: two entries, with one leave in
    all, and 17.08 hours for the second employee. *)
Lemma getData_groups_by_employee_witness :
  exists data em1 em2,
    getData 2024 1 rowsOfJanuary = Ok data /\
    Dashboard.employeeMetrics data = [em1; em2] /\
    Dashboard.employeeId em1 = "507f1f77bcf86cd799439011"%string /\
    Dashboard.employeeId em2 = "507f1f77bcf86cd799439012"%string /\
    Dashboard.leavesTaken em1 = 1 /\ Dashboard.leavesTaken em2 = 0 /\
    RoundedTo 2 (double (8.33 + 8.75)) (Dashboard.workedHours em2) /\
    Dashboard.totalEmployees (Dashboard.companyMetrics data) = 2 /\
    Dashboard.totalLeavesTaken (Dashboard.companyMetrics data) = 1.
Proof.
  destruct (getData_groups_by_employee 2024 1 rowsOfJanuary)
    as (data & E & HD & HE & _ & _ & _ & HM & HT & HL);
    [lia | lia | discriminate | |].
  { intros r [<- | [<- | [<- | [<- | []]]]]; discriminate. }
  assert (exists em1 em2, Dashboard.employeeMetrics data = [em1; em2] /\
                          Dashboard.employeeId em1 = "507f1f77bcf86cd799439011"%string /\
                          Dashboard.employeeId em2 = "507f1f77bcf86cd799439012"%string)
    as (em1 & em2 & L & I1 & I2).
  { vm_compute in HD. injection HD as <-. eexists _, _. repeat split. }
  exists data, em1, em2. split; [exact HD|]. split; [exact L|].
  split; [exact I1|]. split; [exact I2|].
  destruct (HM em1) as (A1 & _); [rewrite L; now left|].
  destruct (HM em2) as (A2 & R2 & _); [rewrite L; right; now left|].
  rewrite I1 in A1. rewrite I2 in A2, R2.
  split; [exact A1|]. split; [exact A2|]. split; [exact R2|].
  split; [exact HT | exact HL].
Defined.


(** ** The times of the upload *)

Lemma normalized_checked :
  forallb (fun h => forallb (fun m => forallb (checkNormalized h m) (writings h m))
                            (Zrange 0 60))
          (Zrange 0 24) = true.
Proof. vm_compute. reflexivity. Qed.


Lemma pad2_checked : forallb checkPad2 (Zrange 0 100) = true.
Proof. vm_compute. reflexivity. Qed.

Lemma padStart_twoDigits (n : Z) :
  0 <= n <= 99 -> padStart (Number_toString n) 2 "0" = string_of_list_ascii (twoDigits n).
Proof.
  intros H. pose proof pad2_checked as C. rewrite forallb_forall in C.
  specialize (C n (In_Zrange 0 100 n ltac:(lia))). now apply String.eqb_eq in C.
Qed.

Lemma WritesTime_normalized (l : list ascii) (h m : Z) :
  WritesTime l h m ->
  normalizeTimeString (TimeString (string_of_list_ascii l))
  = Returned (string_of_list_ascii (twoDigits h ++ ":"%char :: twoDigits m)).
Proof.
  intros (Hh & Hm & Hl).
  pose proof normalized_checked as H.
  rewrite forallb_forall in H. specialize (H h (In_Zrange 0 24 h ltac:(lia))).
  rewrite forallb_forall in H. specialize (H m (In_Zrange 0 60 m ltac:(lia))).
  rewrite forallb_forall in H.
  assert (I : In l (writings h m)).
  { unfold writings. destruct Hl as [-> | [H9 ->]]; [now left|].
    right. apply Z.leb_le in H9. rewrite H9. now left. }
  specialize (H l I). unfold checkNormalized in H.
  destruct (normalizeTimeString (TimeString (string_of_list_ascii l))) as [t|e];
    [|discriminate].
  apply String.eqb_eq in H. now subst t.
Qed.

Lemma normalizeTimeString_trim (s : string) :
  trim (trim s) = trim s ->
  normalizeTimeString (TimeString (trim s)) = normalizeTimeString (TimeString s).
Proof. intros H. unfold normalizeTimeString. now rewrite H. Qed.

(** X14.  A time string that [parseTime] accepts goes through
    [normalizeTimeString] unharmed: the route returns the same time of day
    with the hour on two digits, and [parseTime] reads the same value from
    it.  So a string on which the route throws is one that [parseTime]
    rejects. *)
Theorem normalizeTimeString_keeps_accepted_times (s : string) (v : Q) :
  parseTime s = Ok v ->
  exists h m,
    WritesTime (list_ascii_of_string (trim s)) h m /\
    normalizeTimeString (TimeString s)
    = Returned (string_of_list_ascii (twoDigits h ++ ":"%char :: twoDigits m)) /\
    parseTime (string_of_list_ascii (twoDigits h ++ ":"%char :: twoDigits m)) = Ok v.
Proof.
  intros P. destruct (parseTime_trim s v P) as [_ A].
  destruct (AcceptedTime_parseTime s A) as (h & m & W & P').
  exists h, m. split; [exact W|].
  destruct (WritesTime_parse _ _ _ W) as (T & _ & _).
  split.
  - rewrite <- (normalizeTimeString_trim s T).
    rewrite <- (string_of_list_ascii_of_string (trim s)) at 1.
    now apply WritesTime_normalized.
  - assert (W2 : WritesTime (twoDigits h ++ ":"%char :: twoDigits m) h m).
    { destruct W as (Hh & Hm & _). repeat split; try lia. now left. }
    rewrite <- (list_ascii_of_string_of_list_ascii (twoDigits h ++ ":"%char :: twoDigits m)) in W2.
    destruct (WritesTime_parse _ _ _ W2) as (_ & _ & P2). congruence.
Qed.

Lemma writes_9_30 : parseTime " 9:30 " = Ok (inject_Z 9 + inject_Z 30 / 60)%Q.
Proof. vm_compute. reflexivity. Qed.

Lemma normalizeTimeString_keeps_accepted_times_witness :
  exists h m,
    WritesTime (list_ascii_of_string (trim " 9:30 ")) h m /\
    normalizeTimeString (TimeString " 9:30 ")
    = Returned (string_of_list_ascii (twoDigits h ++ ":"%char :: twoDigits m)) /\
    parseTime (string_of_list_ascii (twoDigits h ++ ":"%char :: twoDigits m))
    = Ok (inject_Z 9 + inject_Z 30 / 60)%Q.
Proof.
  apply (normalizeTimeString_keeps_accepted_times " 9:30 " _ writes_9_30).
Defined.

(** *** The matcher of the AM/PM pattern on the 12-hour writings *)

Lemma firstn_length_diff {A : Type} (pre tl : list A) :
  firstn (List.length (pre ++ tl) - List.length tl) (pre ++ tl) = pre.
Proof.
  rewrite length_app. replace (List.length pre + List.length tl - List.length tl)%nat
    with (List.length pre + 0)%nat by lia.
  rewrite firstn_app_2. cbn [firstn]. apply app_nil_r.
Qed.

Lemma exec_Seq_eq (p1 p2 : pattern) (s : list ascii) (caps : captures)
    (k : list ascii -> captures -> option captures) :
  exec (Seq p1 p2) s caps k = exec p1 s caps (fun s1 c1 => exec p2 s1 c1 k).
Proof. reflexivity. Qed.

Lemma exec_OneOf_eq (set : ascii -> bool) (c : ascii) (s : list ascii) (caps : captures)
    (k : list ascii -> captures -> option captures) :
  exec (OneOf set) (c :: s) caps k = if set c then k s caps else None.
Proof. reflexivity. Qed.

Lemma exec_Capture (i : nat) (p : pattern) (pre tl : list ascii) (caps caps' : captures)
    (k : list ascii -> captures -> option captures) (r : captures) :
  (forall k', k' tl caps' = Some r -> exec p (pre ++ tl) caps k' = Some r) ->
  k tl ((i, pre) :: caps') = Some r ->
  exec (Capture i p) (pre ++ tl) caps k = Some r.
Proof.
  intros Hp Hk. cbn [exec]. apply Hp. now rewrite firstn_length_diff.
Qed.

Lemma exec_Many (set : ascii -> bool) (ws tl : list ascii) (caps : captures)
    (k : list ascii -> captures -> option captures) (r : captures) :
  Forall (fun c => set c = true) ws ->
  match tl with c :: _ => set c = false | [] => True end ->
  k tl caps = Some r ->
  exec (Many set) (ws ++ tl) caps k = Some r.
Proof.
  intros Hws Htl Hk. cbn [exec]. induction Hws as [|c ws Hc _ IH]; cbn [app].
  - destruct tl as [|c tl]; [exact Hk|]. now rewrite Htl.
  - rewrite Hc, IH. reflexivity.
Qed.

Lemma exec_hour (h : Z) (hour tl : list ascii) (caps : captures)
    (k : list ascii -> captures -> option captures) (r : captures) :
  0 <= h <= 99 ->
  hour = twoDigits h \/ (h <= 9 /\ hour = [digitChar h]) ->
  k (":"%char :: tl) caps = Some r ->
  exec (Seq (OneOf isDigit) (Maybe (OneOf isDigit))) (hour ++ ":"%char :: tl) caps k
  = Some r.
Proof.
  intros Hh [-> | [H9 ->]] Hk; cbn [exec app twoDigits].
  - destruct (digitChar_facts (h / 10) ltac:(lia)) as (D1 & _).
    destruct (digitChar_facts (h mod 10) ltac:(lia)) as (D2 & _).
    now rewrite D1, D2, Hk.
  - destruct (digitChar_facts h ltac:(lia)) as (D1 & _).
    rewrite D1. change (isDigit ":") with false. cbv iota. exact Hk.
Qed.

Lemma exec_minute (m : Z) (tl : list ascii) (caps : captures)
    (k : list ascii -> captures -> option captures) (r : captures) :
  0 <= m <= 99 ->
  k tl caps = Some r ->
  exec (Seq (OneOf isDigit) (OneOf isDigit)) (twoDigits m ++ tl) caps k = Some r.
Proof.
  intros Hm Hk. cbn [exec app twoDigits].
  destruct (digitChar_facts (m / 10) ltac:(lia)) as (D1 & _).
  destruct (digitChar_facts (m mod 10) ltac:(lia)) as (D2 & _).
  now rewrite D1, D2.
Qed.

Lemma exec_period (pm : bool) (p1 p2 : ascii) (caps : captures) :
  (if pm then p1 = "P"%char \/ p1 = "p"%char else p1 = "A"%char \/ p1 = "a"%char) ->
  (p2 = "M"%char \/ p2 = "m"%char) ->
  exec (Capture 3 (Or (Seq (letter "A" "a") (letter "M" "m"))
                      (Seq (letter "P" "p") (letter "M" "m"))))
       [p1; p2] caps atEnd
  = Some ((3%nat, [p1; p2]) :: caps) /\
  isWhiteSpace p1 = false /\
  toUpperCase (string_of_list_ascii [p1; p2]) = (if pm then "PM" else "AM")%string.
Proof.
  intros H1 H2. destruct pm, H1 as [-> | ->], H2 as [-> | ->]; repeat split; reflexivity.
Qed.

(** The groups of a 12-hour writing. *)
Lemma patternMatch_12hour (l : list ascii) (h m : Z) (pm : bool) :
  0 <= h <= 99 -> 0 <= m <= 99 ->
  Writes12Hour l h m pm ->
  exists hour period,
    patternMatch AM_PM_REGEX (string_of_list_ascii l)
    = Some [(3%nat, period); (2%nat, twoDigits m); (1%nat, hour)] /\
    parseInt hour = Some h /\
    toUpperCase (string_of_list_ascii period) = (if pm then "PM" else "AM")%string.
Proof.
  intros Hh Hm (hour & ws & p1 & p2 & Hhour & Hws & Hp1 & Hp2 & ->).
  destruct (exec_period pm p1 p2 [(2%nat, twoDigits m); (1%nat, hour)] Hp1 Hp2)
    as (E3 & W1 & U).
  exists hour, [p1; p2]. split; [|split; [|exact U]].
  - unfold patternMatch, AM_PM_REGEX. rewrite list_ascii_of_string_of_list_ascii.
    rewrite exec_Seq_eq.
    apply (exec_Capture 1 _ hour _ [] []).
    + intros k' Hk'. now apply (exec_hour h).
    + cbv beta. rewrite exec_Seq_eq, exec_OneOf_eq.
      change (Ascii.eqb ":" ":") with true. cbv iota beta.
      rewrite exec_Seq_eq.
      apply (exec_Capture 2 _ (twoDigits m) _ _ [(1%nat, hour)]).
      * intros k' Hk'. now apply exec_minute.
      * cbv beta. apply exec_Many; [exact Hws | exact W1 | exact E3].
  - destruct Hhour as [-> | [H9 ->]].
    + change (twoDigits h) with (map digitChar [h / 10; h mod 10]).
      rewrite parseInt_digits by (try lia; repeat constructor; lia).
      cbn [fold_left]. f_equal. lia.
    + change [digitChar h] with (map digitChar [h]).
      rewrite parseInt_digits by (try lia; constructor). reflexivity.
Qed.

(** What the AM/PM branch returns. *)
Lemma normalizeTimeString_12hour (l : list ascii) (h m : Z) (pm : bool) :
  0 <= h <= 99 -> 0 <= m <= 99 ->
  Writes12Hour l h m pm ->
  trim (string_of_list_ascii l) = string_of_list_ascii l ->
  normalizeTimeString (TimeString (string_of_list_ascii l))
  = Returned (padStart (Number_toString (to24Hour h pm)) 2 "0" ++ ":"
              ++ string_of_list_ascii (twoDigits m))%string.
Proof.
  intros Hh Hm W T.
  destruct (patternMatch_12hour l h m pm Hh Hm W) as (hour & period & M & P & U).
  unfold normalizeTimeString. rewrite T, M.
  cbn [capture Nat.eqb option_map]. rewrite P, U.
  unfold to24Hour. destruct pm; cbn [String.eqb Ascii.eqb Bool.eqb andb].
  - destruct (h =? 12); reflexivity.
  - destruct (h =? 12); reflexivity.
Qed.

Lemma string_of_list_ascii_app (l1 l2 : list ascii) :
  string_of_list_ascii (l1 ++ l2)
  = (string_of_list_ascii l1 ++ string_of_list_ascii l2)%string.
Proof. induction l1 as [|c l1 IH]; simpl; [reflexivity | now rewrite IH]. Qed.

Lemma trim_inner (c d : ascii) (mid : list ascii) :
  isWhiteSpace c = false -> isWhiteSpace d = false ->
  trim (string_of_list_ascii (c :: mid ++ [d])) = string_of_list_ascii (c :: mid ++ [d]).
Proof.
  intros Hc Hd. unfold trim. rewrite list_ascii_of_string_of_list_ascii.
  cbn [trimStart]. rewrite Hc. unfold trimEnd.
  change (c :: mid ++ [d]) with ((c :: mid) ++ [d]).
  rewrite rev_app_distr. cbn [rev app trimStart]. rewrite Hd.
  cbn [rev]. now rewrite rev_app_distr, rev_involutive.
Qed.

Lemma Writes12Hour_trim (l : list ascii) (h m : Z) (pm : bool) :
  0 <= h <= 99 -> Writes12Hour l h m pm ->
  trim (string_of_list_ascii l) = string_of_list_ascii l.
Proof.
  intros Hh (hour & ws & p1 & p2 & Hhour & Hws & Hp1 & Hp2 & ->).
  assert (W2 : isWhiteSpace p2 = false) by (destruct Hp2 as [-> | ->]; reflexivity).
  destruct Hhour as [-> | [H9 ->]]; unfold twoDigits; cbn [app].
  - destruct (digitChar_facts (h / 10) ltac:(lia)) as (_ & _ & W & _).
    replace (digitChar (h mod 10) :: ":"%char :: digitChar (m / 10) :: digitChar (m mod 10)
               :: ws ++ [p1; p2])
      with ((digitChar (h mod 10) :: ":"%char :: digitChar (m / 10) :: digitChar (m mod 10)
               :: ws ++ [p1]) ++ [p2])
      by (cbn [app]; now rewrite <- app_assoc).
    now apply trim_inner.
  - destruct (digitChar_facts h ltac:(lia)) as (_ & _ & W & _).
    replace (":"%char :: digitChar (m / 10) :: digitChar (m mod 10) :: ws ++ [p1; p2])
      with ((":"%char :: digitChar (m / 10) :: digitChar (m mod 10) :: ws ++ [p1]) ++ [p2])
      by (cbn [app]; now rewrite <- app_assoc).
    now apply trim_inner.
Qed.

Lemma digitChar_inj (a b : Z) :
  0 <= a <= 9 -> 0 <= b <= 9 -> digitChar a = digitChar b -> a = b.
Proof.
  intros Ha Hb E. apply (f_equal digitValue) in E.
  destruct (digitChar_facts a Ha) as (_ & Va & _).
  destruct (digitChar_facts b Hb) as (_ & Vb & _). congruence.
Qed.

Lemma digitChar_not_colon (a : Z) : 0 <= a <= 9 -> digitChar a <> ":"%char.
Proof.
  intros Ha E. destruct (digitChar_facts a Ha) as (D & _). rewrite E in D. discriminate.
Qed.

(** Two digits, a colon and two digits that are no time of day are not
    read by [parseTime]. *)
Lemma parseTime_out_of_range (hh m : Z) (v : Q) :
  0 <= hh <= 99 -> 0 <= m <= 99 -> 23 < hh \/ 59 < m ->
  parseTime (string_of_list_ascii (twoDigits hh ++ ":"%char :: twoDigits m)) <> Ok v.
Proof.
  intros Hh Hm R P. destruct (parseTime_trim _ _ P) as [_ A].
  unfold AcceptedTime, twoDigits in A. cbn [app] in A.
  destruct (digitChar_facts (hh / 10) ltac:(lia)) as (_ & _ & W1 & _).
  destruct (digitChar_facts (m mod 10) ltac:(lia)) as (_ & _ & W2 & _).
  change (digitChar (hh / 10) :: digitChar (hh mod 10) :: ":"%char
            :: [digitChar (m / 10); digitChar (m mod 10)])
    with (digitChar (hh / 10) :: [digitChar (hh mod 10); ":"%char; digitChar (m / 10)]
            ++ [digitChar (m mod 10)]) in A.
  rewrite (trim_inner _ _ _ W1 W2), list_ascii_of_string_of_list_ascii in A.
  apply Matches_WritesTime in A as (h' & m' & Hh' & Hm' & [E | [H9 E]]);
    unfold twoDigits in E; cbn [app] in E.
  - injection E as E1 E2 E3 E4.
    apply digitChar_inj in E1, E2, E3, E4; lia.
  - injection E as _ E2. now apply digitChar_not_colon in E2; [|lia].
Qed.

Lemma pad3_checked : forallb checkPad3 (Zrange 100 12) = true.
Proof. vm_compute. reflexivity. Qed.

(** Neither are three digits, a colon and two digits. *)
Lemma parseTime_three_digits (hh m : Z) (v : Q) :
  100 <= hh <= 111 -> 0 <= m <= 99 ->
  parseTime (padStart (Number_toString hh) 2 "0" ++ ":"
             ++ string_of_list_ascii (twoDigits m))%string <> Ok v.
Proof.
  intros Hh Hm P.
  pose proof pad3_checked as C. rewrite forallb_forall in C.
  specialize (C hh (In_Zrange 100 12 hh ltac:(lia))). unfold checkPad3 in C.
  apply String.eqb_eq in C. rewrite C in P.
  change ":"%string with (string_of_list_ascii [":"%char]) in P.
  rewrite <- !string_of_list_ascii_app in P. unfold twoDigits in P. cbn [app] in P.
  destruct (parseTime_trim _ _ P) as [_ A]. unfold AcceptedTime in A.
  destruct (digitChar_facts 1 ltac:(lia)) as (_ & _ & W1 & _).
  destruct (digitChar_facts (m mod 10) ltac:(lia)) as (_ & _ & W2 & _).
  change (digitChar 1 :: digitChar (hh / 10 mod 10) :: digitChar (hh mod 10) :: ":"%char
            :: [digitChar (m / 10); digitChar (m mod 10)])
    with (digitChar 1 :: [digitChar (hh / 10 mod 10); digitChar (hh mod 10); ":"%char;
                          digitChar (m / 10)] ++ [digitChar (m mod 10)]) in A.
  rewrite (trim_inner _ _ _ W1 W2), list_ascii_of_string_of_list_ascii in A.
  apply Matches_WritesTime in A as (h' & m' & _ & _ & [E | [_ E]]);
    unfold twoDigits in E; cbn [app] in E; discriminate E.
Qed.




(** X16.  The AM/PM branch of [normalizeTimeString] checks no range: on a
    12-hour writing whose minute is above 59, or whose hour is above 12
    with PM or above 23 with AM, it throws nothing and returns a string
    that [parseTime] rejects. *)
Theorem normalizeTimeString_AM_PM_unchecked (l : list ascii) (h m : Z) (pm : bool) :
  0 <= h <= 99 -> 0 <= m <= 99 -> Writes12Hour l h m pm ->
  59 < m \/ (pm = true /\ 12 < h) \/ (pm = false /\ 23 < h) ->
  exists t timeString details,
    normalizeTimeString (TimeString (string_of_list_ascii l)) = Returned t /\
    parseTime t = Throw (InvalidTimeFormatError timeString details).
Proof.
  intros Hh Hm W R.
  rewrite (normalizeTimeString_12hour l h m pm Hh Hm W (Writes12Hour_trim l h m pm Hh W)).
  assert (B : 0 <= to24Hour h pm <= 111 /\ (59 < m \/ 23 < to24Hour h pm)).
  { unfold to24Hour. destruct pm; destruct (h =? 12) eqn:E;
      [apply Z.eqb_eq in E | apply Z.eqb_neq in E
      | apply Z.eqb_eq in E | apply Z.eqb_neq in E];
      (split; [lia|]); destruct R as [R | [[R1 R2] | [R1 R2]]];
      try discriminate; try lia. }
  destruct B as [B R'].
  match goal with
  | |- exists t ts d, Returned ?x = Returned t /\ _ =>
      exists x; destruct (parseTime x) as [v|e] eqn:P
  end.
  - exfalso. destruct (Z_le_gt_dec (to24Hour h pm) 99) as [L | G].
    + rewrite padStart_twoDigits in P by lia.
      change ":"%string with (string_of_list_ascii [":"%char]) in P.
      rewrite <- !string_of_list_ascii_app in P. cbn [app] in P.
      apply (parseTime_out_of_range (to24Hour h pm) m v); [lia | lia | lia | exact P].
    + apply (parseTime_three_digits (to24Hour h pm) m v); [lia | lia | exact P].
  - apply parseTime_Throw in P as (ts & d & ->). exists ts, d. split; reflexivity.
Qed.

Lemma writes_13_45_PM : Writes12Hour (list_ascii_of_string "13:45 PM") 13 45 true.
Proof.
  exists ["1"; "3"]%char, [" "%char], "P"%char, "M"%char.
  split; [now left|].
  split; [repeat constructor|]. split; [now left|]. split; [now left | reflexivity].
Qed.

Lemma normalizeTimeString_AM_PM_unchecked_witness :
  exists t timeString details,
    normalizeTimeString (TimeString "13:45 PM") = Returned t /\
    parseTime t = Throw (InvalidTimeFormatError timeString details).
Proof.
  apply (normalizeTimeString_AM_PM_unchecked (list_ascii_of_string "13:45 PM") 13 45 true);
    [lia | lia | exact writes_13_45_PM | right; left; split; [reflexivity | lia]].
Defined.

Local Open Scope Q_scope.


Local Close Scope Q_scope.



(** On half a minute the products in double precision decide: the double
    nearest to 00:01:30 is returned as 00:02 and the double nearest to
    0.009375, 00:13:30, as 00:13. *)
Lemma normalizeTimeString_half_minutes :
  normalizeTimeString (TimeNumber (double (15 # 14400))) = Returned "00:02"%string /\
  normalizeTimeString (TimeNumber (double 0.009375)) = Returned "00:13"%string.
Proof. split; vm_compute; reflexivity. Qed.

(** ** The extension of the uploaded file *)

Lemma length_list_ascii_of_string (s : string) :
  List.length (list_ascii_of_string s) = String.length s.
Proof. induction s as [|c s IH]; simpl; congruence. Qed.

Lemma endsWith_iff (s e : string) :
  endsWith s e = true <->
  exists stem, list_ascii_of_string s = stem ++ list_ascii_of_string e.
Proof.
  unfold endsWith. rewrite andb_true_iff, Nat.leb_le, String.eqb_eq.
  rewrite <- !length_list_ascii_of_string. split.
  - intros [L E].
    set (d := (List.length (list_ascii_of_string s)
               - List.length (list_ascii_of_string e))%nat) in *.
    exists (firstn d (list_ascii_of_string s)).
    apply (f_equal list_ascii_of_string) in E.
    rewrite list_ascii_of_string_of_list_ascii in E.
    rewrite <- E. symmetry. apply firstn_skipn.
  - intros [stem E]. rewrite E, length_app. split; [lia|].
    replace (List.length stem + List.length (list_ascii_of_string e)
             - List.length (list_ascii_of_string e))%nat
      with (List.length stem + 0)%nat by lia.
    rewrite skipn_app, skipn_all2 by lia. cbn [app].
    replace (List.length stem + 0 - List.length stem)%nat with 0%nat by lia.
    cbn [skipn]. apply string_of_list_ascii_of_string.
Qed.

Lemma endsWith_lower (filename e : string) :
  endsWith (toLowerCase filename) e = true <->
  exists stem ext, filename = (stem ++ ext)%string /\ toLowerCase ext = e.
Proof.
  rewrite endsWith_iff. unfold toLowerCase.
  rewrite list_ascii_of_string_of_list_ascii. split.
  - intros [stem' E].
    exists (string_of_list_ascii (firstn (List.length stem') (list_ascii_of_string filename))),
      (string_of_list_ascii (skipn (List.length stem') (list_ascii_of_string filename))).
    split.
    + rewrite <- string_of_list_ascii_app, firstn_skipn.
      symmetry. apply string_of_list_ascii_of_string.
    + rewrite list_ascii_of_string_of_list_ascii, <- skipn_map, E.
      rewrite skipn_app, skipn_all2, Nat.sub_diag by lia. cbn [app skipn].
      apply string_of_list_ascii_of_string.
  - intros (stem & ext & -> & <-).
    exists (map toLowerChar (list_ascii_of_string stem)).
    rewrite list_ascii_of_string_of_list_ascii, <- map_app. f_equal.
    rewrite <- (list_ascii_of_string_of_list_ascii
                  (list_ascii_of_string stem ++ list_ascii_of_string ext)).
    now rewrite string_of_list_ascii_app, !string_of_list_ascii_of_string.
Qed.

(** X18.  The upload form and the route check the extension alike: both
    accept exactly the file names that end, letter case apart, in [.xlsx]
    or [.xls], with any stem before, even none; on any other name the route
    throws the error that quotes the name as it was given. *)
Theorem file_extension_checks_agree (filename : string) :
  (isValidFileExtension filename = true <->
   exists stem ext,
     filename = (stem ++ ext)%string /\
     (toLowerCase ext = ".xlsx"%string \/ toLowerCase ext = ".xls"%string)) /\
  validateFileExtension filename
  = (if isValidFileExtension filename then Returned true
     else Thrown (InvalidFileType filename)).
Proof.
  split.
  - unfold isValidFileExtension, ALLOWED_EXTENSIONS. cbn [existsb].
    rewrite orb_false_r, orb_true_iff, !endsWith_lower. split.
    + intros [(stem & ext & E & L) | (stem & ext & E & L)]; exists stem, ext; auto.
    + intros (stem & ext & E & [L | L]); [left | right]; exists stem, ext; auto.
  - unfold validateFileExtension, isValidFileExtension, ALLOWED_EXTENSIONS.
    now destruct (existsb _ _).
Qed.

Lemma file_extension_checks_agree_witness :
  isValidFileExtension "Report.XLSX" = true /\
  validateFileExtension "Report.XLSX" = Returned true.
Proof.
  destruct (file_extension_checks_agree "Report.XLSX") as [H1 H2].
  assert (V : isValidFileExtension "Report.XLSX" = true).
  { apply H1. exists "Report"%string, ".XLSX"%string. split; [reflexivity | now left]. }
  split; [exact V|]. now rewrite H2, V.
Defined.


(** ** From the rows of the file to the records *)

Lemma GroupedByName_step (m : list (string * list NormalizedAttendanceRecord))
    (rows : list NormalizedAttendanceRecord) (r : NormalizedAttendanceRecord) :
  GroupedByName m rows -> GroupedByName (addToRecordsByEmployee m r) (rows ++ [r]).
Proof.
  intros (N & V & K). unfold addToRecordsByEmployee. cbv zeta.
  set (name := norm_employeeName r).
  assert (Ids : forall k, In k (map norm_employeeName rows) ->
                          In k (map norm_employeeName (rows ++ [r]))).
  { intros k H. rewrite map_app. apply in_or_app. now left. }
  assert (Idr : In name (map norm_employeeName (rows ++ [r]))).
  { rewrite map_app. apply in_or_app. right. now left. }
  destruct (Map_get m name) as [existing|] eqn:G.
  - pose proof (Map_get_Some _ _ _ G) as Hin.
    destruct (V _ _ Hin) as (V1 & V2 & V3).
    split; [now rewrite (Map_set_keys _ _ _ _ G)|]. split.
    + intros k v Hkv.
      destruct (Map_set_In _ _ _ _ G N _ _ Hkv) as [[-> ->] | [Hne Hold]].
      * split; [now destruct existing|]. split; [exact Idr|].
        intros r' Hr'. apply in_app_or in Hr' as [Hr' | [<- | []]]; auto.
      * destruct (V _ _ Hold) as (W1 & W2 & W3). auto.
    + intros r' Hr'. rewrite (Map_set_keys _ _ _ _ G).
      apply in_app_or in Hr' as [Hr' | [<- | []]]; [now apply K|].
      apply in_map_iff. exists (name, existing). auto.
  - pose proof (Map_get_None _ _ G) as Hnot.
    rewrite (Map_set_new _ _ _ G). split; [|split].
    + rewrite map_app. cbn [map fst]. apply NoDup_app; [exact N | repeat constructor; auto | ].
      intros k Hk [<- | []]. now apply Hnot.
    + intros k v Hkv. apply in_app_or in Hkv as [Hold | [[= <- <-] | []]].
      * destruct (V _ _ Hold) as (W1 & W2 & W3). auto.
      * split; [discriminate|]. split; [exact Idr|]. intros r' [<- | []]. reflexivity.
    + intros r' Hr'. rewrite map_app. apply in_or_app.
      apply in_app_or in Hr' as [Hr' | [<- | []]]; [left; now apply K|].
      right. now left.
Qed.

Lemma GroupedByName_fold (rest : list NormalizedAttendanceRecord) :
  forall m rows,
    GroupedByName m rows ->
    GroupedByName (fold_left addToRecordsByEmployee rest m) (rows ++ rest).
Proof.
  induction rest as [|r rest IH]; intros m rows G; cbn [fold_left].
  - now rewrite app_nil_r.
  - replace (rows ++ r :: rest) with ((rows ++ [r]) ++ rest) by now rewrite <- app_assoc.
    apply IH, GroupedByName_step, G.
Qed.

Lemma GroupedByName_all (records : list NormalizedAttendanceRecord) :
  GroupedByName (fold_left addToRecordsByEmployee records []) records.
Proof.
  apply (GroupedByName_fold records [] []).
  split; [constructor|]. split; [intros k v []|]. intros r [].
Qed.

(** The records of one employee: one per day of the month, in order, all
    with the id of the employee. *)
Lemma processEmployee_Ok (employeeMap : string -> string) (year month : Z)
    (name : string) (rows : list NormalizedAttendanceRecord)
    (recs : list ProcessedAttendanceRecord) :
  rows <> [] ->
  processEmployee employeeMap year month (name, rows) = Ok recs ->
  (1900 <= year <= 2100 /\ 1 <= month <= 12) /\
  map date recs = map (midnightOf year month) (daysOfMonth year month) /\
  forall r, In r recs -> employeeId r = employeeMap name.
Proof.
  intros Hne H. unfold processEmployee in H.
  destruct (processMonthlyAttendance_Ok_bounds _ _ _ _ H) as [Hy Hm].
  split; [auto|]. split; [now apply (processMonthlyAttendance_dates year month Hy Hm _ _ H)|].
  intros r Hin.
  destruct (record_cases _ _ _ _ _ H Hin) as (day & Hd & [(e & w & F & W & ->) | (N & ->)]);
    cbn [employeeId].
  - apply FirstOnDay_In in F. apply in_map_iff in F as (row & <- & _). reflexivity.
  - rewrite firstEmployeeId_normalized. destruct rows as [|row rows]; [congruence|].
    reflexivity.
Qed.

Lemma length_concat_uniform {A : Type} (ls : list (list A)) (n : nat) :
  (forall l, In l ls -> List.length l = n) ->
  List.length (List.concat ls) = (List.length ls * n)%nat.
Proof.
  induction ls as [|l ls IH]; intros H; cbn [List.concat List.length]; [reflexivity|].
  rewrite length_app, (H l (or_introl eq_refl)), IH; [lia|].
  intros l' Hl'. apply H. now right.
Qed.

(** X19.  When the route gets records out of the rows of a file, the month
    of the first row is the month of all of them: every employee named in
    the file gets one record for each day of that month, under the id of
    the name, whatever the months of the other rows; so the
    records are as many as the distinct names times the days of the month.
    The year of the first row is then between 1900 and 2100. *)
Theorem upload_covers_the_month_of_the_first_row
    (employeeMap : string -> string) (firstRecord : NormalizedAttendanceRecord)
    (others : list NormalizedAttendanceRecord) (recs : list ProcessedAttendanceRecord) :
  allProcessedRecords employeeMap firstRecord others = Ok recs ->
  let year := YearFromDay (Day (norm_date firstRecord)) in
  let month := MonthFromDay (Day (norm_date firstRecord)) + 1 in
  let names := map norm_employeeName (firstRecord :: others) in
  1900 <= year <= 2100 /\
  List.length recs
  = (List.length (nodup string_dec names) * Z.to_nat (lastDayOfMonth year month))%nat /\
  (forall r, In r recs ->
     exists name day,
       In name names /\ employeeId r = employeeMap name /\
       1 <= day <= lastDayOfMonth year month /\ date r = midnightOf year month day) /\
  (forall name day,
     In name names -> 1 <= day <= lastDayOfMonth year month ->
     exists r, In r recs /\ employeeId r = employeeMap name /\
               date r = midnightOf year month day).
Proof.
  intros H year month names. unfold allProcessedRecords in H. cbv zeta in H.
  fold year month in H.
  destruct (GroupedByName_all (firstRecord :: others)) as (N & V & K).
  set (groups := fold_left addToRecordsByEmployee (firstRecord :: others) []) in *.
  apply bind_Ok in H as (processed & M & [= <-]).
  apply mapM_Ok in M.
  assert (Each : Forall2 (fun g l =>
                   (1900 <= year <= 2100 /\ 1 <= month <= 12) /\
                   map date l = map (midnightOf year month) (daysOfMonth year month) /\
                   forall r, In r l -> employeeId r = employeeMap (fst g))
                 groups processed).
  { assert (V' : forall g, In g groups -> snd g <> []).
    { intros [k v] Hg. now destruct (V _ _ Hg). }
    clear - M V'. induction M as [|[k v] l groups processed Hl _ IH]; constructor.
    - apply (processEmployee_Ok employeeMap year month k v l); [|exact Hl].
      apply (V' (k, v)). now left.
    - apply IH. intros g Hg. apply V'. now right. }
  assert (First : In (norm_employeeName firstRecord) (map fst groups)).
  { apply K. now left. }
  assert (Hy : 1900 <= year <= 2100).
  { apply in_map_iff in First as (g & _ & Hg).
    clear - Each Hg. induction Each as [|g' l groups processed Hl _ IH]; [contradiction|].
    destruct Hg as [-> | Hg]; [tauto | auto]. }
  assert (Hm : 1 <= month <= 12).
  { apply in_map_iff in First as (g & _ & Hg).
    clear - Each Hg. induction Each as [|g' l groups processed Hl _ IH]; [contradiction|].
    destruct Hg as [-> | Hg]; [tauto | auto]. }
  pose proof (lastDayOfMonth_bounds year month) as B.
  assert (Same : forall name, In name (map fst groups) <-> In name names).
  { intros name. split.
    - intros Hn. apply in_map_iff in Hn as ([k v] & <- & Hkv). now destruct (V _ _ Hkv) as (_ & Hk & _).
    - intros Hn. apply in_map_iff in Hn as (r & <- & Hr). now apply K. }
  split; [exact Hy|]. split; [|split].
  - rewrite (length_concat_uniform processed (Z.to_nat (lastDayOfMonth year month))).
    + f_equal. rewrite <- (Forall2_length Each), <- (length_map fst groups).
      apply Nat.le_antisymm; apply NoDup_incl_length.
      * exact N.
      * intros name Hn. apply nodup_In. now apply Same.
      * apply NoDup_nodup.
      * intros name Hn. apply nodup_In in Hn. now apply Same.
    + intros l Hl. clear - Each Hl.
      induction Each as [|g l' groups processed (_ & D & _) _ IH]; [contradiction|].
      destruct Hl as [<- | Hl]; [|auto].
      apply (f_equal (@List.length _)) in D.
      unfold daysOfMonth, dayRange in D. rewrite !length_map, length_seq in D. exact D.
  - intros r Hr. apply in_concat in Hr as (l & Hl & Hr).
    assert (E : exists g, In g groups /\
                  map date l = map (midnightOf year month) (daysOfMonth year month) /\
                  forall r, In r l -> employeeId r = employeeMap (fst g)).
    { clear - Each Hl. induction Each as [|g l' groups processed (_ & D) _ IH]; [contradiction|].
      destruct Hl as [<- | Hl].
      - exists g. split; [now left | exact D].
      - destruct (IH Hl) as (g' & Hg' & D'). exists g'. split; [now right | exact D']. }
    destruct E as (g & Hg & D & I).
    assert (Hd : In (date r) (map (midnightOf year month) (daysOfMonth year month))).
    { rewrite <- D. now apply in_map. }
    apply in_map_iff in Hd as (day & Ed & Hday). apply In_daysOfMonth in Hday.
    exists (fst g), day. split; [|split; [now apply I | split; [exact Hday | now symmetry]]].
    apply Same. now apply in_map.
  - intros name day Hn Hday. apply Same in Hn. apply in_map_iff in Hn as (g & <- & Hg).
    assert (E : exists l, In l processed /\
                  map date l = map (midnightOf year month) (daysOfMonth year month) /\
                  forall r, In r l -> employeeId r = employeeMap (fst g)).
    { clear - Each Hg. induction Each as [|g' l groups processed (_ & D) _ IH]; [contradiction|].
      destruct Hg as [-> | Hg].
      - exists l. split; [now left | exact D].
      - destruct (IH Hg) as (l' & Hl' & D'). exists l'. split; [now right | exact D']. }
    destruct E as (l & Hl & D & I).
    assert (Hd : In (midnightOf year month day) (map date l)).
    { rewrite D. apply in_map. now apply In_daysOfMonth. }
    apply in_map_iff in Hd as (r & Er & Hr).
    exists r. split; [|split; [now apply I | exact Er]].
    apply in_concat. exists l. auto.
Qed.

Lemma upload_covers_the_month_of_the_first_row_witness :
  exists recs,
    allProcessedRecords (fun name => name) rowOfJohn [rowOfJane] = Ok recs /\
    List.length recs = 62%nat.
Proof.
  destruct (allProcessedRecords (fun name => name) rowOfJohn [rowOfJane]) as [recs|e] eqn:H;
    [|vm_compute in H; discriminate].
  exists recs. split; [reflexivity|].
  destruct (upload_covers_the_month_of_the_first_row _ _ _ _ H) as (_ & L & _).
  rewrite L. vm_compute. reflexivity.
Defined.


(** ** The date of a row *)

Local Open Scope Q_scope.

Lemma Qfloor_between (v : Q) (lo hi : Z) :
  inject_Z lo <= v -> v < inject_Z hi -> (lo <= Qfloor v < hi)%Z.
Proof.
  intros L H. split.
  - rewrite <- (Qfloor_Z lo). now apply Qfloor_resp_le.
  - apply Z.lt_nge. intros C. rewrite Zle_Qle in C.
    pose proof (Qfloor_le v). lra.
Qed.

(** X20.  A date cell that is a number from 25569 (1 January 1970) to
    2958465 (31 December 9999) is read as the day that many days after 30
    December 1899, its fraction being the time of day: the date falls on
    the calendar day whose day number is the whole part less 25569, so
    that the engine files the row under that day. *)
Theorem parseExcelDate_serial (serial : Q) :
  25569 <= serial <= 2958465 ->
  exists t,
    parseExcelDate (ExcelSerial serial) = Returned (DateAt t) /\
    Day t = (Qfloor serial - 25569)%Z /\
    normalizeDate (DateAt t) = DateAt (MakeDate (Qfloor serial - 25569) 0) /\
    forall year month day,
      (1 <= month <= 12)%Z -> (1 <= day <= lastDayOfMonth year month)%Z ->
      Qfloor serial = (25569 + MakeDay year (month - 1) day)%Z ->
      OnCalendarDay (DateAt t) year month day.
Proof.
  intros [Lo Hi]. unfold parseExcelDate.
  change (newDate 1899 11 30) with (DateAt (-2209161600000)). cbn [getTime].
  set (v := inject_Z (-2209161600000) + serial * 24 * 60 * 60 * 1000).
  assert (V : v == (serial - 25569) * 86400000) by (unfold v; change (inject_Z (-2209161600000)) with (-2209161600000); ring).
  assert (V0 : 0 <= v) by (rewrite V; nra).
  assert (V1 : v <= 8640000000000000) by (rewrite V; nra).
  unfold Date_ofTimeValue.
  assert (A : Qle_bool (Qabs v) 8640000000000000 = true).
  { apply Qle_bool_iff. rewrite Qabs_pos by exact V0. exact V1. }
  rewrite A, (proj2 (Qle_bool_iff 0 v) V0). cbn [getTime].
  assert (D : Day (Qfloor v) = (Qfloor serial - 25569)%Z).
  { pose proof (Qfloor_le serial) as F1. pose proof (Qlt_floor serial) as F2.
    rewrite inject_Z_plus in F2. change (inject_Z 1) with 1 in F2.
    set (n := Qfloor serial) in *.
    destruct (Qfloor_between v ((n - 25569) * 86400000) ((n - 25569 + 1) * 86400000)) as [B1 B2].
    - rewrite V, inject_Z_mult, inject_Z_sub.
      change (inject_Z 25569) with 25569. change (inject_Z 86400000) with 86400000. nra.
    - rewrite V, inject_Z_mult, inject_Z_plus, inject_Z_sub.
      change (inject_Z 25569) with 25569. change (inject_Z 86400000) with 86400000.
      change (inject_Z 1) with 1. nra.
    - unfold Day, msPerDay. lia. }
  exists (Qfloor v). split; [reflexivity|]. split; [exact D|]. split.
  - unfold normalizeDate, startOfDay, setHours0. rewrite D. unfold TimeClip.
    rewrite (proj2 (Z.leb_le _ _)); [reflexivity|].
    assert (N : (25569 <= Qfloor serial <= 2958465)%Z).
    { split.
      - rewrite <- (Qfloor_Z 25569). now apply Qfloor_resp_le.
      - rewrite <- (Qfloor_Z 2958465). now apply Qfloor_resp_le. }
    unfold MakeDate, msPerDay. lia.
  - intros year month day Hm Hd E.
    destruct (MakeDay_components year month day Hm Hd) as (C1 & C2 & C3).
    unfold OnCalendarDay, getFullYear, getMonth, getDate. cbn [getTime option_map].
    rewrite D, E.
    replace (25569 + MakeDay year (month - 1) day - 25569)%Z
      with (MakeDay year (month - 1) day) by lia.
    rewrite C1, C2, C3. split; [reflexivity|]. split; reflexivity.
Qed.

Local Close Scope Q_scope.

Lemma parseExcelDate_serial_witness :
  exists t,
    parseExcelDate (ExcelSerial 45321.375) = Returned (DateAt t) /\
    OnCalendarDay (DateAt t) 2024 1 30.
Proof.
  destruct (parseExcelDate_serial 45321.375) as (t & P & _ & _ & C).
  - split; discriminate.
  - exists t. split; [exact P|]. apply C; [lia | vm_compute; split; discriminate | reflexivity].
Defined.


(** ** The order of the entries *)

Lemma strictEq_true (a b : option Z) : strictEq a b = true -> a = b /\ a <> None.
Proof.
  destruct a as [x|], b as [y|]; simpl; try discriminate.
  intros H. apply Z.eqb_eq in H. subst. split; [reflexivity | discriminate].
Qed.

Lemma getTime_inj (d d' : Date) : getTime d = getTime d' -> d = d'.
Proof. destruct d, d'; simpl; congruence. Qed.

(** X21.  The order of the entries does not matter when they do not
    conflict: if all entries have the same employee id and the entries of
    one day carry the same two time strings, [processMonthlyAttendance]
    returns or throws the same on any rearrangement of the list. *)
Theorem processMonthlyAttendance_order_independent
    (year month : Z) (raws raws' : list RawAttendanceInput) :
  Permutation raws raws' ->
  (forall e e', In e raws -> In e' raws -> raw_employeeId e = raw_employeeId e') ->
  (forall e e',
     In e raws -> In e' raws ->
     normalizeDate (raw_date e) = normalizeDate (raw_date e') ->
     normalizeDate (raw_date e) <> InvalidDate ->
     raw_inTime e = raw_inTime e' /\ raw_outTime e = raw_outTime e') ->
  processMonthlyAttendance year month raws' = processMonthlyAttendance year month raws.
Proof.
  intros P Hid Htimes. unfold processMonthlyAttendance.
  destruct (generateMonthDates year month) as [dates|e]; [|reflexivity].
  cbn [bind]. apply mapM_ext_in. intros d _.
  unfold processDate. rewrite !findRecordForDate_find.
  set (p := fun e => strictEq (getTime (normalizeDate (raw_date e))) (getTime d)).
  assert (F : firstEmployeeId (normalizeRecords raws')
              = firstEmployeeId (normalizeRecords raws)).
  { rewrite !firstEmployeeId_normalized.
    destruct raws as [|e raws], raws' as [|e' raws']; try reflexivity.
    - now apply Permutation_nil in P.
    - now apply Permutation_sym, Permutation_nil in P.
    - apply Hid; [|now left]. eapply Permutation_in; [apply Permutation_sym, P | now left]. }
  destruct (find p raws') as [e'|] eqn:F', (find p raws) as [e|] eqn:F0; cbn [option_map].
  - apply find_some in F' as [I' P'], F0 as [I0 P0].
    apply (Permutation_in _ (Permutation_sym P)) in I'.
    apply strictEq_true in P' as [E' N'], P0 as [E0 N0].
    destruct (Htimes e e' I0 I') as [Ti To].
    + apply getTime_inj. congruence.
    + intros C. rewrite C in N0. now apply N0.
    + cbn [normalizeRecord raw_inTime raw_outTime raw_employeeId].
      now rewrite Ti, To, (Hid e e' I0 I').
  - exfalso. apply find_some in F' as [I' P'].
    apply (Permutation_in _ (Permutation_sym P)) in I'.
    pose proof (proj1 (find_None _ _) F0 e' I'). congruence.
  - exfalso. apply find_some in F0 as [I0 P0].
    apply (Permutation_in _ P) in I0.
    pose proof (proj1 (find_None _ _) F' e I0). congruence.
  - now rewrite F.
Qed.

Lemma processMonthlyAttendance_order_independent_witness :
  processMonthlyAttendance 2024 1
    [ {| raw_employeeId := "507f1f77bcf86cd799439011"; raw_date := newDate 2024 0 3;
         raw_inTime := "10:00"; raw_outTime := "18:00" |}; jan2 ]
  = processMonthlyAttendance 2024 1
    [ jan2;
      {| raw_employeeId := "507f1f77bcf86cd799439011"; raw_date := newDate 2024 0 3;
         raw_inTime := "10:00"; raw_outTime := "18:00" |} ].
Proof.
  apply processMonthlyAttendance_order_independent.
  - apply perm_swap.
  - intros e e' [<- | [<- | []]] [<- | [<- | []]]; reflexivity.
  - intros e e' [<- | [<- | []]] [<- | [<- | []]] E _;
      try (split; reflexivity); vm_compute in E; discriminate.
Defined.


(** ** The dashboard against the engine *)

Lemma records_of_one_employee (year month : Z) (raws : list RawAttendanceInput)
    (recs : list ProcessedAttendanceRecord) (id : string) :
  processMonthlyAttendance year month raws = Ok recs ->
  raws <> [] ->
  (forall e, In e raws -> raw_employeeId e = id) ->
  forall r, In r recs -> employeeId r = id.
Proof.
  intros H Hne Hid r Hin.
  destruct (record_cases _ _ _ _ _ H Hin) as (day & Hd & [(e & w & F & W & ->) | (N & ->)]);
    cbn [employeeId].
  - apply Hid. eapply FirstOnDay_In, F.
  - rewrite firstEmployeeId_normalized. destruct raws as [|e raws]; [congruence|].
    apply Hid. now left.
Qed.

Lemma NoDup_constant {A : Type} (l : list A) (a : A) :
  NoDup l -> (forall x, In x l -> x = a) -> l <> [] -> l = [a].
Proof.
  intros N H Hne. destruct l as [|x [|y l]]; [congruence| |].
  - now rewrite (H x (or_introl eq_refl)).
  - exfalso. inversion N as [|? ? Hx _]; subst. apply Hx.
    rewrite (H x (or_introl eq_refl)), (H y (or_intror (or_introl eq_refl))). now left.
Qed.

Lemma rowsOf_all (id : string) (rows : list AttendanceRow) :
  (forall r, In r rows -> employeeId (attendance r) = id) -> rowsOf id rows = rows.
Proof.
  intros H. unfold rowsOf. induction rows as [|r rows IH]; cbn [filter]; [reflexivity|].
  rewrite (H r (or_introl eq_refl)), String.eqb_refl, IH; [reflexivity|].
  intros x Hx. apply H. now right.
Qed.

(** X22.  The page and the engine agree on the month of one employee: on
    the records that [processMonthlyAttendance] returns for entries of one
    employee id, [getData] has a single entry, for that id, whose worked
    hours, expected hours and percentage are those that
    [calculateAggregateProductivity] reports on the same records, and whose
    leaves are the ABSENT records. *)
Theorem getData_agrees_with_calculateAggregateProductivity
    (year month : Z) (raws : list RawAttendanceInput)
    (recs : list ProcessedAttendanceRecord) (id name : string) :
  processMonthlyAttendance year month raws = Ok recs ->
  raws <> [] ->
  (forall e, In e raws -> raw_employeeId e = id) ->
  exists data metrics em,
    getData year month (map (fun r => {| attendance := r; employee_name := name |}) recs)
    = Ok data /\
    calculateAggregateProductivity recs = Ok metrics /\
    Dashboard.employeeMetrics data = [em] /\
    Dashboard.employeeId em = id /\
    (Dashboard.workedHours em == actualHours metrics)%Q /\
    (Dashboard.expectedHours em == expectedHours metrics)%Q /\
    (Dashboard.productivityPercentage em == productivityPercentage metrics)%Q /\
    Dashboard.leavesTaken em
    = Z.of_nat (List.length (filter (fun r => isABSENT (status r)) recs)).
Proof.
  intros H Hne Hid.
  destruct (processMonthlyAttendance_Ok_bounds _ _ _ _ H) as [Hy Hm].
  destruct (aggregate_of_month _ _ _ _ H)
    as (E & KA & D & HE & E186 & HKA & SA & HD & D1 & D8 & NA & M).
  set (rows := map (fun r => {| attendance := r; employee_name := name |}) recs).
  assert (Hrecs : recs <> []).
  { intros ->. unfold calculateAggregateProductivity in M. discriminate. }
  assert (Hrows : rows <> []).
  { unfold rows. destruct recs; [congruence | discriminate]. }
  assert (Hpos : forall r, In r rows -> (0 <= workedHours (attendance r))%Q).
  { intros r Hr. apply in_map_iff in Hr as (r' & <- & Hr'). cbn [attendance].
    pose proof (record_hundredths _ _ _ _ H) as Fh. rewrite Forall_forall in Fh.
    destruct (Fh (workedHours r') (in_map _ _ _ Hr')) as (k & Hk & ->).
    destruct (hundredths_bounds k 0%Z k ltac:(lia)) as [L _].
    change (inject_Z 0) with 0%Q in L. qdiv_const. lra. }
  destruct (getData_structure year month rows Hy Hm Hrows Hpos)
    as (data & E' & HD0 & HE' & _ & _ & HM & _ & _).
  assert (E' = E) by congruence. subst E'.
  destruct (Grouped_all rows) as (N & V & K & _).
  set (m := fold_left addToEmployeeMap rows []) in *.
  assert (Hids : forall r, In r rows -> employeeId (attendance r) = id).
  { intros r Hr. apply in_map_iff in Hr as (r' & <- & Hr'). cbn [attendance].
    eapply records_of_one_employee; eauto. }
  assert (Keys : map fst m = [id]).
  { apply NoDup_constant; [exact N | |].
    - intros k Hk. apply in_map_iff in Hk as ([k' v] & <- & Hkv).
      destruct (V _ _ Hkv) as (_ & I & _).
      apply in_map_iff in I as (r & <- & Hr). now apply Hids.
    - destruct rows as [|r rows']; [congruence|].
      intros C. specialize (K r (or_introl eq_refl)). rewrite C in K. contradiction. }
  destruct m as [|[k v] [|? ?]] eqn:Em; try discriminate Keys.
  cbn [map fst] in Keys. injection Keys as ->.
  destruct (V id v (or_introl eq_refl)) as (V1 & _ & V3 & V4).
  rewrite (rowsOf_all id rows Hids) in V3, V4.
  assert (Hh : (Qabs (hoursOf rows - inject_Z KA / 100) <= 1 # 1000000000)%Q).
  { unfold hoursOf, rows. rewrite map_map. cbn [attendance].
    destruct recs as [|r0 recs']; [congruence | exact NA]. }
  assert (H0 : (0 <= hoursOf rows)%Q) by now apply hoursOf_nonneg.
  assert (Ha : absences rows
               = Z.of_nat (List.length (filter (fun r => isABSENT (status r)) recs))).
  { unfold absences, rows. f_equal. clear. induction recs as [|r recs IH]; [reflexivity|].
    cbn [map filter attendance]. destruct (isABSENT (status r)); cbn [List.length]; lia. }
  rewrite Ha in V4.
  eexists data, _, (ratioMetrics E v). split; [exact HD0|]. split; [exact M|].
  split; [exact HM|].
  cbn [ratioMetrics Dashboard.employeeId Dashboard.workedHours Dashboard.expectedHours
       Dashboard.productivityPercentage Dashboard.leavesTaken
       actualHours expectedHours productivityPercentage].
  rewrite V3.
  split; [exact V1|]. split; [|split; [|split; [|exact V4]]].
  - now rewrite (Math_round_hundredths_stable _ KA HKA Hh).
  - rewrite HD, inject_Z_mult. change (inject_Z 50) with 50%Q. field.
  - fold (scaledRatio (hoursOf rows) E).
    now rewrite (Math_round_ratio_stable KA D _ E HKA D1 D8 HD H0 Hh).
Qed.

Lemma getData_agrees_with_calculateAggregateProductivity_witness :
  exists recs data metrics em,
    processMonthlyAttendance 2024 1 [jan2] = Ok recs /\
    getData 2024 1 (map (fun r => {| attendance := r; employee_name := "John Doe" |}) recs)
    = Ok data /\
    calculateAggregateProductivity recs = Ok metrics /\
    Dashboard.employeeMetrics data = [em] /\
    (Dashboard.productivityPercentage em == productivityPercentage metrics)%Q.
Proof.
  assert (exists recs, processMonthlyAttendance 2024 1 [jan2] = Ok recs) as [recs E]
    by (eexists; vm_compute; reflexivity).
  destruct (getData_agrees_with_calculateAggregateProductivity
              2024 1 [jan2] recs "507f1f77bcf86cd799439011" "John Doe" E)
    as (data & metrics & em & H1 & H2 & H3 & _ & _ & _ & H4 & _).
  - discriminate.
  - intros e [<- | []]. reflexivity.
  - exists recs, data, metrics, em. auto.
Defined.


(** ** The days of leave *)

Lemma mapM_count {A B : Type} (f : A -> result B) (p : B -> bool) (q : A -> bool)
    (l : list A) (bs : list B) :
  mapM f l = Ok bs ->
  (forall a b, In a l -> f a = Ok b -> p b = q a) ->
  List.length (filter p bs) = List.length (filter q l).
Proof.
  intros H. apply mapM_Ok in H. induction H as [|a b l bs Hb _ IH]; intros Hpq.
  - reflexivity.
  - cbn [filter]. rewrite (Hpq a b (or_introl eq_refl) Hb).
    assert (R : List.length (filter p bs) = List.length (filter q l)).
    { apply IH. intros a' b' Ha'. apply Hpq. now right. }
    destruct (q a); cbn [List.length]; now rewrite R.
Qed.

(** X23.  The ABSENT records that [processMonthlyAttendance] returns are as
    many as the days of the month, Sundays apart, on which no entry is
    dated: Saturdays without entry count, Sundays never do. *)
Theorem processMonthlyAttendance_counts_leaves
    (year month : Z) (raws : list RawAttendanceInput)
    (recs : list ProcessedAttendanceRecord) :
  processMonthlyAttendance year month raws = Ok recs ->
  exists leaveDays,
    NoDup leaveDays /\
    (forall day,
       In day leaveDays <->
       1 <= day <= lastDayOfMonth year month /\
       dayOfWeek (midnightOf year month day) <> Some Sunday /\
       NoneOnDay raws year month day) /\
    List.length (filter (fun r => isABSENT (status r)) recs) = List.length leaveDays.
Proof.
  intros H. destruct (processMonthlyAttendance_Ok_bounds _ _ _ _ H) as [Hy Hm].
  set (q := fun day => negb (isSunday (midnightOf year month day))
                       && negb (existsb (matchesDay year month day) raws)).
  assert (N : forall day, 1 <= day <= lastDayOfMonth year month ->
                existsb (matchesDay year month day) raws = false <->
                NoneOnDay raws year month day).
  { intros day Hd. split.
    - intros E e He C. apply (proj2 (sameDay_iff year month Hy Hm _ day Hd)) in C.
      assert (X : existsb (matchesDay year month day) raws = true).
      { apply existsb_exists. exists e. split; [exact He | exact C]. }
      congruence.
    - intros No. apply not_true_is_false. intros C.
      apply existsb_exists in C as (e & He & C).
      apply (proj1 (sameDay_iff year month Hy Hm _ day Hd)) in C. now apply (No e). }
  exists (filter q (daysOfMonth year month)). split; [|split].
  - apply NoDup_filter, daysOfMonth_NoDup.
  - intros day. rewrite filter_In, In_daysOfMonth. unfold q.
    rewrite andb_true_iff, !negb_true_iff. split.
    + intros (Hd & S & E). split; [exact Hd|]. split; [|now apply N].
      intros C. apply isSunday_iff in C. congruence.
    + intros (Hd & S & No). split; [exact Hd|]. split; [|now apply N].
      apply not_true_is_false. intros C. apply isSunday_iff in C. contradiction.
  - rewrite (processMonthlyAttendance_unfold year month Hy Hm) in H.
    rewrite (mapM_count _ _ (fun d => match findRecordForDate d (normalizeRecords raws) with
                                      | Some _ => false
                                      | None => negb (isSunday d)
                                      end) _ _ H).
    + clear H. induction (daysOfMonth year month) as [|day days IH]; [reflexivity|].
      cbn [map filter]. rewrite findRecordForDate_find. unfold q at 1.
      assert (E : find (fun e => strictEq (getTime (normalizeDate (raw_date e)))
                                          (getTime (midnightOf year month day))) raws = None
                  <-> existsb (matchesDay year month day) raws = false).
      { rewrite find_None. split.
        - intros F. apply not_true_is_false. intros C.
          apply existsb_exists in C as (e & He & C). specialize (F e He).
          unfold matchesDay in C. congruence.
        - intros F e He. apply not_true_is_false. intros C.
          assert (X : existsb (matchesDay year month day) raws = true).
          { apply existsb_exists. exists e. split; [exact He | exact C]. }
          congruence. }
      destruct (find _ raws) as [e|] eqn:F; cbn [option_map].
      * destruct (existsb (matchesDay year month day) raws) eqn:X.
        -- rewrite andb_false_r. exact IH.
        -- exfalso. destruct E as [_ E]. specialize (E eq_refl). discriminate.
      * rewrite (proj1 E eq_refl), andb_true_r.
        destruct (isSunday (midnightOf year month day)); cbn [negb]; [exact IH|].
        apply (f_equal S) in IH. exact IH.
    + intros d r _ P. unfold processDate in P.
      destruct (findRecordForDate d (normalizeRecords raws)).
      * apply bind_Ok in P as (w & _ & [= <-]). reflexivity.
      * destruct (isSunday d); injection P as <-; reflexivity.
Qed.

Lemma processMonthlyAttendance_counts_leaves_witness :
  exists recs (leaveDays : list Z),
    processMonthlyAttendance 2024 1 [jan2] = Ok recs /\
    NoDup leaveDays /\
    List.length (filter (fun r => isABSENT (status r)) recs) = List.length leaveDays.
Proof.
  assert (exists recs, processMonthlyAttendance 2024 1 [jan2] = Ok recs) as [recs E]
    by (eexists; vm_compute; reflexivity).
  destruct (processMonthlyAttendance_counts_leaves 2024 1 [jan2] recs E)
    as (leaveDays & N & _ & L).
  exists recs, leaveDays. auto.
Defined.

(** ** A rejected time in the first row *)

Lemma calendar_of_day (d : Z) :
  0 <= MonthFromDay d <= 11 /\
  1 <= DateFromDay d <= lastDayOfMonth (YearFromDay d) (MonthFromDay d + 1).
Proof.
  pose proof (YearFromDay_spec d) as S.
  destruct (year_in_cycle (YearFromDay d)) as (Hs & Hl & Hn).
  rewrite Hs, Hn in S.
  unfold DateFromDay, MonthFromDay, DayWithinYear, InLeapYear, lastDayOfMonth.
  rewrite Hl. set (n := d - DayFromYear (YearFromDay d)).
  assert (Bn : 0 <= n < (if isLeapYear (YearFromDay d) then 366 else 365)) by (unfold n; lia).
  clearbody n. clear S Hs Hl Hn.
  destruct (isLeapYear (YearFromDay d));
    repeat match goal with
           | |- context [?a <? ?b] =>
               let E := fresh in
               destruct (a <? b) eqn:E;
               [apply Z.ltb_lt in E | apply Z.ltb_ge in E]
           end; cbn; lia.
Qed.

Lemma processMonthlyAttendance_Throw_kind (year month : Z) (raws : list RawAttendanceInput)
    (e : Error) :
  1900 <= year <= 2100 -> 1 <= month <= 12 ->
  processMonthlyAttendance year month raws = Throw e ->
  exists timeString details, e = InvalidTimeFormatError timeString details.
Proof.
  intros Hy Hm H. rewrite (processMonthlyAttendance_unfold year month Hy Hm) in H.
  apply mapM_Throw in H as (l1 & d & l2 & _ & P & _). unfold processDate in P.
  destruct (findRecordForDate d (normalizeRecords raws)).
  - apply bind_Throw in P as [P | (w & _ & P)]; [|discriminate].
    eapply calculateWorkedHours_Throw, P.
  - destruct (isSunday d); discriminate.
Qed.

Lemma recordsByEmployee_head (rest : list NormalizedAttendanceRecord) :
  forall (k : string) (v : list NormalizedAttendanceRecord)
         (m : list (string * list NormalizedAttendanceRecord)),
  exists v' m',
    fold_left addToRecordsByEmployee rest ((k, v) :: m) = (k, v ++ v') :: m'.
Proof.
  induction rest as [|r rest IH]; intros k v m; cbn [fold_left].
  - exists [], m. now rewrite app_nil_r.
  - unfold addToRecordsByEmployee at 2. cbn [Map_get Map_set].
    destruct (String.eqb k (norm_employeeName r)).
    + destruct (IH k (v ++ [r]) m) as (v' & m' & ->).
      exists ([r] ++ v'), m'. now rewrite app_assoc.
    + apply IH.
Qed.

(** X24.  When the first row of a file has a year from 1900 to 2100 and a
    time string that [parseTime] rejects, the route gets no record at all
    out of the file: the engine throws an [InvalidTimeFormatError] on the
    rows of the first employee, whatever the other rows are. *)
Theorem upload_fails_on_a_rejected_time
    (employeeMap : string -> string) (firstRecord : NormalizedAttendanceRecord)
    (others : list NormalizedAttendanceRecord) :
  1900 <= YearFromDay (Day (norm_date firstRecord)) <= 2100 ->
  ~ AcceptedTime (norm_inTime firstRecord) \/ ~ AcceptedTime (norm_outTime firstRecord) ->
  exists timeString details,
    allProcessedRecords employeeMap firstRecord others
    = Throw (InvalidTimeFormatError timeString details).
Proof.
  intros Hy Hrej. unfold allProcessedRecords. cbv zeta.
  set (t := norm_date firstRecord) in *.
  destruct (calendar_of_day (Day t)) as [Bm Bd].
  set (year := YearFromDay (Day t)) in *. set (month := MonthFromDay (Day t) + 1) in *.
  assert (Hm : 1 <= month <= 12) by (unfold month; lia).
  cbn [fold_left]. unfold addToRecordsByEmployee at 2. cbn [Map_get Map_set app].
  destruct (recordsByEmployee_head others (norm_employeeName firstRecord) [firstRecord] [])
    as (v' & m' & ->).
  cbn [mapM app]. unfold processEmployee at 1. cbn [map].
  set (e := {| raw_employeeId := employeeMap (norm_employeeName firstRecord);
               raw_date := DateAt (norm_date firstRecord);
               raw_inTime := norm_inTime firstRecord;
               raw_outTime := norm_outTime firstRecord |}).
  match goal with
  | |- context [processMonthlyAttendance year month (e :: ?rest)] => set (raws := e :: rest)
  end.
  destruct (processMonthlyAttendance year month raws) as [recs|err] eqn:P.
  - exfalso.
    assert (F : FirstOnDay raws year month (DateFromDay (Day t)) e).
    { exists [], (tl raws). split; [reflexivity|]. split; [|intros ? []].
      unfold OnCalendarDay, getFullYear, getMonth, getDate. cbn [e raw_date getTime option_map].
      fold t. unfold year, month. repeat split; f_equal; lia. }
    destruct (proj1 (processMonthlyAttendance_succeeds year month Hy Hm raws)
                    (ex_intro _ recs P) _ e Bd F) as [Ai Ao].
    cbn [e raw_inTime raw_outTime] in Ai, Ao. tauto.
  - cbn [bind]. apply (processMonthlyAttendance_Throw_kind year month raws err Hy Hm) in P
      as (ts & d & ->). eauto.
Qed.

Lemma upload_fails_on_a_rejected_time_witness :
  exists timeString details,
    allProcessedRecords (fun name => name)
      {| norm_employeeName := "John Doe"; norm_date := 1704153600000;
         norm_inTime := "25:45"; norm_outTime := "17:30" |} [rowOfJane]
    = Throw (InvalidTimeFormatError timeString details).
Proof.
  apply upload_fails_on_a_rejected_time.
  - vm_compute. split; discriminate.
  - left. rewrite AcceptedTime_iff_valid. vm_compute. discriminate.
Defined.
